(** * pr-merge-scheduler: the scheduler's core, embedded and verified

    The development follows the three source modules of the action:
    - [comment-handler.js]: [COMMAND_REGEX], [hasWritePermission],
      [validateScheduleTime], [handleComment];
    - [merge-scheduler.js]: [mergePR], [processScheduledMerges];
    - [utils.js]: [createComment], [storeScheduleInfo],
      [removeScheduleInfo], [getScheduledPRs].

    JavaScript strings are modelled as Rocq strings that hold the text in
    UTF-8: a character of the ASCII range is one byte, any other character
    is the sequence of its bytes.  The white space and the line terminators
    of JavaScript are recognized in that encoding, U+00A0, U+FEFF, U+2028,
    U+2029 and the space separators included.  Regular expressions are run
    by a backtracking matcher with JavaScript's priorities.  Instants are
    time values in milliseconds since the epoch, as [Z]; a [Date] object is
    [option Z], [None] being JavaScript's Invalid Date.  The libraries the
    sources call (date-fns, date-fns-tz, [JSON], [Date]) are a parameter,
    [Platform].  The Repository Host is a parameter too: a record of the
    operations of the client [github.getOctokit] returns, over a host
    state; [getOctokit] itself has one failure, the empty token, and makes
    no request.  An [async] function is a computation that threads this state, records every call
    with its outcome and propagates what is thrown.  What the sources write
    to the action's log ([core.info], [core.error]) is left out.

    The first part holds the embedding, a reference platform, a model of the
    host and the scenarios of the test suite; the second part holds the
    properties, one theorem for each numbered claim of the specification. *)

From Stdlib Require Import String Ascii List ZArith Lia Bool Arith.
Import ListNotations.

Local Open Scope string_scope.
Local Open Scope Z_scope.

(* ================================================================== *)
(** ** JavaScript string primitives *)
(* ================================================================== *)

Module JsString.

(** The value of a byte. *)
Definition code (c : ascii) : nat := nat_of_ascii c.

(** The text of the bytes [l]. *)
Fixpoint bytes (l : list Z) : string :=
  match l with
  | [] => EmptyString
  | n :: l' => String (ascii_of_nat (Z.to_nat n)) (bytes l')
  end.

(** [s.startsWith(p)] *)
Fixpoint startsWith (s p : string) {struct p} : bool :=
  match p, s with
  | EmptyString, _ => true
  | String a p', String b s' => Ascii.eqb a b && startsWith s' p'
  | String _ _, EmptyString => false
  end.

(** In UTF-8 a byte from 128 to 191 continues a character; every other byte
    starts one. *)
Definition is_continuation (c : ascii) : bool :=
  (128 <=? code c)%nat && (code c <=? 191)%nat.

(** The text is empty or starts at a character. *)
Definition starts_char (s : string) : bool :=
  match s with
  | EmptyString => true
  | String c _ => negb (is_continuation c)
  end.

(** The white space of JavaScript, which [\s], [trim] and [split(/\s+/)]
    share: the characters TAB, VT, FF, SPACE, U+00A0 and U+FEFF, the space
    separators of Unicode (U+1680, U+2000 to U+200A, U+202F, U+205F,
    U+3000) and the line terminators LF, CR, U+2028 and U+2029, each in
    UTF-8. *)
Definition WHITE_SPACE : list string :=
  [ bytes [9]; bytes [10]; bytes [11]; bytes [12]; bytes [13]; bytes [32];
    bytes [194; 160];                                  (* U+00A0 *)
    bytes [225; 154; 128];                             (* U+1680 *)
    bytes [226; 128; 128]; bytes [226; 128; 129];      (* U+2000, U+2001 *)
    bytes [226; 128; 130]; bytes [226; 128; 131];      (* U+2002, U+2003 *)
    bytes [226; 128; 132]; bytes [226; 128; 133];      (* U+2004, U+2005 *)
    bytes [226; 128; 134]; bytes [226; 128; 135];      (* U+2006, U+2007 *)
    bytes [226; 128; 136]; bytes [226; 128; 137];      (* U+2008, U+2009 *)
    bytes [226; 128; 138];                             (* U+200A *)
    bytes [226; 128; 168]; bytes [226; 128; 169];      (* U+2028, U+2029 *)
    bytes [226; 128; 175];                             (* U+202F *)
    bytes [226; 129; 159];                             (* U+205F *)
    bytes [227; 128; 128];                             (* U+3000 *)
    bytes [239; 187; 191] ].                           (* U+FEFF *)

(** The line terminators, at which [.] stops: LF, CR, U+2028, U+2029. *)
Definition LINE_TERMINATORS : list string :=
  [ bytes [10]; bytes [13]; bytes [226; 128; 168]; bytes [226; 128; 169] ].

(** The number of bytes of the character of [cs] the text starts with, 0
    when it starts with none of them. *)
Definition width_of (cs : list string) (s : string) : nat :=
  match find (startsWith s) cs with
  | Some w => String.length w
  | None => 0%nat
  end.

(** The width of the white space character at the start of the text. *)
Definition space_width (s : string) : nat := width_of WHITE_SPACE s.

(** The width of the line terminator at the start of the text. *)
Definition line_width (s : string) : nat := width_of LINE_TERMINATORS s.

(** [\d] *)
Definition is_digit (c : ascii) : bool :=
  let n := code c in (48 <=? n)%nat && (n <=? 57)%nat.

Definition is_upper (c : ascii) : bool :=
  let n := code c in (65 <=? n)%nat && (n <=? 90)%nat.

Definition is_lower (c : ascii) : bool :=
  let n := code c in (97 <=? n)%nat && (n <=? 122)%nat.

(** [\w] is [A-Za-z0-9_]. *)
Definition is_word (c : ascii) : bool :=
  is_upper c || is_lower c || is_digit c || (code c =? 95)%nat.

Definition upper_char (c : ascii) : ascii :=
  if is_lower c then ascii_of_nat (code c - 32) else c.

(** [String.prototype.toUpperCase]: the letters [a] to [z] are mapped, the
    other bytes stay.  The one caller matches the result against the time
    pattern, which is made of digits, [:], [A], [M] and [P]: a character
    outside the ASCII range keeps a byte outside it here, and in JavaScript
    its upper case holds a character that is none of these, so that the
    pattern fails on both. *)
Fixpoint toUpperCase (s : string) : string :=
  match s with
  | EmptyString => EmptyString
  | String c s' => String (upper_char c) (toUpperCase s')
  end.

(** The functions below read the text byte by byte; [inside] counts the
    bytes of the white space character being read that are still to come. *)

(** The text is white space only. *)
Fixpoint all_space_from (inside : nat) (s : string) : bool :=
  match s with
  | EmptyString => (inside =? 0)%nat
  | String _ s' =>
      match inside with
      | S k => all_space_from k s'
      | O =>
          match space_width s with
          | S k => all_space_from k s'
          | O => false
          end
      end
  end.

Definition all_space (s : string) : bool := all_space_from 0 s.

Fixpoint trimStart_from (inside : nat) (s : string) : string :=
  match s with
  | EmptyString => EmptyString
  | String _ s' =>
      match inside with
      | S k => trimStart_from k s'
      | O =>
          match space_width s with
          | S k => trimStart_from k s'
          | O => s
          end
      end
  end.

(** Drops leading white space. *)
Definition trimStart (s : string) : string := trimStart_from 0 s.

(** Drops trailing white space: the text is cut where what is left of it is
    white space only. *)
Fixpoint trimEnd (s : string) : string :=
  match s with
  | EmptyString => EmptyString
  | String c s' => if all_space s then EmptyString else String c (trimEnd s')
  end.

(** [String.prototype.trim] *)
Definition trim (s : string) : string := trimEnd (trimStart s).

(** [s.split(/\s+/)]: the pieces between maximal runs of white space.  As in
    JavaScript the empty string splits into one empty piece, and white space
    at either end yields an empty piece there. *)
Fixpoint split_ws_from (inside : nat) (cur : string) (in_run : bool) (s : string)
    : list string :=
  match s with
  | EmptyString => [cur]
  | String c s' =>
      match inside with
      | S k => split_ws_from k cur in_run s'
      | O =>
          match space_width s with
          | S k =>
              if in_run then split_ws_from k EmptyString true s'
              else cur :: split_ws_from k EmptyString true s'
          | O => split_ws_from 0 (cur ++ String c EmptyString) false s'
          end
      end
  end.

Definition split_ws (s : string) : list string := split_ws_from 0 EmptyString false s.

(** [s.split(sep)] for a one-character separator. *)
Fixpoint split_char_from (sep : ascii) (cur : string) (s : string) : list string :=
  match s with
  | EmptyString => [cur]
  | String c s' =>
      if Ascii.eqb c sep
      then cur :: split_char_from sep EmptyString s'
      else split_char_from sep (cur ++ String c EmptyString) s'
  end.

Definition split_char (sep : ascii) (s : string) : list string :=
  split_char_from sep EmptyString s.

(** [parts.join(sep)] *)
Fixpoint join (sep : string) (parts : list string) : string :=
  match parts with
  | [] => EmptyString
  | [p] => p
  | p :: ps => p ++ sep ++ join sep ps
  end.

Fixpoint remove_spaces_from (inside : nat) (s : string) : string :=
  match s with
  | EmptyString => EmptyString
  | String c s' =>
      match inside with
      | S k => remove_spaces_from k s'
      | O =>
          match space_width s with
          | S k => remove_spaces_from k s'
          | O => String c (remove_spaces_from 0 s')
          end
      end
  end.

(** [s.replace(/\s+/g, '')] *)
Definition remove_spaces (s : string) : string := remove_spaces_from 0 s.

(** [s.includes(needle)] *)
Fixpoint includes (s needle : string) : bool :=
  startsWith s needle ||
  match s with
  | EmptyString => false
  | String _ s' => includes s' needle
  end.

(** [s.padStart(n, '0')] *)
Definition padStart0 (n : nat) (s : string) : string :=
  String.concat EmptyString (repeat "0" (n - String.length s)) ++ s.

Definition digit_val (c : ascii) : Z := Z.of_nat (code c) - 48.

Fixpoint parseInt_from (acc : Z) (s : string) : Z :=
  match s with
  | EmptyString => acc
  | String c s' => if is_digit c then parseInt_from (10 * acc + digit_val c) s' else acc
  end.

(** [parseInt(s, 10)] on a string that starts with a decimal digit: the
    value of its leading digits.  The callers apply it to groups matched by
    [\d{1,2}] or [\d{2}], so JavaScript's [NaN] result does not arise. *)
Definition parseInt (s : string) : Z := parseInt_from 0 s.

Definition digit_char (d : Z) : ascii := ascii_of_nat (Z.to_nat d + 48).

Fixpoint digits_of (fuel : nat) (n : Z) (acc : string) : string :=
  match fuel with
  | O => acc
  | S fuel' =>
      let acc' := String (digit_char (n mod 10)) acc in
      if n <? 10 then acc' else digits_of fuel' (n / 10) acc'
  end.

(** [n.toString()] for an integer [n]. *)
Definition toString (n : Z) : string :=
  if n <? 0 then "-" ++ digits_of (S (Z.to_nat (Z.log2 (- n)))) (- n) EmptyString
  else digits_of (S (Z.to_nat (Z.log2 n))) n EmptyString.

End JsString.

Import JsString.

(* ================================================================== *)
(** ** Regular expressions *)
(* ================================================================== *)

(** A backtracking matcher for the fragment of JavaScript regular
    expressions the sources use: character classes, sequence, ordered
    alternation, greedy quantifiers, capture groups and the two anchors.
    The text is matched byte by byte.  The classes [\d] and [\w] and the
    literals of the sources are of the ASCII range; [\s] is the alternation
    of the white space characters; [.] takes one byte where no line
    terminator starts (the sources use it under [+] only, where a character
    of several bytes is as many iterations).
    Alternatives are tried from left to right and a greedy quantifier tries
    one more iteration before it tries to stop, as [RegExp.prototype.exec]
    does, so the first match found is the one JavaScript reports. *)
Module Regex.

Inductive regex : Type :=
| Eps                                  (* empty pattern *)
| Cls (p : ascii -> bool)              (* one byte of a class *)
| Dot                                  (* . *)
| Cat (r1 r2 : regex)                  (* r1 r2 *)
| Alt (r1 r2 : regex)                  (* r1 | r2 *)
| Star (r : regex)                     (* r*, greedy *)
| Grp (n : nat) (r : regex)            (* n-th capture group *)
| Bol                                  (* ^ *)
| Eol.                                 (* $ *)

(** Captures: group number and captured text, the latest binding first. *)
Definition captures := list (nat * string).

(** A continuation receives the position reached, the text left and the
    captures so far. *)
Definition cont := nat -> string -> captures -> option (nat * captures).

(** Greedy iteration of a matcher; an iteration that consumes nothing is
    refused, and [fuel] bounds the number of iterations by the text left. *)
Fixpoint star (body : nat -> string -> captures -> cont -> option (nat * captures))
    (fuel : nat) (i : nat) (s : string) (c : captures) (k : cont)
    : option (nat * captures) :=
  match fuel with
  | O => k i s c
  | S fuel' =>
      match body i s c
              (fun i' s' c' => if (i' =? i)%nat then None else star body fuel' i' s' c' k) with
      | Some res => Some res
      | None => k i s c
      end
  end.

Fixpoint run (r : regex) (i : nat) (s : string) (c : captures) (k : cont)
    : option (nat * captures) :=
  match r with
  | Eps => k i s c
  | Cls p =>
      match s with
      | String a s' => if p a then k (S i) s' c else None
      | EmptyString => None
      end
  | Dot =>
      match s with
      | String _ s' => if (line_width s =? 0)%nat then k (S i) s' c else None
      | EmptyString => None
      end
  | Cat r1 r2 => run r1 i s c (fun i' s' c' => run r2 i' s' c' k)
  | Alt r1 r2 =>
      match run r1 i s c k with
      | Some res => Some res
      | None => run r2 i s c k
      end
  | Star r' => star (run r') (String.length s) i s c k
  | Grp n r' =>
      run r' i s c (fun i' s' c' => k i' s' ((n, substring 0 (i' - i) s) :: c'))
  | Bol => if (i =? 0)%nat then k i s c else None
  | Eol => match s with EmptyString => k i s c | String _ _ => None end
  end.

(** The match found when the pattern is tried at position [i] of the text. *)
Definition match_at (r : regex) (i : nat) (s : string) : option (nat * captures) :=
  run r i s [] (fun i' _ c => Some (i', c)).

(** Leftmost match: positions are tried from the start of the text, the end
    position included. *)
Fixpoint search (r : regex) (i : nat) (s : string) : option (nat * captures) :=
  match match_at r i s with
  | Some res => Some res
  | None =>
      match s with
      | EmptyString => None
      | String _ s' => search r (S i) s'
      end
  end.

(** [r.exec(s)], [s.match(r)] without the [g] flag: the captures of the
    leftmost match, [None] when nothing matches. *)
Definition exec (r : regex) (s : string) : option captures :=
  option_map snd (search r 0 s).

(** [match[n]]; [None] is JavaScript's [undefined] for a group that did not
    take part in the match. *)
Fixpoint group (n : nat) (c : captures) : option string :=
  match c with
  | [] => None
  | (m, v) :: c' => if (m =? n)%nat then Some v else group n c'
  end.

(** Pattern syntax. *)
Definition chr (a : ascii) : regex := Cls (Ascii.eqb a).
(** A literal character under the [i] flag. *)
Definition chr_i (a : ascii) : regex :=
  Cls (fun b => Ascii.eqb (upper_char b) (upper_char a)).
Fixpoint lit (s : string) : regex :=
  match s with
  | EmptyString => Eps
  | String a s' => Cat (chr a) (lit s')
  end.
Fixpoint lit_i (s : string) : regex :=
  match s with
  | EmptyString => Eps
  | String a s' => Cat (chr_i a) (lit_i s')
  end.
Definition opt (r : regex) : regex := Alt r Eps.          (* r? *)
Definition plus (r : regex) : regex := Cat r (Star r).    (* r+ *)
Fixpoint times (n : nat) (r : regex) : regex :=           (* r{n} *)
  match n with
  | O => Eps
  | S n' => Cat r (times n' r)
  end.
(** One of the texts [ws]. *)
Fixpoint any_of (ws : list string) : regex :=
  match ws with
  | [] => Cls (fun _ => false)
  | w :: ws' => Alt (lit w) (any_of ws')
  end.
Definition digit : regex := Cls is_digit.                 (* \d *)
Definition space : regex := any_of WHITE_SPACE.           (* \s *)

End Regex.

Import Regex.
Infix ";;;" := Cat (at level 41, right associativity).

(* ================================================================== *)
(** ** Errors, dates and the platform *)
(* ================================================================== *)

(** A thrown value: an [Error] with its [message]; errors raised by the
    host's client also carry the HTTP [status]. *)
Record Error : Type := mkError { message : string; status : option Z }.

(** [new Error(msg)] *)
Definition new_Error (msg : string) : Error := {| message := msg; status := None |}.

(** [error.status === code] *)
Definition has_status (error : Error) (code : Z) : bool :=
  match status error with
  | Some s => s =? code
  | None => false
  end.

(** The outcome of a computation: a thrown error on the left, the value
    returned on the right. *)
Definition Result (A : Type) : Type := (Error + A)%type.

(** A [Date] object; [None] is the Invalid Date. *)
Definition Date : Type := option Z.

(** date-fns [isValid] *)
Definition isValid (d : Date) : bool :=
  match d with Some _ => true | None => false end.

(** The library and platform functions the sources call and do not define:
    date-fns, date-fns-tz, [JSON.parse], the [Date] constructor and
    [Date.prototype.toISOString].  [JSValue] is the type of JavaScript values
    [JSON.parse] returns; [get_scheduleDate] reads the property
    [.scheduleDate] of one (it throws on [null]), and [Date_new] is
    [new Date(v)] for the value read. *)
Record Platform : Type := {
  zonedTimeToUtc : string -> string -> Result Date;
  utcToZonedTime : Z -> string -> Result Date;
  format : Date -> string -> Result string;
  addDays : Z -> Z -> Z;
  toISOString : Z -> string;
  JSValue : Type;
  JSON_parse : string -> Result JSValue;
  get_scheduleDate : JSValue -> Result JSValue;
  Date_new : JSValue -> Date
}.

Definition bindR {A B : Type} (r : Result A) (k : A -> Result B) : Result B :=
  match r with
  | inl e => inl e
  | inr a => k a
  end.

Notation "'let?' x ':=' e 'in' k" := (bindR e (fun x => k))
  (at level 10, x name, e at level 100, k at level 200).

(* ================================================================== *)
(** ** comment-handler.js: the time parser *)
(* ================================================================== *)

(** [/@merge-at\s+(\d{4}-\d{2}-\d{2}\s+\d{1,2}:\d{2}(?:\s*(?:AM|PM|am|pm))?)\s*([\w\/]+)?/] *)
Definition COMMAND_REGEX : regex :=
  lit "@merge-at" ;;; plus space ;;;
  Grp 1 (times 4 digit ;;; chr "-" ;;; times 2 digit ;;; chr "-" ;;; times 2 digit ;;;
         plus space ;;; digit ;;; opt digit ;;; chr ":" ;;; times 2 digit ;;;
         opt (Star space ;;; Alt (lit "AM") (Alt (lit "PM") (Alt (lit "am") (lit "pm"))))) ;;;
  Star space ;;;
  opt (Grp 2 (plus (Cls (fun c => is_word c || Ascii.eqb c "/")))).

Definition CANCEL_COMMAND : string := "@merge-at cancel".

(** [/^(\d{1,2}):(\d{2})(AM|PM)?$/i] *)
Definition TIME_REGEX : regex :=
  Bol ;;; Grp 1 (digit ;;; opt digit) ;;; chr_i ":" ;;; Grp 2 (times 2 digit) ;;;
  opt (Grp 3 (Alt (lit_i "AM") (lit_i "PM"))) ;;; Eol.

(** A group that takes part in every match of its pattern. *)
Definition group_of (n : nat) (c : captures) : string :=
  match group n c with Some v => v | None => EmptyString end.

Section Parser.

Variable P : Platform.

(** The first part of the [try] block of [validateScheduleTime], down to the
    check [isValid(date)]: the instant the text and the time zone denote. *)
Definition resolveInstant (dateStr timezone : string) : Result Z :=
  let parsedDate := trim dateStr in
  (* Split into date and time parts *)
  let parts := split_ws parsedDate in
  let datePart := hd EmptyString parts in
  let timeParts := tl parts in
  let timeWithMeridiem := join " " timeParts in
  if (datePart =? EmptyString)%string || (timeWithMeridiem =? EmptyString)%string then
    inl (new_Error "Date and time must be provided")
  else
    (* Remove any spaces and parse time components *)
    let timeStr := toUpperCase (remove_spaces timeWithMeridiem) in
    match exec TIME_REGEX timeStr with
    | None => inl (new_Error "Invalid time format")
    | Some timeMatch =>
        let hours := group_of 1 timeMatch in
        let minutes := group_of 2 timeMatch in
        let parsedHours := parseInt hours in
        let parsedMinutes := parseInt minutes in
        let? date :=
          match group 3 timeMatch with
          | Some meridiem =>
              (* 12-hour format validation *)
              if (parsedHours <? 1) || (parsedHours >? 12)
                 || (parsedMinutes <? 0) || (parsedMinutes >? 59)
              then inl (new_Error "Invalid time format")
              else
                let isPM := (toUpperCase meridiem =? "PM")%string in
                let hour24 :=
                  if isPM && negb (parsedHours =? 12) then parsedHours + 12
                  else if negb isPM && (parsedHours =? 12) then 0
                  else parsedHours in
                let time24 := padStart0 2 (toString hour24) ++ ":" ++ padStart0 2 minutes in
                zonedTimeToUtc P (datePart ++ " " ++ time24) timezone
          | None =>
              (* 24-hour format validation *)
              if (parsedHours <? 0) || (parsedHours >? 23)
                 || (parsedMinutes <? 0) || (parsedMinutes >? 59)
              then inl (new_Error "Invalid time format")
              else
                zonedTimeToUtc P
                  (datePart ++ " " ++ padStart0 2 hours ++ ":" ++ padStart0 2 minutes)
                  timezone
          end in
        match date with
        | None => inl (new_Error "Invalid date format")
        | Some t => inr t
        end
    end.

(** The [try] block of [validateScheduleTime]: the instant is resolved and
    then held against the clock; [now] is the value [new Date()] reads. *)
Definition validateScheduleTime_try (now : Z) (dateStr timezone : string) : Result Z :=
  let? date := resolveInstant dateStr timezone in
  if date <=? now then inl (new_Error "Scheduled time must be in the future")
  else
    let maxDate := addDays P now 30 in
    if date >? maxDate then inl (new_Error "Cannot schedule more than 30 days in advance")
    else inr date.

(** [validateScheduleTime]: whatever the [try] block throws is thrown again
    under the common prefix. *)
Definition validateScheduleTime (now : Z) (dateStr timezone : string) : Result Z :=
  match validateScheduleTime_try now dateStr timezone with
  | inl error => inl (new_Error ("Invalid date/time format: " ++ message error))
  | inr date => inr date
  end.

End Parser.

(* ================================================================== *)
(** ** The Repository Host *)
(* ================================================================== *)

(** A comment as [issues.listComments] returns it. *)
Record Comment : Type := mkComment { comment_id : Z; body : string }.

(** The [repository_url] field of a search result: absent, present with a
    value that is not a string, or a string. *)
Inductive UrlField : Type :=
| UrlMissing
| UrlNotString
| UrlString (url : string).

(** An item of [search.issuesAndPullRequests]. *)
Record Item : Type := mkItem { item_number : Z; repository_url : UrlField }.

(** What [pulls.get] returns; [mergeable] is the truth value of the field
    (a [null] field counts as false). *)
Record PullRequest : Type := mkPull { mergeable : bool; mergeable_state : string }.

(** The calls made to the host, with their arguments. *)
Inductive Call : Type :=
| GetComment (owner repo : string) (comment_id : Z)
| GetCollaboratorPermissionLevel (owner repo username : string)
| CreateComment (owner repo : string) (issue_number : Z) (body : string)
| ListComments (owner repo : string) (issue_number : Z) (per_page : nat)
| AddLabels (owner repo : string) (issue_number : Z) (labels : list string)
| RemoveLabel (owner repo : string) (issue_number : Z) (name : string)
| DeleteComment (owner repo : string) (comment_id : Z)
| SearchIssuesAndPullRequests (q : string) (per_page : nat)
| PullsGet (owner repo : string) (pull_number : Z)
| PullsMerge (owner repo : string) (pull_number : Z) (merge_method : string).

(** A call with its outcome: [None] when it returned, the error when it
    threw. *)
Definition Event : Type := (Call * option Error)%type.

(** The client ([octokit.rest]) over a host whose state has type [W]: every
    operation returns or throws, and may change the host. *)
Record Host (W : Type) : Type := {
  issues_getComment : string -> string -> Z -> W -> Result string * W;
  repos_getCollaboratorPermissionLevel : string -> string -> string -> W -> Result string * W;
  issues_createComment : string -> string -> Z -> string -> W -> Result unit * W;
  issues_listComments : string -> string -> Z -> nat -> W -> Result (list Comment) * W;
  issues_addLabels : string -> string -> Z -> list string -> W -> Result unit * W;
  issues_removeLabel : string -> string -> Z -> string -> W -> Result unit * W;
  issues_deleteComment : string -> string -> Z -> W -> Result unit * W;
  search_issuesAndPullRequests : string -> nat -> W -> Result (list Item) * W;
  pulls_get : string -> string -> Z -> W -> Result PullRequest * W;
  pulls_merge : string -> string -> Z -> string -> W -> Result unit * W
}.

Arguments issues_getComment {W}.
Arguments repos_getCollaboratorPermissionLevel {W}.
Arguments issues_createComment {W}.
Arguments issues_listComments {W}.
Arguments issues_addLabels {W}.
Arguments issues_removeLabel {W}.
Arguments issues_deleteComment {W}.
Arguments search_issuesAndPullRequests {W}.
Arguments pulls_get {W}.
Arguments pulls_merge {W}.

(** [github.getOctokit(token)], which the sources call with the token alone.
    The function is the library's ([@actions/github]): it builds the options
    of the client from the token, which throws when no token is given, and
    makes no request.  The client it returns is the host [H] of the
    sections below. *)
Definition getOctokit (token : string) : Result unit :=
  if (token =? EmptyString)%string
  then inl (new_Error "Parameter token or opts.auth is required")
  else inr tt.

(** *** The monad of host computations *)

(** An [async] function over the host: from a host state it yields its
    outcome, the new host state and the calls it made, in order. *)
Definition M (W A : Type) : Type := W -> Result A * W * list Event.

Definition ret {W A : Type} (a : A) : M W A := fun w => (inr a, w, []).

(** [throw e] *)
Definition throw {W A : Type} (e : Error) : M W A := fun w => (inl e, w, []).

Definition bind {W A B : Type} (m : M W A) (k : A -> M W B) : M W B :=
  fun w =>
    match m w with
    | (inl e, w1, l1) => (inl e, w1, l1)
    | (inr a, w1, l1) =>
        match k a w1 with
        | (r, w2, l2) => (r, w2, (l1 ++ l2)%list)
        end
    end.

(** [try { m } catch (error) { handler error }] *)
Definition tryCatch {W A : Type} (m : M W A) (handler : Error -> M W A) : M W A :=
  fun w =>
    match m w with
    | (inl e, w1, l1) =>
        match handler e w1 with
        | (r, w2, l2) => (r, w2, (l1 ++ l2)%list)
        end
    | (inr a, w1, l1) => (inr a, w1, l1)
    end.

(** A result of pure code, inside a host computation. *)
Definition lift {W A : Type} (r : Result A) : M W A := fun w => (r, w, []).

(** One call to the host, recorded with its outcome. *)
Definition call {W A : Type} (c : Call) (op : W -> Result A * W) : M W A :=
  fun w =>
    match op w with
    | (inl e, w1) => (inl e, w1, [(c, Some e)])
    | (inr a, w1) => (inr a, w1, [(c, None)])
    end.

Notation "x <- m ;; k" := (bind m (fun x => k))
  (at level 61, m at next level, right associativity).
Notation "m ;; k" := (bind m (fun _ => k))
  (at level 61, right associativity).

(** [for (const x of xs) { body x }] *)
Fixpoint forEach {W X : Type} (xs : list X) (body : X -> M W unit) : M W unit :=
  match xs with
  | [] => ret tt
  | x :: xs' => body x ;; forEach xs' body
  end.

(** A [for ... of] loop whose body updates a local array. *)
Fixpoint forEachAcc {W X S : Type} (xs : list X) (body : X -> S -> M W S) (acc : S) : M W S :=
  match xs with
  | [] => ret acc
  | x :: xs' => acc' <- body x acc ;; forEachAcc xs' body acc'
  end.

(** [try { m } catch (error) { core.error(...); throw error; }]: the handler
    writes to the action's log and throws the error again. *)
Definition rethrow {W A : Type} (m : M W A) : M W A := tryCatch m (fun error => throw error).

Definition outcome {W A : Type} (x : Result A * W * list Event) : Result A := fst (fst x).
Definition final {W A : Type} (x : Result A * W * list Event) : W := snd (fst x).
Definition calls {W A : Type} (x : Result A * W * list Event) : list Event := snd x.

(* ================================================================== *)
(** ** utils.js *)
(* ================================================================== *)

Definition SCHEDULE_LABEL : string := "merge-scheduled".

(** [/MERGE_SCHEDULE_INFO (.+) -->/] *)
Definition MARKER_REGEX : regex :=
  lit "MERGE_SCHEDULE_INFO " ;;; Grp 1 (plus Dot) ;;; lit " -->".

(** An entry of the array [getScheduledPRs] returns; [scheduleTime] is the
    time value of its (valid) [Date]. *)
Record ScheduledPR : Type := mkScheduled {
  pr_owner : string;
  pr_repo : string;
  pr_number : Z;
  scheduleTime : Z
}.

(** [`is:pr is:open label:${SCHEDULE_LABEL}`] *)
Definition SEARCH_QUERY : string := "is:pr is:open label:" ++ SCHEDULE_LABEL.

Definition nl : string := String (ascii_of_nat 10) EmptyString.
Definition dquote : string := String (ascii_of_nat 34) EmptyString.

(** [parts.slice(-2)] *)
Definition slice_last2 (parts : list string) : list string :=
  skipn (List.length parts - 2) parts.

(** [const [owner, repo] = urlParts.slice(-2)]: the owner and the repository
    name [getScheduledPRs] reads off a repository URL. *)
Definition url_owner (url : string) : string :=
  nth 0 (slice_last2 (split_char "/" url)) EmptyString.
Definition url_repo (url : string) : string :=
  nth 1 (slice_last2 (split_char "/" url)) EmptyString.

(** [const [owner, repo] = repository.split('/')] in [handleComment]; a
    piece that is absent is passed on as the empty string. *)
Definition repo_owner (repository : string) : string :=
  nth 0 (split_char "/" repository) EmptyString.
Definition repo_name (repository : string) : string :=
  nth 1 (split_char "/" repository) EmptyString.

(** A comment that carries the schedule marker. *)
Definition is_marker (c : Comment) : bool := includes (body c) "MERGE_SCHEDULE_INFO".

Section Scheduler.

Context {W : Type}.
Variable H : Host W.
Variable P : Platform.

Definition createComment (owner repo : string) (issueNumber : Z) (text : string) : M W unit :=
  rethrow (call (CreateComment owner repo issueNumber text)
                (issues_createComment H owner repo issueNumber text)).

(** [JSON.stringify(scheduleInfo)]: the two fields in the order they are
    written; an ISO instant holds no character that JSON escapes. *)
Definition scheduleInfo_json (scheduleDate : Z) : string :=
  "{" ++ dquote ++ "type" ++ dquote ++ ":" ++ dquote ++ "merge-schedule-info" ++ dquote ++ ","
      ++ dquote ++ "scheduleDate" ++ dquote ++ ":" ++ dquote ++ toISOString P scheduleDate ++ dquote
      ++ "}".

Definition confirmationMessage (scheduleDate : Z) (localTime utcTime timezone : string) : string :=
  "<!-- MERGE_SCHEDULE_INFO " ++ scheduleInfo_json scheduleDate ++ " -->" ++ nl
  ++ nl
  ++ "📅 PR merge scheduled for:" ++ nl
  ++ "• " ++ localTime ++ " " ++ timezone ++ nl
  ++ "• " ++ utcTime ++ " UTC" ++ nl
  ++ nl
  ++ "I'll merge this PR at the scheduled time if it's mergeable." ++ nl
  ++ "To cancel, comment: @merge-at cancel".

Definition storeScheduleInfo (owner repo : string) (prNumber : Z) (scheduleDate : Z)
    (localTime utcTime timezone : string) : M W unit :=
  rethrow (
    call (AddLabels owner repo prNumber [SCHEDULE_LABEL])
         (issues_addLabels H owner repo prNumber [SCHEDULE_LABEL]) ;;
    createComment owner repo prNumber
      (confirmationMessage scheduleDate localTime utcTime timezone)).

Definition removeScheduleInfo (owner repo : string) (prNumber : Z) : M W unit :=
  rethrow (
    tryCatch
      (call (RemoveLabel owner repo prNumber SCHEDULE_LABEL)
            (issues_removeLabel H owner repo prNumber SCHEDULE_LABEL))
      (fun error =>
         (* Ignore if label doesn't exist (404 error) *)
         if negb (has_status error 404) then throw error else ret tt) ;;
    comments <- call (ListComments owner repo prNumber 100)
                     (issues_listComments H owner repo prNumber 100) ;;
    let scheduleComments := filter is_marker comments in
    forEach scheduleComments (fun comment =>
      call (DeleteComment owner repo (comment_id comment))
           (issues_deleteComment H owner repo (comment_id comment)))).

(** The body of the loop of [getScheduledPRs]; [continue] and a caught error
    both leave the array as it is. *)
Definition scanItem (item : Item) (scheduledPRs : list ScheduledPR) : M W (list ScheduledPR) :=
  tryCatch
    (match repository_url item with
     | UrlMissing | UrlNotString => ret scheduledPRs
     | UrlString url =>
         if (url =? EmptyString)%string then ret scheduledPRs
         else
           let urlParts := split_char "/" url in
           if (List.length urlParts <? 2)%nat then ret scheduledPRs
           else
             let owner := url_owner url in
             let repo := url_repo url in
             comments <- call (ListComments owner repo (item_number item) 100)
                              (issues_listComments H owner repo (item_number item) 100) ;;
             match find is_marker comments with
             | Some scheduleComment =>
                 tryCatch
                   (match exec MARKER_REGEX (body scheduleComment) with
                    | Some m =>
                        scheduleInfo <- lift (JSON_parse P (group_of 1 m)) ;;
                        scheduleDate <- lift (get_scheduleDate P scheduleInfo) ;;
                        match Date_new P scheduleDate with
                        | None => ret scheduledPRs
                        | Some t =>
                            ret (scheduledPRs ++
                                 [ {| pr_owner := owner; pr_repo := repo;
                                      pr_number := item_number item;
                                      scheduleTime := t |} ])%list
                        end
                    | None => ret scheduledPRs
                    end)
                   (fun error => ret scheduledPRs)
             | None => ret scheduledPRs
             end
     end)
    (fun error => ret scheduledPRs).

Definition getScheduledPRs : M W (list ScheduledPR) :=
  rethrow (
    let query := SEARCH_QUERY in
    items <- call (SearchIssuesAndPullRequests query 100)
                  (search_issuesAndPullRequests H query 100) ;;
    forEachAcc items scanItem []).

(* ================================================================== *)
(** ** merge-scheduler.js *)
(* ================================================================== *)

Definition mergePR (owner repo : string) (prNumber : Z) : M W unit :=
  tryCatch
    ((* Check if PR is mergeable *)
     tryCatch
       (pr <- call (PullsGet owner repo prNumber) (pulls_get H owner repo prNumber) ;;
        if negb (mergeable pr) then
          let error := new_Error "PR is not mergeable. There might be conflicts." in
          createComment owner repo prNumber ("❌ Failed to merge PR: " ++ message error) ;;
          throw error
        else ret tt)
       (fun error =>
          if has_status error 404 then
            let notFoundError :=
              new_Error "PR not found or you may not have permission to merge." in
            createComment owner repo prNumber
              ("❌ Failed to merge PR: " ++ message notFoundError) ;;
            throw notFoundError
          else throw error) ;;
     (* Attempt to merge *)
     tryCatch
       (call (PullsMerge owner repo prNumber "squash")
             (pulls_merge H owner repo prNumber "squash") ;;
        createComment owner repo prNumber "✅ Successfully merged as scheduled!" ;;
        (* Clean up schedule info after successful merge *)
        removeScheduleInfo owner repo prNumber)
       (fun mergeError =>
          let errorMessage :=
            "Failed to merge PR: " ++
            (if has_status mergeError 405 then
               "PR is not mergeable at this time. Please resolve any conflicts or check branch protection rules."
             else if has_status mergeError 404 then
               "PR not found or you may not have permission to merge."
             else if (message mergeError =? EmptyString)%string then "An unexpected error occurred."
             else message mergeError) in
          createComment owner repo prNumber ("❌ " ++ errorMessage) ;;
          throw (new_Error errorMessage)))
    (fun error =>
       (if negb (includes (message error) "Failed to merge PR") then
          createComment owner repo prNumber ("❌ Failed to merge PR: " ++ message error)
        else ret tt) ;;
       throw error).

(** The body of the loop of [processScheduledMerges] for one candidate. *)
Definition candidate_step (now : Z) (pr : ScheduledPR) : M W unit :=
  tryCatch
    (let scheduleTime := scheduleTime pr in
     if scheduleTime <=? now then
       tryCatch
         (mergePR (pr_owner pr) (pr_repo pr) (pr_number pr))
         (fun mergeError => (* Continue to next PR *) ret tt)
     else ret tt)
    (fun prError => (* Continue to next PR *) ret tt).

(** The loop of [processScheduledMerges] over the listed candidates. *)
Definition processCandidates (now : Z) (scheduledPRs : list ScheduledPR) : M W unit :=
  forEach scheduledPRs (candidate_step now).

(** [processScheduledMerges]; the client is the host [H], and [now] is the
    clock value read after the listing. *)
Definition processScheduledMerges (token : string) (now : Z) : M W unit :=
  rethrow (
    octokit <- lift (getOctokit token) ;;
    scheduledPRs <- getScheduledPRs ;;
    processCandidates now scheduledPRs).

(* ================================================================== *)
(** ** comment-handler.js: the command interpreter *)
(* ================================================================== *)

Definition hasWritePermission (owner repo username : string) : M W bool :=
  tryCatch
    (permission <- call (GetCollaboratorPermissionLevel owner repo username)
                        (repos_getCollaboratorPermissionLevel H owner repo username) ;;
     (* Users need admin or write permission to merge PRs *)
     ret ((permission =? "admin")%string || (permission =? "write")%string))
    (fun error => (* If we can't get permissions, assume no access *) ret false).

(** The [try] statement of [handleComment], with its handler;
    [payload_comment_id] is [github.context.payload.comment.id] and [now]
    the clock value the parser reads. *)
Definition handleComment_try (payload_comment_id : Z) (now : Z)
    (repository : string) (prNumber : Z) (commentBody : string) : M W unit :=
  let owner := repo_owner repository in
  let repo := repo_name repository in
  tryCatch
    ((* Get comment author *)
     commentAuthor <- call (GetComment owner repo payload_comment_id)
                           (issues_getComment H owner repo payload_comment_id) ;;
     (* Check if user has permission to merge PRs *)
     hasPermission <- hasWritePermission owner repo commentAuthor ;;
     if negb hasPermission then
       createComment owner repo prNumber
         "❌ Only users with write permission can schedule PR merges."
     else if includes commentBody CANCEL_COMMAND then
       (* Handle cancellation *)
       removeScheduleInfo owner repo prNumber ;;
       createComment owner repo prNumber "🚫 Scheduled merge has been cancelled."
     else
       (* Parse command *)
       match exec COMMAND_REGEX commentBody with
       | None =>
           createComment owner repo prNumber
             "❌ Invalid command format. Please use: @merge-at YYYY-MM-DD HH:mm[am|pm] [timezone]"
       | Some m =>
           let dateTimeStr := group_of 1 m in
           let timezone := match group 2 m with Some tz => tz | None => "UTC" end in
           tryCatch
             (scheduleDate <- lift (validateScheduleTime P now dateTimeStr timezone) ;;
              (* Format times for the message *)
              localTime <- lift (let? zoned := utcToZonedTime P scheduleDate timezone in
                                 format P zoned "yyyy-MM-dd hh:mm a") ;;
              utcTime <- lift (format P (Some scheduleDate) "yyyy-MM-dd HH:mm") ;;
              (* Remove any existing schedule *)
              removeScheduleInfo owner repo prNumber ;;
              (* Store schedule info and create the comment *)
              storeScheduleInfo owner repo prNumber scheduleDate localTime utcTime timezone)
             (fun error => createComment owner repo prNumber ("❌ " ++ message error))
       end)
    (fun error =>
       createComment owner repo prNumber
         "❌ An error occurred while processing your command. Please try again.").

(** [handleComment]: the client is built first, outside the [try]
    statement; the client is the host [H]. *)
Definition handleComment (token : string) (payload_comment_id : Z) (now : Z)
    (repository : string) (prNumber : Z) (commentBody : string) : M W unit :=
  octokit <- lift (getOctokit token) ;;
  handleComment_try payload_comment_id now repository prNumber commentBody.

End Scheduler.

(* ================================================================== *)
(** ** A reference platform and a reference host *)
(* ================================================================== *)

(** A small platform on which the scheduler can be run: the proleptic
    Gregorian calendar, and two time zones with a constant offset from UTC.
    It serves the examples; the properties of the scheduler are stated for
    every platform. *)
Module SamplePlatform.

Definition MS_PER_MINUTE : Z := 60000.
Definition MS_PER_DAY : Z := 86400000.

Definition days_from_civil (y m d : Z) : Z :=
  let y' := if m <=? 2 then y - 1 else y in
  let era := y' / 400 in
  let yoe := y' - era * 400 in
  let doy := (153 * (if m >? 2 then m - 3 else m + 9) + 2) / 5 + d - 1 in
  let doe := yoe * 365 + yoe / 4 - yoe / 100 + doy in
  era * 146097 + doe - 719468.

Definition civil_from_days (z : Z) : Z * Z * Z :=
  let z' := z + 719468 in
  let era := z' / 146097 in
  let doe := z' - era * 146097 in
  let yoe := (doe - doe / 1460 + doe / 36524 - doe / 146096) / 365 in
  let doy := doe - (365 * yoe + yoe / 4 - yoe / 100) in
  let mp := (5 * doy + 2) / 153 in
  let d := doy - (153 * mp + 2) / 5 + 1 in
  let m := if mp <? 10 then mp + 3 else mp - 9 in
  ((yoe + era * 400) + (if m <=? 2 then 1 else 0), m, d).

Definition is_leap (y : Z) : bool :=
  ((y mod 4 =? 0) && negb (y mod 100 =? 0)) || (y mod 400 =? 0).

Definition days_in_month (y m : Z) : Z :=
  if m =? 2 then (if is_leap y then 29 else 28)
  else if (m =? 4) || (m =? 6) || (m =? 9) || (m =? 11) then 30
  else 31.

(** The time value of a civil date and time of day, when they exist. *)
Definition time_value (y m d hh mm ss ms : Z) : Date :=
  if (1 <=? m) && (m <=? 12) && (1 <=? d) && (d <=? days_in_month y m)
     && (hh <=? 23) && (mm <=? 59) && (ss <=? 59)
  then Some (days_from_civil y m d * MS_PER_DAY + hh * 3600000 + mm * MS_PER_MINUTE
             + ss * 1000 + ms)
  else None.

(** Offset from UTC, in minutes, of the zones the platform knows. *)
Definition zone_offset (timezone : string) : option Z :=
  if (timezone =? "UTC")%string then Some 0
  else if (timezone =? "America/New_York")%string then Some (-300)
  else None.

(** [YYYY-MM-DD HH:MM] *)
Definition LOCAL_REGEX : regex :=
  Bol ;;; Grp 1 (times 4 digit) ;;; chr "-" ;;; Grp 2 (times 2 digit) ;;; chr "-" ;;;
  Grp 3 (times 2 digit) ;;; chr " " ;;; Grp 4 (times 2 digit) ;;; chr ":" ;;;
  Grp 5 (times 2 digit) ;;; Eol.

(** [YYYY-MM-DDTHH:MM:SS.mmmZ] *)
Definition ISO_REGEX : regex :=
  Bol ;;; Grp 1 (times 4 digit) ;;; chr "-" ;;; Grp 2 (times 2 digit) ;;; chr "-" ;;;
  Grp 3 (times 2 digit) ;;; chr "T" ;;; Grp 4 (times 2 digit) ;;; chr ":" ;;;
  Grp 5 (times 2 digit) ;;; chr ":" ;;; Grp 6 (times 2 digit) ;;; chr "." ;;;
  Grp 7 (times 3 digit) ;;; chr "Z" ;;; Eol.

Definition field (n : nat) (c : captures) : Z := parseInt (group_of n c).

Definition sample_zonedTimeToUtc (text timezone : string) : Result Date :=
  match exec LOCAL_REGEX text, zone_offset timezone with
  | Some c, Some offset =>
      match time_value (field 1 c) (field 2 c) (field 3 c) (field 4 c) (field 5 c) 0 0 with
      | Some t => inr (Some (t - offset * MS_PER_MINUTE))
      | None => inr None
      end
  | _, _ => inr None
  end.

Definition sample_utcToZonedTime (t : Z) (timezone : string) : Result Date :=
  match zone_offset timezone with
  | Some offset => inr (Some (t + offset * MS_PER_MINUTE))
  | None => inr None
  end.

Definition pad (n : nat) (v : Z) : string := padStart0 n (toString v).

Definition ymd (t : Z) : string :=
  let '(y, m, d) := civil_from_days (t / MS_PER_DAY) in
  pad 4 y ++ "-" ++ pad 2 m ++ "-" ++ pad 2 d.

Definition hour_of (t : Z) : Z := (t mod MS_PER_DAY) / 3600000.
Definition minute_of (t : Z) : Z := (t mod 3600000) / MS_PER_MINUTE.

(** The two patterns the sources use; a pattern is printed in 12-hour form
    when it ends in the marker [a]. *)
Definition sample_format (d : Date) (pattern : string) : Result string :=
  match d with
  | None => inl (new_Error "Invalid time value")
  | Some t =>
      if (pattern =? "yyyy-MM-dd hh:mm a")%string then
        let h := hour_of t in
        let h12 := if h mod 12 =? 0 then 12 else h mod 12 in
        inr (ymd t ++ " " ++ pad 2 h12 ++ ":" ++ pad 2 (minute_of t) ++ " "
             ++ (if h <? 12 then "AM" else "PM"))
      else
        inr (ymd t ++ " " ++ pad 2 (hour_of t) ++ ":" ++ pad 2 (minute_of t))
  end.

Definition sample_toISOString (t : Z) : string :=
  ymd t ++ "T" ++ pad 2 (hour_of t) ++ ":" ++ pad 2 (minute_of t) ++ ":"
  ++ pad 2 ((t mod MS_PER_MINUTE) / 1000) ++ "." ++ pad 3 (t mod 1000) ++ "Z".

(** The values of the payloads the examples parse. *)
Inductive Value : Type :=
| VUndefined
| VNull
| VString (s : string)
| VSchedule (scheduleDate : string).   (* an object with the two fields of the marker *)

Definition PAYLOAD_REGEX : regex :=
  Bol ;;; lit ("{" ++ dquote ++ "type" ++ dquote ++ ":" ++ dquote ++ "merge-schedule-info"
               ++ dquote ++ "," ++ dquote ++ "scheduleDate" ++ dquote ++ ":" ++ dquote) ;;;
  Grp 1 (Star (Cls (fun c => negb (Ascii.eqb c (ascii_of_nat 34))))) ;;;
  lit (dquote ++ "}") ;;; Eol.

Definition sample_JSON_parse (text : string) : Result Value :=
  match exec PAYLOAD_REGEX text with
  | Some c => inr (VSchedule (group_of 1 c))
  | None =>
      if (text =? "null")%string then inr VNull
      else inl (new_Error "Unexpected token in JSON")
  end.

Definition sample_get_scheduleDate (v : Value) : Result Value :=
  match v with
  | VSchedule d => inr (VString d)
  | VNull | VUndefined => inl (new_Error "Cannot read properties of null")
  | VString _ => inr VUndefined
  end.

Definition sample_Date_new (v : Value) : Date :=
  match v with
  | VString s =>
      match exec ISO_REGEX s with
      | Some c => time_value (field 1 c) (field 2 c) (field 3 c) (field 4 c) (field 5 c)
                             (field 6 c) (field 7 c)
      | None => None
      end
  | _ => None
  end.

Definition platform : Platform := {|
  zonedTimeToUtc := sample_zonedTimeToUtc;
  utcToZonedTime := sample_utcToZonedTime;
  format := sample_format;
  addDays := fun t n => t + n * MS_PER_DAY;
  toISOString := sample_toISOString;
  JSValue := Value;
  JSON_parse := sample_JSON_parse;
  get_scheduleDate := sample_get_scheduleDate;
  Date_new := sample_Date_new
|}.

(** 2024-01-01T12:00:00Z, the clock of the test suite. *)
Definition NOW : Z := 1704110400000.

End SamplePlatform.

(** A model of the host: comments, labels, collaborators and pull requests
    of any number of repositories, with the behaviour the sources rely on
    (page size of a listing, 404 for what does not exist, 405 for a merge
    that is refused).  Comments and labels are accepted on every issue
    number. *)
Module GitHub.

Record GComment : Type := mkGComment {
  gc_id : Z;
  gc_owner : string;
  gc_repo : string;
  gc_issue : Z;
  gc_user : string;
  gc_body : string
}.

Record GLabel : Type := mkGLabel {
  gl_owner : string;
  gl_repo : string;
  gl_issue : Z;
  gl_name : string
}.

Record GCollaborator : Type := mkGCollaborator {
  co_owner : string;
  co_repo : string;
  co_user : string;
  co_permission : string
}.

Record GPull : Type := mkGPull {
  gp_owner : string;
  gp_repo : string;
  gp_number : Z;
  gp_open : bool;
  gp_mergeable : bool
}.

Record State : Type := mkState {
  st_comments : list GComment;       (* oldest first *)
  st_labels : list GLabel;
  st_collaborators : list GCollaborator;
  st_pulls : list GPull;
  st_next_id : Z
}.

Definition not_found {A : Type} : Result A :=
  inl {| message := "Not Found"; status := Some 404 |}.

Definition on_issue (owner repo : string) (issue : Z) (c : GComment) : bool :=
  (gc_owner c =? owner)%string && (gc_repo c =? repo)%string && (gc_issue c =? issue).

Definition has_id (owner repo : string) (id : Z) (c : GComment) : bool :=
  (gc_owner c =? owner)%string && (gc_repo c =? repo)%string && (gc_id c =? id).

Definition is_label (owner repo : string) (issue : Z) (name : string) (l : GLabel) : bool :=
  (gl_owner l =? owner)%string && (gl_repo l =? repo)%string && (gl_issue l =? issue)
  && (gl_name l =? name)%string.

Definition is_pull (owner repo : string) (number : Z) (p : GPull) : bool :=
  (gp_owner p =? owner)%string && (gp_repo p =? repo)%string && (gp_number p =? number).

Definition view (c : GComment) : Comment := {| comment_id := gc_id c; body := gc_body c |}.

(** The comments of an issue, oldest first. *)
Definition issue_comments (st : State) (owner repo : string) (issue : Z) : list GComment :=
  filter (on_issue owner repo issue) (st_comments st).

Definition with_comments (st : State) (cs : list GComment) : State :=
  {| st_comments := cs; st_labels := st_labels st;
     st_collaborators := st_collaborators st; st_pulls := st_pulls st;
     st_next_id := st_next_id st |}.

Definition with_labels (st : State) (ls : list GLabel) : State :=
  {| st_comments := st_comments st; st_labels := ls;
     st_collaborators := st_collaborators st; st_pulls := st_pulls st;
     st_next_id := st_next_id st |}.

Definition getComment (owner repo : string) (id : Z) (st : State) : Result string * State :=
  match find (has_id owner repo id) (st_comments st) with
  | Some c => (inr (gc_user c), st)
  | None => (not_found, st)
  end.

Definition getCollaboratorPermissionLevel (owner repo username : string) (st : State)
    : Result string * State :=
  match find (fun c => (co_owner c =? owner)%string && (co_repo c =? repo)%string
                       && (co_user c =? username)%string) (st_collaborators st) with
  | Some c => (inr (co_permission c), st)
  | None => (not_found, st)
  end.

Definition BOT : string := "github-actions[bot]".

Definition createComment (owner repo : string) (issue : Z) (text : string) (st : State)
    : Result unit * State :=
  (inr tt,
   {| st_comments := st_comments st ++
        [ {| gc_id := st_next_id st; gc_owner := owner; gc_repo := repo; gc_issue := issue;
             gc_user := BOT; gc_body := text |} ];
      st_labels := st_labels st;
      st_collaborators := st_collaborators st; st_pulls := st_pulls st;
      st_next_id := st_next_id st + 1 |}).

(** The first page of the comments of the issue. *)
Definition listComments (owner repo : string) (issue : Z) (per_page : nat) (st : State)
    : Result (list Comment) * State :=
  (inr (map view (firstn per_page (issue_comments st owner repo issue))), st).

Definition add_label (owner repo : string) (issue : Z) (ls : list GLabel) (name : string)
    : list GLabel :=
  if existsb (is_label owner repo issue name) ls then ls
  else ls ++ [ {| gl_owner := owner; gl_repo := repo; gl_issue := issue; gl_name := name |} ].

Definition addLabels (owner repo : string) (issue : Z) (names : list string) (st : State)
    : Result unit * State :=
  (inr tt, with_labels st (fold_left (add_label owner repo issue) names (st_labels st))).

Definition removeLabel (owner repo : string) (issue : Z) (name : string) (st : State)
    : Result unit * State :=
  if existsb (is_label owner repo issue name) (st_labels st)
  then (inr tt, with_labels st
                  (filter (fun l => negb (is_label owner repo issue name l)) (st_labels st)))
  else (inl {| message := "Label does not exist"; status := Some 404 |}, st).

Definition deleteComment (owner repo : string) (id : Z) (st : State) : Result unit * State :=
  if existsb (has_id owner repo id) (st_comments st)
  then (inr tt, with_comments st (filter (fun c => negb (has_id owner repo id c)) (st_comments st)))
  else (not_found, st).

Definition has_label (st : State) (name : string) (p : GPull) : bool :=
  existsb (is_label (gp_owner p) (gp_repo p) (gp_number p) name) (st_labels st).

Definition item_of (p : GPull) : Item :=
  {| item_number := gp_number p;
     repository_url :=
       UrlString ("https://api.github.com/repos/" ++ gp_owner p ++ "/" ++ gp_repo p) |}.

(** The search the scheduler issues: the open pull requests that carry the
    schedule label; any other query finds nothing. *)
Definition search (q : string) (per_page : nat) (st : State) : Result (list Item) * State :=
  if (q =? SEARCH_QUERY)%string
  then (inr (map item_of (firstn per_page
               (filter (fun p => gp_open p && has_label st SCHEDULE_LABEL p) (st_pulls st)))), st)
  else (inr [], st).

Definition pullsGet (owner repo : string) (number : Z) (st : State)
    : Result PullRequest * State :=
  match find (is_pull owner repo number) (st_pulls st) with
  | Some p => (inr {| mergeable := gp_mergeable p;
                      mergeable_state := if gp_mergeable p then "clean" else "dirty" |}, st)
  | None => (not_found, st)
  end.

Definition close_pull (owner repo : string) (number : Z) (p : GPull) : GPull :=
  if is_pull owner repo number p
  then {| gp_owner := gp_owner p; gp_repo := gp_repo p; gp_number := gp_number p;
          gp_open := false; gp_mergeable := false |}
  else p.

Definition pullsMerge (owner repo : string) (number : Z) (method : string) (st : State)
    : Result unit * State :=
  match find (is_pull owner repo number) (st_pulls st) with
  | Some p =>
      if gp_open p && gp_mergeable p
      then (inr tt,
            {| st_comments := st_comments st; st_labels := st_labels st;
               st_collaborators := st_collaborators st;
               st_pulls := map (close_pull owner repo number) (st_pulls st);
               st_next_id := st_next_id st |})
      else (inl {| message := "Pull Request is not mergeable"; status := Some 405 |}, st)
  | None => (not_found, st)
  end.

Definition host : Host State := {|
  issues_getComment := getComment;
  repos_getCollaboratorPermissionLevel := getCollaboratorPermissionLevel;
  issues_createComment := createComment;
  issues_listComments := listComments;
  issues_addLabels := addLabels;
  issues_removeLabel := removeLabel;
  issues_deleteComment := deleteComment;
  search_issuesAndPullRequests := search;
  pulls_get := pullsGet;
  pulls_merge := pullsMerge
|}.

(** The marker comments of a pull request and its schedule labels. *)
Definition marker_comments (st : State) (owner repo : string) (number : Z) : list GComment :=
  filter (fun c => is_marker (view c)) (issue_comments st owner repo number).

Definition schedule_labels (st : State) (owner repo : string) (number : Z) : list GLabel :=
  filter (is_label owner repo number SCHEDULE_LABEL) (st_labels st).

End GitHub.

(** A host that cannot be reached: every call throws. *)
Module Unreachable.

Definition error : Error := {| message := "connect ECONNREFUSED"; status := None |}.

Definition host : Host unit := {|
  issues_getComment := fun _ _ _ w => (inl error, w);
  repos_getCollaboratorPermissionLevel := fun _ _ _ w => (inl error, w);
  issues_createComment := fun _ _ _ _ w => (inl error, w);
  issues_listComments := fun _ _ _ _ w => (inl error, w);
  issues_addLabels := fun _ _ _ _ w => (inl error, w);
  issues_removeLabel := fun _ _ _ _ w => (inl error, w);
  issues_deleteComment := fun _ _ _ w => (inl error, w);
  search_issuesAndPullRequests := fun _ _ w => (inl error, w);
  pulls_get := fun _ _ _ w => (inl error, w);
  pulls_merge := fun _ _ _ _ w => (inl error, w)
|}.

End Unreachable.

(* ================================================================== *)
(** ** The vocabulary of the properties *)
(* ================================================================== *)

(** *** The command surface *)

(** A text without white space: at none of its bytes a white space
    character starts. *)
Fixpoint no_space (s : string) : bool :=
  match s with
  | EmptyString => true
  | String _ s' => (space_width s =? 0)%nat && no_space s'
  end.

(** UTF-8 in the two tables: every entry starts with a byte that starts a
    character and goes on with bytes that continue it. *)
Fixpoint all_continuation (s : string) : bool :=
  match s with
  | EmptyString => true
  | String c s' => is_continuation c && all_continuation s'
  end.

Definition well_formed (w : string) : bool :=
  match w with
  | EmptyString => false
  | String a w' => negb (is_continuation a) && all_continuation w'
  end.

(** A byte with which a white space character starts. *)
Definition space_lead (c : ascii) : bool :=
  existsb (fun w => startsWith w (String c EmptyString)) WHITE_SPACE.

(** A byte that is a character of its own and no white space: the digits,
    the letters and the punctuation of the ASCII range are such bytes. *)
Definition plain (c : ascii) : bool := (code c <? 128)%nat && negb (space_lead c).

Fixpoint all_plain (s : string) : bool :=
  match s with
  | EmptyString => true
  | String c s' => plain c && all_plain s'
  end.

Fixpoint all_digits (s : string) : bool :=
  match s with
  | EmptyString => true
  | String c s' => is_digit c && all_digits s'
  end.

(** The lexical classes of the command surface. *)
Definition is_token (d : string) : bool := negb (d =? EmptyString)%string && no_space d.
Definition is_gap (g : string) : bool := negb (g =? EmptyString)%string && all_space g.
Definition is_hour_text (hs : string) : bool :=
  all_digits hs && ((String.length hs =? 1)%nat || (String.length hs =? 2)%nat).
Definition is_minute_text (ms : string) : bool :=
  all_digits ms && (String.length ms =? 2)%nat.
Definition is_meridiem_text (mt : string) : bool :=
  (toUpperCase mt =? "AM")%string || (toUpperCase mt =? "PM")%string.
Definition is_pm (mt : string) : bool := (toUpperCase mt =? "PM")%string.

(** The conversion of a 12-hour clock reading: 12 AM is 0, 12 PM stays 12,
    every other PM hour has 12 added, the AM hours 1 to 11 stay. *)
Definition to24 (hour : Z) (pm : bool) : Z :=
  if pm then (if hour =? 12 then 12 else hour + 12)
  else (if hour =? 12 then 0 else hour).

(** [HH:MM] for an hour and the text of the minutes. *)
Definition time24 (hour : Z) (ms : string) : string :=
  padStart0 2 (toString hour) ++ ":" ++ ms.

(** What [validateScheduleTime] makes of the date [zonedTimeToUtc] returns. *)
Definition checkedDate (r : Result Date) : Result Z :=
  let? date := r in
  match date with
  | None => inl (new_Error "Invalid date format")
  | Some t => inr t
  end.

(** The prefix under which [validateScheduleTime] reports every failure. *)
Definition PREFIX : string := "Invalid date/time format: ".

(** [addDays] does not go back in time. *)
Definition addDays_forward (P : Platform) : Prop :=
  forall t n, 0 <= n -> t <= addDays P t n.

(** *** Observations on a run *)

(** The pull request a call asks the host about when it is [pulls.get]:
    [mergePR] starts with this call, and nothing else makes it, so these
    calls are the merge attempts of a run. *)
Definition attempt_of (e : Event) : list (string * string * Z) :=
  match fst e with
  | PullsGet owner repo number => [(owner, repo, number)]
  | _ => []
  end.

Definition attempts (l : list Event) : list (string * string * Z) := flat_map attempt_of l.

(** The comments a run posted: the bodies of its [issues.createComment]
    calls that returned. *)
Definition post_of (e : Event) : list string :=
  match e with
  | (CreateComment _ _ _ text, None) => [text]
  | _ => []
  end.

Definition posts (l : list Event) : list string := flat_map post_of l.

Definition candidate_key (pr : ScheduledPR) : string * string * Z :=
  (pr_owner pr, pr_repo pr, pr_number pr).

(** A candidate is due when its instant is not after the clock. *)
Definition due (now : Z) (pr : ScheduledPR) : bool := scheduleTime pr <=? now.

(** A computation whose merge attempts are [xs] whatever the host does. *)
Definition emits {W A : Type} (m : M W A) (xs : list (string * string * Z)) : Prop :=
  forall w, attempts (calls (m w)) = xs.

(** A computation that attempts no merge. *)
Definition quiet {W A : Type} (m : M W A) : Prop := emits m [].


Section Discovery.

Context {W : Type}.
Variable H : Host W.
Variable P : Platform.



End Discovery.

(** The comment of the outermost handler of [handleComment]. *)
Definition GENERIC_FAILURE : string :=
  "❌ An error occurred while processing your command. Please try again.".

(** The two comments of the mergeability stage of [mergePR]. *)
Definition NOT_MERGEABLE : string := "PR is not mergeable. There might be conflicts.".
Definition NOT_FOUND : string := "PR not found or you may not have permission to merge.".

(** What [mergePR] reports when the merge operation itself fails. *)
Definition merge_failure_detail (mergeError : Error) : string :=
  if has_status mergeError 405 then
    "PR is not mergeable at this time. Please resolve any conflicts or check branch protection rules."
  else if has_status mergeError 404 then
    "PR not found or you may not have permission to merge."
  else if (message mergeError =? EmptyString)%string then "An unexpected error occurred."
  else message mergeError.

(** A host that accepts every comment the scheduler posts. *)
Definition posts_accepted {W : Type} (H : Host W) : Prop :=
  forall owner repo number text w,
    fst (issues_createComment H owner repo number text w) = inr tt.

(** A run that ends with a comment accepted on the issue. *)
Definition ends_with_post (owner repo : string) (number : Z) (l : list Event) : Prop :=
  exists l' text, l = (l' ++ [(CreateComment owner repo number text, None)])%list.

(** A computation whose normal runs end with a comment accepted on the
    issue. *)
Definition posting {W : Type} (owner repo : string) (n : Z) {A : Type} (m : M W A) : Prop :=
  forall w, match m w with
            | (inr _, _, l) => ends_with_post owner repo n l
            | (inl _, _, _) => True
            end.

(** *** The schedule state of a pull request on the model host *)

Fixpoint distinct (l : list Z) : bool :=
  match l with
  | [] => true
  | x :: rest => negb (existsb (Z.eqb x) rest) && distinct rest
  end.

(** Comment identifiers are unique on the host. *)
Definition unique_ids (st : GitHub.State) : bool :=
  distinct (map GitHub.gc_id (GitHub.st_comments st)).

(** The comment that carries the command exists, and its author has the
    permission [admin] or [write] on the repository. *)
Definition can_schedule (st : GitHub.State) (owner repo : string) (cid : Z) : bool :=
  match GitHub.getComment owner repo cid st with
  | (inr author, _) =>
      match GitHub.getCollaboratorPermissionLevel owner repo author st with
      | (inr permission, _) => (permission =? "admin")%string || (permission =? "write")%string
      | (inl _, _) => false
      end
  | (inl _, _) => false
  end.

(** The instant a comment schedules: the text is not a cancellation, it
    matches [COMMAND_REGEX], the parser accepts its date and time, and the
    two display strings can be formatted. *)
Definition scheduled_instant (P : Platform) (now : Z) (text : string) : option Z :=
  if includes text CANCEL_COMMAND then None
  else
    match exec COMMAND_REGEX text with
    | None => None
    | Some m =>
        let timezone := match group 2 m with Some tz => tz | None => "UTC" end in
        match validateScheduleTime P now (group_of 1 m) timezone with
        | inl _ => None
        | inr t =>
            match (let? zoned := utcToZonedTime P t timezone in
                   format P zoned "yyyy-MM-dd hh:mm a"),
                  format P (Some t) "yyyy-MM-dd HH:mm" with
            | inr _, inr _ => Some t
            | _, _ => None
            end
        end
    end.

(** Every marker comment of the pull request is on the first page of its
    comments, the page of 100 that the scheduler lists. *)
Definition markers_on_first_page (st : GitHub.State) (owner repo : string) (n : Z) : bool :=
  forallb (fun c => negb (is_marker (GitHub.view c)))
          (skipn 100 (GitHub.issue_comments st owner repo n)).

(** The comments [removeScheduleInfo] deletes: the markers on the first
    page of the pull request. *)
Definition listed_markers (st : GitHub.State) (owner repo : string) (n : Z) : list Comment :=
  filter is_marker (map GitHub.view (firstn 100 (GitHub.issue_comments st owner repo n))).

Definition targets (L : list Comment) (owner repo : string) (g : GitHub.GComment) : bool :=
  existsb (fun c => GitHub.has_id owner repo (comment_id c) g) L.

(** The host after [removeScheduleInfo]. *)
Definition cleared (st : GitHub.State) (owner repo : string) (n : Z) : GitHub.State :=
  {| GitHub.st_comments :=
       filter (fun g => negb (targets (listed_markers st owner repo n) owner repo g))
              (GitHub.st_comments st);
     GitHub.st_labels :=
       filter (fun l => negb (GitHub.is_label owner repo n SCHEDULE_LABEL l))
              (GitHub.st_labels st);
     GitHub.st_collaborators := GitHub.st_collaborators st;
     GitHub.st_pulls := GitHub.st_pulls st;
     GitHub.st_next_id := GitHub.st_next_id st |}.

(** The host after [storeScheduleInfo]. *)
Definition stored (st : GitHub.State) (owner repo : string) (n : Z) (text : string)
    : GitHub.State :=
  snd (GitHub.createComment owner repo n text
         (GitHub.with_labels st
            (GitHub.add_label owner repo n (GitHub.st_labels st) SCHEDULE_LABEL))).

(* ================================================================== *)
(** ** Scenarios *)
(* ================================================================== *)

(** A host that answers from a script, as the mocks of the test suite do:
    the search returns [items], the comments of issue [n] are [comments n],
    and every other call returns. *)
Module Scripted.

Definition host (items : list Item) (comments : Z -> Result (list Comment)) : Host unit := {|
  issues_getComment := fun _ _ _ w => (inr "testuser", w);
  repos_getCollaboratorPermissionLevel := fun _ _ _ w => (inr "write", w);
  issues_createComment := fun _ _ _ _ w => (inr tt, w);
  issues_listComments := fun _ _ n _ w => (comments n, w);
  issues_addLabels := fun _ _ _ _ w => (inr tt, w);
  issues_removeLabel := fun _ _ _ _ w => (inr tt, w);
  issues_deleteComment := fun _ _ _ w => (inr tt, w);
  search_issuesAndPullRequests := fun _ _ w => (inr items, w);
  pulls_get := fun _ _ _ w => (inr {| mergeable := true; mergeable_state := "clean" |}, w);
  pulls_merge := fun _ _ _ _ w => (inr tt, w)
|}.

End Scripted.

Module Scenario.

Import SamplePlatform.

Definition HOUR : Z := 3600000.

(** The token of the examples. *)
Definition TOKEN : string := "token".

(** A marker comment body for the instant [t]. *)
Definition marker (t : Z) : string :=
  match sample_format (Some t) "yyyy-MM-dd hh:mm a", sample_format (Some t) "yyyy-MM-dd HH:mm" with
  | inr localTime, inr utcTime => confirmationMessage platform t localTime utcTime "UTC"
  | _, _ => EmptyString
  end.

Definition on_widgets (issue id : Z) (user text : string) : GitHub.GComment :=
  GitHub.mkGComment id "acme" "widgets" issue user text.

Definition scheduled (issue : Z) : GitHub.GLabel :=
  GitHub.mkGLabel "acme" "widgets" issue SCHEDULE_LABEL.

Definition collaborators : list GitHub.GCollaborator :=
  [GitHub.mkGCollaborator "acme" "widgets" "alice" "write";
   GitHub.mkGCollaborator "acme" "widgets" "bob" "read"].

(** Pull request 7 is scheduled an hour before [NOW] and pull request 8 an
    hour after it; 8 has conflicts. *)
Definition two_scheduled : GitHub.State :=
  GitHub.mkState
    [on_widgets 7 1 "alice" "@merge-at 2024-01-01 11:00";
     on_widgets 7 2 GitHub.BOT (marker (NOW - HOUR));
     on_widgets 8 3 "alice" "@merge-at 2024-01-01 13:00";
     on_widgets 8 4 GitHub.BOT (marker (NOW + HOUR))]
    [scheduled 7; scheduled 8]
    collaborators
    [GitHub.mkGPull "acme" "widgets" 7 true true;
     GitHub.mkGPull "acme" "widgets" 8 true false]
    5.

Definition candidate (issue : Z) (t : Z) : ScheduledPR :=
  {| pr_owner := "acme"; pr_repo := "widgets"; pr_number := issue; scheduleTime := t |}.

(** Pull request 7 carries three marker comments and the label, and alice
    schedules it again with comment 5. *)
Definition rescheduled : GitHub.State :=
  GitHub.mkState
    [on_widgets 7 1 "alice" "please review";
     on_widgets 7 2 GitHub.BOT (marker (NOW + HOUR));
     on_widgets 7 3 GitHub.BOT (marker (NOW + 2 * HOUR));
     on_widgets 7 4 GitHub.BOT (marker (NOW + 3 * HOUR));
     on_widgets 7 5 "alice" "@merge-at 2024-01-02 2:30PM"]
    [scheduled 7]
    collaborators
    [GitHub.mkGPull "acme" "widgets" 7 true true]
    6.

(** A long thread: 100 comments, then the marker comment of a schedule and
    the label, then the command that schedules again (comment 102). *)
Definition long_thread : GitHub.State :=
  GitHub.mkState
    (map (fun i => on_widgets 7 (Z.of_nat i) "bob" "looks good to me") (seq 1 100)
     ++ [on_widgets 7 101 GitHub.BOT (marker (NOW + HOUR));
         on_widgets 7 102 "alice" "@merge-at 2024-01-02 2:30PM"])
    [scheduled 7]
    collaborators
    [GitHub.mkGPull "acme" "widgets" 7 true true]
    103.

(** Search results as in the tests of [getScheduledPRs]. *)
Definition REPO_URL : string := "https://api.github.com/repos/owner/repo".



Definition items : list Item :=
  [ {| item_number := 121; repository_url := UrlMissing |};
    {| item_number := 122; repository_url := UrlString "invalid-url" |};
    {| item_number := 123; repository_url := UrlString REPO_URL |};
    {| item_number := 124; repository_url := UrlString REPO_URL |};
    {| item_number := 125; repository_url := UrlString REPO_URL |};
    {| item_number := 126; repository_url := UrlString REPO_URL |};
    {| item_number := 127; repository_url := UrlString REPO_URL |};
    {| item_number := 128; repository_url := UrlString REPO_URL |} ].



End Scenario.

(* ================================================================== *)
(** ** The rest of the sources *)
(* ================================================================== *)

(** *** utils.js: the latest command *)

Section LatestCommand.

Context {W : Type}.
Variable H : Host W.

(** [getLatestScheduleComment]: the first comment of the reversed listing
    whose body contains the command marker; [None] is [undefined]. *)
Definition getLatestScheduleComment (owner repo : string) (prNumber : Z)
    : M W (option Comment) :=
  rethrow (
    comments <- call (ListComments owner repo prNumber 100)
                     (issues_listComments H owner repo prNumber 100) ;;
    ret (find (fun comment => includes (body comment) "@merge-at") (rev comments))).

End LatestCommand.

(** *** index.js: the entry point *)

(** The Number value of an integer: the integer itself up to 53 significant
    bits, beyond that the nearest integer with 53 significant bits, the even
    one of two that are as near.  No Number has the magnitude [2^1024], which
    stands for [Infinity] here: it is what the integers round to that lie
    above every Number. *)
Definition to_double (z : Z) : Z :=
  let a := Z.abs z in
  let e := Z.log2 a - 52 in
  if e <=? 0 then z
  else
    let q := Z.shiftr a e in
    let r := a - Z.shiftl q e in
    let half := Z.shiftl 1 (e - 1) in
    let q' := if (half <? r) || ((r =? half) && Z.odd q) then q + 1 else q in
    let m := Z.min (Z.shiftl q' e) (Z.shiftl 1 1024) in
    if z <? 0 then - m else m.

(** [parseInt(text, 10)] in full: white space is skipped, a sign is read,
    and the value is the Number value of the decimal digits that follow;
    [None] is [NaN], the result when no digit follows.  Negative zero is
    zero: the sources only test the number and pass it on as an issue
    number. *)
Definition parseInt_number (text : string) : option Z :=
  let s := trimStart text in
  let negative := startsWith s "-" in
  let digits :=
    match s with
    | String c rest => if Ascii.eqb c "-" || Ascii.eqb c "+" then rest else s
    | EmptyString => s
    end in
  match digits with
  | String c _ =>
      if is_digit c
      then Some (to_double (if negative then - parseInt digits else parseInt digits))
      else None
  | EmptyString => None
  end.

(** The inputs of the action, as [core.getInput] returns them: the text of
    the input, empty when the input is not given. *)
Record Inputs : Type := mkInputs {
  input_mode : string;
  input_github_token : string;
  input_comment_body : string;
  input_pr_number : string;
  input_repository : string
}.

(** The entry point is kept in a module of its own: [run] is also the name
    of the matcher of the patterns. *)
Module Index.

Section EntryPoint.

Context {W : Type}.
Variable H : Host W.
Variable P : Platform.

(** [run]: the client is the host [H]; what [run] returns is the message
    given to [core.setFailed], [None] when the action does not fail.
    [payload_comment_id] and [now] are as in [handleComment]. *)
Definition run (payload_comment_id : Z) (now : Z) (inputs : Inputs) : M W (option string) :=
  tryCatch
    (let mode := input_mode inputs in
     let token := input_github_token inputs in
     (if (mode =? "comment")%string then
        let commentBody := input_comment_body inputs in
        let prNumber := parseInt_number (input_pr_number inputs) in
        let repository := input_repository inputs in
        match prNumber with
        | Some number =>
            if (commentBody =? EmptyString)%string || (number =? 0)
               || (repository =? EmptyString)%string
            then throw (new_Error "Missing required inputs for comment handling")
            else handleComment H P token payload_comment_id now repository number commentBody
        | None => throw (new_Error "Missing required inputs for comment handling")
        end
      else if (mode =? "scheduler")%string then
        processScheduledMerges H P token now
      else throw (new_Error ("Invalid mode: " ++ mode))) ;;
     ret None)
    (fun error => ret (Some ("Action failed: " ++ message error))).

End EntryPoint.

End Index.

(** *** More observations on a run *)

(** A computation none of whose calls shows under the observation [obs],
    whatever the host does. *)
Definition silent {W A X : Type} (obs : Event -> list X) (m : M W A) : Prop :=
  forall w, flat_map obs (calls (m w)) = [].

(** The calls that change the schedule state of a pull request: label added,
    label removed, comment deleted. *)
Definition change_of (e : Event) : list Call :=
  match fst e with
  | AddLabels _ _ _ _ | RemoveLabel _ _ _ _ | DeleteComment _ _ _ => [fst e]
  | _ => []
  end.

Definition changes (l : list Event) : list Call := flat_map change_of l.

(** The [pulls.merge] calls, with their outcome. *)
Definition merge_of (e : Event) : list (string * string * Z * string * option Error) :=
  match e with
  | (PullsMerge owner repo number method, result) => [(owner, repo, number, method, result)]
  | _ => []
  end.

Definition merges (l : list Event) : list (string * string * Z * string * option Error) :=
  flat_map merge_of l.

(** The two reads of the scheduler: the search for the labelled pull
    requests and the listing of the comments of an issue, each for one page
    of 100. *)
Definition first_page_read (c : Call) : bool :=
  match c with
  | SearchIssuesAndPullRequests q per_page => (q =? SEARCH_QUERY)%string && (per_page =? 100)%nat
  | ListComments _ _ _ per_page => (per_page =? 100)%nat
  | _ => false
  end.

(** The calls that are anything else. *)
Definition write_of (e : Event) : list Call :=
  if first_page_read (fst e) then [] else [fst e].

Definition writes (l : list Event) : list Call := flat_map write_of l.

(** [['admin', 'write'].includes(permission.permission)] on the outcome of
    the permission lookup; a lookup that throws grants nothing. *)
Definition granted (lookup : Result string) : bool :=
  match lookup with
  | inr permission => (permission =? "admin")%string || (permission =? "write")%string
  | inl _ => false
  end.

(** The time zone [handleComment] takes from a match of [COMMAND_REGEX]. *)
Definition command_timezone (m : captures) : string :=
  match group 2 m with Some tz => tz | None => "UTC" end.

(** *** The blocks of [mergePR]

    [mergePR] is an outer [try] around two inner ones; the three blocks are
    named here so that each can be followed on its own. *)
Section MergeBlocks.

Context {W : Type}.
Variable H : Host W.

(** The first inner [try]: the pull request is fetched and must be
    mergeable. *)
Definition mergeability_check (owner repo : string) (prNumber : Z) : M W unit :=
  tryCatch
    (pr <- call (PullsGet owner repo prNumber) (pulls_get H owner repo prNumber) ;;
     if negb (mergeable pr) then
       let error := new_Error "PR is not mergeable. There might be conflicts." in
       createComment H owner repo prNumber ("❌ Failed to merge PR: " ++ message error) ;;
       throw error
     else ret tt)
    (fun error =>
       if has_status error 404 then
         let notFoundError :=
           new_Error "PR not found or you may not have permission to merge." in
         createComment H owner repo prNumber
           ("❌ Failed to merge PR: " ++ message notFoundError) ;;
         throw notFoundError
       else throw error).

(** The second inner [try]: the merge, the comment that reports it and the
    removal of the schedule, with the handler they share. *)
Definition merge_attempt (owner repo : string) (prNumber : Z) : M W unit :=
  tryCatch
    (call (PullsMerge owner repo prNumber "squash")
          (pulls_merge H owner repo prNumber "squash") ;;
     createComment H owner repo prNumber "✅ Successfully merged as scheduled!" ;;
     removeScheduleInfo H owner repo prNumber)
    (fun mergeError =>
       let errorMessage := "Failed to merge PR: " ++ merge_failure_detail mergeError in
       createComment H owner repo prNumber ("❌ " ++ errorMessage) ;;
       throw (new_Error errorMessage)).

(** The outermost handler. *)
Definition merge_report (owner repo : string) (prNumber : Z) (error : Error) : M W unit :=
  (if negb (includes (message error) "Failed to merge PR") then
     createComment H owner repo prNumber ("❌ Failed to merge PR: " ++ message error)
   else ret tt) ;;
  throw error.

End MergeBlocks.

(** A host on which the token of the action may not remove labels: the model
    host, with a label removal that is refused. *)
Module Restricted.

Definition error : Error :=
  {| message := "Resource not accessible by integration"; status := Some 403 |}.

Definition host : Host GitHub.State := {|
  issues_getComment := GitHub.getComment;
  repos_getCollaboratorPermissionLevel := GitHub.getCollaboratorPermissionLevel;
  issues_createComment := GitHub.createComment;
  issues_listComments := GitHub.listComments;
  issues_addLabels := GitHub.addLabels;
  issues_removeLabel := fun _ _ _ _ st => (inl error, st);
  issues_deleteComment := GitHub.deleteComment;
  search_issuesAndPullRequests := GitHub.search;
  pulls_get := GitHub.pullsGet;
  pulls_merge := GitHub.pullsMerge
|}.

End Restricted.

(** Inputs of the action for the examples. *)
Module Invocation.

Definition comment (body pr repository : string) : Inputs :=
  {| input_mode := "comment"; input_github_token := Scenario.TOKEN;
     input_comment_body := body; input_pr_number := pr; input_repository := repository |}.

Definition mode (name : string) : Inputs :=
  {| input_mode := name; input_github_token := Scenario.TOKEN;
     input_comment_body := EmptyString; input_pr_number := EmptyString;
     input_repository := EmptyString |}.

End Invocation.

(** *** Pull requests on the model host *)

(** The identifier the host gives next is above those in use. *)
Definition fresh_ids (st : GitHub.State) : bool :=
  forallb (fun g => GitHub.gc_id g <? GitHub.st_next_id st) (GitHub.st_comments st).

(** The pull request is on the host, open and mergeable. *)
Definition ready_to_merge (st : GitHub.State) (owner repo : string) (n : Z) : bool :=
  match find (GitHub.is_pull owner repo n) (GitHub.st_pulls st) with
  | Some p => GitHub.gp_open p && GitHub.gp_mergeable p
  | None => false
  end.

(** Some entry of the host for the pull request is open. *)
Definition still_open (st : GitHub.State) (owner repo : string) (n : Z) : bool :=
  existsb (fun p => GitHub.is_pull owner repo n p && GitHub.gp_open p) (GitHub.st_pulls st).

(** *** Lines *)

(** At no byte of the text a line terminator starts: [.] goes through it. *)
Fixpoint no_line_break (s : string) : bool :=
  match s with
  | EmptyString => true
  | String _ s' => (line_width s =? 0)%nat && no_line_break s'
  end.

(** The text is empty or starts with a line terminator: [.] stops there. *)
Definition line_ends (s : string) : bool :=
  match s with
  | EmptyString => true
  | String _ _ => negb (line_width s =? 0)%nat
  end.


(** *** Replies *)

(** A computation that posts exactly one comment when it returns and none
    when it throws. *)
Definition answers {W A : Type} (m : M W A) : Prop :=
  forall w,
    match m w with
    | (inr _, _, l) => exists reply, posts l = [reply]
    | (inl _, _, l) => posts l = []
    end.

(* ================================================================== *)
(** * Properties *)
(* ================================================================== *)

Import SamplePlatform.

(* ================================================================== *)
(** ** Facts about the string primitives *)
(* ================================================================== *)

Lemma append_nil_r (s : string) : s ++ EmptyString = s.
Proof. induction s; simpl; congruence. Qed.

Lemma append_assoc (a b c : string) : (a ++ b) ++ c = a ++ (b ++ c).
Proof. induction a; simpl; congruence. Qed.

Lemma string_eqb_empty (s : string) : (s =? EmptyString)%string = false <-> s <> EmptyString.
Proof. destruct s; simpl; split; congruence. Qed.

Lemma string_length_app (a b : string) :
  String.length (a ++ b) = (String.length a + String.length b)%nat.
Proof. induction a as [|x a IH]; cbn [append String.length]; [reflexivity|]. rewrite IH. reflexivity. Qed.

(** A fact about every byte is settled on the 256 of them. *)
Ltac each_byte c := destruct c as [[] [] [] [] [] [] [] []]; vm_compute.

Lemma is_digit_plain (c : ascii) : is_digit c = true -> plain c = true.
Proof. each_byte c; intros H; first [exact H | reflexivity]. Qed.

Lemma is_digit_upper (c : ascii) : is_digit c = true -> upper_char c = c.
Proof. each_byte c; intros H; first [reflexivity | discriminate H]. Qed.

(** A byte that upper-cases to a plain byte is plain. *)
Lemma upper_plain (c : ascii) : plain (upper_char c) = true -> plain c = true.
Proof. each_byte c; intros H; first [exact H | reflexivity]. Qed.

Lemma plain_starts (c : ascii) : plain c = true -> is_continuation c = false.
Proof. each_byte c; intros H; first [reflexivity | discriminate H]. Qed.

Lemma plain_not_lead (c : ascii) : plain c = true -> space_lead c = false.
Proof. unfold plain. intros H. apply andb_true_iff in H as [_ H]. apply negb_true_iff. exact H. Qed.

Lemma toUpperCase_app (a b : string) : toUpperCase (a ++ b) = toUpperCase a ++ toUpperCase b.
Proof. induction a; simpl; congruence. Qed.

Lemma toUpperCase_digits (s : string) : all_digits s = true -> toUpperCase s = s.
Proof.
  induction s as [|c s IH]; simpl; [reflexivity|]. intros H.
  apply andb_true_iff in H as [Hc Hs]. rewrite (is_digit_upper c Hc), IH; auto.
Qed.

(** *** The two tables *)

Lemma startsWith_inv (s w : string) : startsWith s w = true -> exists rest, s = w ++ rest.
Proof.
  revert s. induction w as [|a w IH]; intros s H.
  - exists s. reflexivity.
  - destruct s as [|b s]; [discriminate H|]. cbn [startsWith] in H.
    apply andb_true_iff in H as [Hab Hs]. apply Ascii.eqb_eq in Hab. subst b.
    destruct (IH s Hs) as [rest ->]. exists rest. reflexivity.
Qed.

(** Whether the text starts with an entry is settled inside the text when
    what follows it starts a character. *)
Lemma startsWith_boundary (p R w : string) :
  all_continuation w = true -> starts_char R = true ->
  startsWith (p ++ R) w = startsWith p w.
Proof.
  revert w. induction p as [|x p IH]; intros w Hw HR.
  - cbn [append]. destruct w as [|b w]; [destruct R; reflexivity|].
    destruct R as [|z R]; [reflexivity|]. cbn [startsWith].
    cbn [all_continuation] in Hw. apply andb_true_iff in Hw as [Hb _].
    cbn [starts_char] in HR. apply negb_true_iff in HR.
    destruct (Ascii.eqb b z) eqn:E; [|reflexivity].
    apply Ascii.eqb_eq in E. subst z. congruence.
  - destruct w as [|b w]; [reflexivity|]. cbn [append startsWith].
    cbn [all_continuation] in Hw. apply andb_true_iff in Hw as [_ Hw].
    rewrite IH by assumption. reflexivity.
Qed.

Lemma width_app (cs : list string) (p R : string) :
  forallb well_formed cs = true -> p <> EmptyString -> starts_char R = true ->
  width_of cs (p ++ R) = width_of cs p.
Proof.
  intros Hcs Hp HR. unfold width_of.
  replace (find (startsWith (p ++ R)) cs) with (find (startsWith p) cs); [reflexivity|].
  induction cs as [|w cs IH]; [reflexivity|]. cbn [forallb] in Hcs.
  apply andb_true_iff in Hcs as [Hw Hcs]. cbn [find].
  assert (E : startsWith (p ++ R) w = startsWith p w).
  { destruct w as [|a w]; [discriminate Hw|]. destruct p as [|x p]; [contradiction|].
    cbn [well_formed] in Hw. apply andb_true_iff in Hw as [_ Hw].
    cbn [append startsWith]. rewrite startsWith_boundary by assumption. reflexivity. }
  rewrite E. destruct (startsWith p w); [reflexivity|]. apply IH. exact Hcs.
Qed.

Lemma width_inv (cs : list string) (s : string) (k : nat) :
  width_of cs s = S k ->
  exists w rest, In w cs /\ s = w ++ rest /\ String.length w = S k.
Proof.
  unfold width_of. destruct (find (startsWith s) cs) as [w|] eqn:Hf; [|discriminate].
  intros Hk. apply find_some in Hf as [Hin Hs]. destruct (startsWith_inv s w Hs) as [rest ->].
  exists w, rest. auto.
Qed.

Lemma space_width_app (p R : string) :
  p <> EmptyString -> starts_char R = true -> space_width (p ++ R) = space_width p.
Proof. apply width_app. reflexivity. Qed.

Lemma line_width_app (p R : string) :
  p <> EmptyString -> starts_char R = true -> line_width (p ++ R) = line_width p.
Proof. apply width_app. reflexivity. Qed.

(** Each white space character, whatever follows it. *)
Ltac each_space Hin :=
  cbv [WHITE_SPACE] in Hin;
  repeat (destruct Hin as [<-|Hin]); [..|contradiction].

Lemma space_width_char (w X : string) :
  In w WHITE_SPACE -> space_width (w ++ X) = String.length w.
Proof. intros Hin. each_space Hin; vm_compute; reflexivity. Qed.

Lemma space_well_formed (w : string) : In w WHITE_SPACE -> well_formed w = true.
Proof. intros Hin. each_space Hin; vm_compute; reflexivity. Qed.

Lemma space_lead_width (c : ascii) (X : string) :
  space_lead c = false -> space_width (String c X) = 0%nat.
Proof.
  intros Hc. destruct (space_width (String c X)) as [|k] eqn:Hw; [reflexivity|].
  apply width_inv in Hw as (w & rest & Hin & Hs & _).
  assert (space_lead c = true); [|congruence].
  unfold space_lead. apply existsb_exists. exists w. split; [assumption|].
  pose proof (space_well_formed w Hin) as Hwf.
  destruct w as [|a w]; [discriminate Hwf|]. cbn [append] in Hs. injection Hs as -> _.
  cbn [startsWith]. rewrite Ascii.eqb_refl. reflexivity.
Qed.

Lemma plain_width (c : ascii) (X : string) : plain c = true -> space_width (String c X) = 0%nat.
Proof. intros Hc. apply space_lead_width, plain_not_lead. exact Hc. Qed.

Lemma continuation_width (c : ascii) (X : string) :
  is_continuation c = true -> space_width (String c X) = 0%nat.
Proof.
  intros Hc. apply space_lead_width. revert Hc.
  each_byte c; intros H; first [reflexivity | discriminate H].
Qed.

(** *** White space, character by character *)

Lemma all_space_char (w X : string) : In w WHITE_SPACE -> all_space (w ++ X) = all_space X.
Proof. intros Hin. each_space Hin; vm_compute; reflexivity. Qed.

Lemma trimStart_char (w X : string) : In w WHITE_SPACE -> trimStart (w ++ X) = trimStart X.
Proof. intros Hin. each_space Hin; vm_compute; reflexivity. Qed.

Lemma remove_spaces_char (w X : string) :
  In w WHITE_SPACE -> remove_spaces (w ++ X) = remove_spaces X.
Proof. intros Hin. each_space Hin; vm_compute; reflexivity. Qed.

Lemma split_ws_char_run (w X : string) :
  In w WHITE_SPACE -> split_ws_from 0 EmptyString true (w ++ X) = split_ws_from 0 EmptyString true X.
Proof. intros Hin. each_space Hin; vm_compute; reflexivity. Qed.

Lemma split_ws_char (w cur X : string) :
  In w WHITE_SPACE -> split_ws_from 0 cur false (w ++ X) = cur :: split_ws_from 0 EmptyString true X.
Proof. intros Hin. each_space Hin; vm_compute; reflexivity. Qed.

Lemma space_nonempty (w : string) : In w WHITE_SPACE -> w <> EmptyString.
Proof. intros Hin. each_space Hin; discriminate. Qed.

Lemma space_starts (w X : string) : In w WHITE_SPACE -> starts_char (w ++ X) = true.
Proof. intros Hin. each_space Hin; vm_compute; reflexivity. Qed.

Lemma all_space_inv (s : string) :
  all_space s = true ->
  s = EmptyString \/ exists w g, In w WHITE_SPACE /\ s = w ++ g /\ all_space g = true.
Proof.
  destruct s as [|c s]; [auto|]. intros H. right.
  assert (Hw : exists k, space_width (String c s) = S k).
  { unfold all_space in H. cbn [all_space_from] in H.
    destruct (space_width (String c s)) as [|k]; [discriminate H|eauto]. }
  destruct Hw as [k Hw]. apply width_inv in Hw as (w & rest & Hin & Hs & _).
  exists w, rest. split; [assumption|]. split; [assumption|].
  rewrite Hs, all_space_char in H by assumption. exact H.
Qed.

(** Induction on a text of white space, a character at a time. *)
Lemma all_space_ind (Q : string -> Prop) :
  Q EmptyString ->
  (forall w g, In w WHITE_SPACE -> all_space g = true -> Q g -> Q (w ++ g)) ->
  forall g, all_space g = true -> Q g.
Proof.
  intros Q0 Qs g.
  assert (Hn : forall n g, (String.length g <= n)%nat -> all_space g = true -> Q g).
  { induction n as [|n IH]; intros g0 Hlen Hg.
    - destruct g0; [exact Q0|cbn [String.length] in Hlen; lia].
    - destruct (all_space_inv g0 Hg) as [->|(w & g1 & Hin & -> & Hg1)]; [exact Q0|].
      apply Qs; [assumption|assumption|]. apply IH; [|assumption].
      rewrite string_length_app in Hlen. pose proof (space_nonempty w Hin).
      destruct w; [contradiction|cbn [String.length] in Hlen; lia]. }
  apply (Hn (String.length g)). lia.
Qed.

Lemma trimStart_all_space (lead s : string) :
  all_space lead = true -> trimStart (lead ++ s) = trimStart s.
Proof.
  intros Hl. revert lead Hl. apply (all_space_ind (fun g => trimStart (g ++ s) = trimStart s)).
  - reflexivity.
  - intros w g Hin _ IH. rewrite append_assoc, trimStart_char by assumption. exact IH.
Qed.

Lemma all_space_app (g X : string) : all_space g = true -> all_space (g ++ X) = all_space X.
Proof.
  intros Hg. revert g Hg. apply (all_space_ind (fun g => all_space (g ++ X) = all_space X)).
  - reflexivity.
  - intros w g Hin _ IH. rewrite append_assoc, all_space_char by assumption. exact IH.
Qed.

Lemma remove_spaces_gap (g X : string) :
  all_space g = true -> remove_spaces (g ++ X) = remove_spaces X.
Proof.
  intros Hg. revert g Hg.
  apply (all_space_ind (fun g => remove_spaces (g ++ X) = remove_spaces X)).
  - reflexivity.
  - intros w g Hin _ IH. rewrite append_assoc, remove_spaces_char by assumption. exact IH.
Qed.

Lemma split_ws_gap_run (g X : string) :
  all_space g = true -> split_ws_from 0 EmptyString true (g ++ X) = split_ws_from 0 EmptyString true X.
Proof.
  intros Hg. revert g Hg.
  apply (all_space_ind
           (fun g => split_ws_from 0 EmptyString true (g ++ X) = split_ws_from 0 EmptyString true X)).
  - reflexivity.
  - intros w g Hin _ IH. rewrite append_assoc, split_ws_char_run by assumption. exact IH.
Qed.

(** A gap ends the piece being read. *)
Lemma split_ws_gap (g cur X : string) :
  all_space g = true -> g <> EmptyString ->
  split_ws_from 0 cur false (g ++ X) = cur :: split_ws_from 0 EmptyString true X.
Proof.
  intros Hg Hne. destruct (all_space_inv g Hg) as [->|(w & g1 & Hin & -> & Hg1)];
    [contradiction|].
  rewrite append_assoc, split_ws_char by assumption. rewrite split_ws_gap_run by assumption.
  reflexivity.
Qed.

Lemma starts_char_gap (g X : string) :
  all_space g = true -> starts_char X = true -> starts_char (g ++ X) = true.
Proof.
  intros Hg HX. destruct (all_space_inv g Hg) as [->|(w & g1 & Hin & -> & _)]; [exact HX|].
  rewrite append_assoc. apply space_starts. exact Hin.
Qed.

Lemma trimEnd_all_space (s : string) : all_space s = true -> trimEnd s = EmptyString.
Proof. intros H. destruct s as [|c s]; [reflexivity|]. cbn [trimEnd]. rewrite H. reflexivity. Qed.

Lemma all_space_continuation (c : ascii) (X : string) :
  is_continuation c = true -> all_space (String c X) = false.
Proof.
  intros Hc. unfold all_space. cbn [all_space_from]. rewrite continuation_width by assumption.
  reflexivity.
Qed.

(** The bytes that continue a character are kept with it. *)
Lemma trimEnd_continuation (v X : string) :
  all_continuation v = true -> trimEnd (v ++ X) = v ++ trimEnd X.
Proof.
  induction v as [|c v IH]; intros Hv; [reflexivity|]. cbn [all_continuation] in Hv.
  apply andb_true_iff in Hv as [Hc Hv]. cbn [append trimEnd].
  rewrite all_space_continuation by assumption. rewrite IH by assumption. reflexivity.
Qed.

Lemma trimEnd_char (w X : string) :
  In w WHITE_SPACE -> all_space X = false -> trimEnd (w ++ X) = w ++ trimEnd X.
Proof.
  intros Hin HX. pose proof (space_well_formed w Hin) as Hwf.
  pose proof (all_space_char w X Hin) as Hall.
  destruct w as [|a w]; [discriminate Hwf|]. cbn [well_formed] in Hwf.
  apply andb_true_iff in Hwf as [_ Hw]. cbn [append trimEnd].
  cbn [append] in Hall. rewrite Hall, HX. rewrite trimEnd_continuation by assumption.
  reflexivity.
Qed.

Lemma trimEnd_gap (g X : string) :
  all_space g = true -> all_space X = false -> trimEnd (g ++ X) = g ++ trimEnd X.
Proof.
  intros Hg HX. revert g Hg.
  apply (all_space_ind (fun g => trimEnd (g ++ X) = g ++ trimEnd X)).
  - reflexivity.
  - intros w g Hin Hg IH. rewrite !append_assoc, trimEnd_char, IH; [reflexivity|assumption|].
    rewrite all_space_app by assumption. exact HX.
Qed.

(** *** Texts without white space *)

Lemma no_space_width (p R : string) :
  no_space p = true -> p <> EmptyString -> starts_char R = true -> space_width (p ++ R) = 0%nat.
Proof.
  intros Hp Hne HR. rewrite space_width_app by assumption.
  destruct p as [|c p]; [contradiction|]. cbn [no_space] in Hp.
  apply andb_true_iff in Hp as [Hw _]. apply Nat.eqb_eq. exact Hw.
Qed.

Lemma no_space_tail (c : ascii) (p : string) : no_space (String c p) = true -> no_space p = true.
Proof. cbn [no_space]. intros H. apply andb_true_iff in H as [_ H]. exact H. Qed.

Lemma no_space_app (a b : string) :
  starts_char b = true -> no_space (a ++ b) = no_space a && no_space b.
Proof.
  intros Hb. induction a as [|c a IH]; [reflexivity|]. cbn [append no_space].
  change (String c (a ++ b)) with (String c a ++ b).
  rewrite space_width_app by (assumption || discriminate). rewrite IH, andb_assoc. reflexivity.
Qed.

Lemma all_space_token (p R : string) :
  no_space p = true -> p <> EmptyString -> starts_char R = true -> all_space (p ++ R) = false.
Proof.
  intros Hp Hne HR. pose proof (no_space_width p R Hp Hne HR) as Hw.
  destruct p as [|c p]; [contradiction|]. unfold all_space. cbn [append all_space_from].
  cbn [append] in Hw. rewrite Hw. reflexivity.
Qed.

Lemma trimStart_no_space (d s : string) :
  no_space d = true -> d <> EmptyString -> starts_char s = true -> trimStart (d ++ s) = d ++ s.
Proof.
  intros Hd Hne Hs. pose proof (no_space_width d s Hd Hne Hs) as Hw.
  destruct d as [|c d]; [contradiction|]. unfold trimStart. cbn [append trimStart_from].
  cbn [append] in Hw. rewrite Hw. reflexivity.
Qed.

Lemma remove_spaces_token (p R : string) :
  no_space p = true -> starts_char R = true ->
  remove_spaces (p ++ R) = p ++ remove_spaces R.
Proof.
  intros Hp HR. induction p as [|c p IH]; [reflexivity|].
  pose proof (no_space_width (String c p) R Hp ltac:(discriminate) HR) as Hw.
  unfold remove_spaces in *. cbn [append remove_spaces_from]. cbn [append] in Hw.
  rewrite Hw. rewrite IH by (apply (no_space_tail c); assumption). reflexivity.
Qed.

Lemma remove_spaces_no_space (s : string) : no_space s = true -> remove_spaces s = s.
Proof.
  intros H. rewrite <- (append_nil_r s) at 1. rewrite remove_spaces_token by auto.
  apply append_nil_r.
Qed.

Lemma split_ws_token_from (p cur R : string) (b : bool) :
  no_space p = true -> p <> EmptyString -> starts_char R = true ->
  split_ws_from 0 cur b (p ++ R) = split_ws_from 0 (cur ++ p) false R.
Proof.
  intros Hp Hne HR. revert cur b. induction p as [|c p IH]; intros cur b; [contradiction|].
  pose proof (no_space_width (String c p) R Hp ltac:(discriminate) HR) as Hw.
  cbn [append split_ws_from]. cbn [append] in Hw. rewrite Hw.
  destruct p as [|c' p].
  - cbn [append]. reflexivity.
  - rewrite IH by (try discriminate; apply (no_space_tail c); assumption).
    rewrite append_assoc. reflexivity.
Qed.

Lemma trimEnd_token (p R : string) :
  no_space p = true -> starts_char R = true -> trimEnd (p ++ R) = p ++ trimEnd R.
Proof.
  intros Hp HR. induction p as [|c p IH]; [reflexivity|].
  cbn [append trimEnd]. change (String c (p ++ R)) with (String c p ++ R).
  rewrite all_space_token by (assumption || discriminate).
  rewrite IH by (apply (no_space_tail c); assumption). reflexivity.
Qed.

Lemma trimEnd_no_space_app (a trail : string) :
  no_space a = true -> all_space trail = true -> trimEnd (a ++ trail) = a.
Proof.
  intros Ha Ht. assert (HR : starts_char trail = true).
  { rewrite <- (append_nil_r trail). apply starts_char_gap; [assumption|reflexivity]. }
  induction a as [|c a IH]; [apply trimEnd_all_space; assumption|].
  cbn [append trimEnd]. change (String c (a ++ trail)) with (String c a ++ trail).
  rewrite all_space_token by (assumption || discriminate).
  rewrite IH by (apply (no_space_tail c); assumption). reflexivity.
Qed.

Lemma trimEnd_no_space (s : string) : no_space s = true -> trimEnd s = s.
Proof.
  intros H. rewrite <- (append_nil_r s) at 1. rewrite trimEnd_no_space_app by auto.
  reflexivity.
Qed.

Lemma split_ws_single (d : string) : no_space d = true -> split_ws d = [d].
Proof.
  intros Hd. destruct d as [|c d]; [reflexivity|]. unfold split_ws.
  rewrite <- (append_nil_r (String c d)) at 1.
  rewrite split_ws_token_from by (assumption || discriminate || reflexivity). reflexivity.
Qed.

(** *** Plain bytes *)

Lemma all_plain_no_space (s : string) : all_plain s = true -> no_space s = true.
Proof.
  induction s as [|c s IH]; [reflexivity|]. cbn [all_plain no_space]. intros H.
  apply andb_true_iff in H as [Hc Hs]. rewrite plain_width by assumption. auto.
Qed.

Lemma all_plain_starts (s R : string) :
  all_plain s = true -> starts_char R = true -> starts_char (s ++ R) = true.
Proof.
  intros Hs HR. destruct s as [|c s]; [exact HR|]. cbn [all_plain] in Hs.
  apply andb_true_iff in Hs as [Hc _]. cbn [append starts_char].
  rewrite plain_starts by assumption. reflexivity.
Qed.

Lemma all_plain_app (a b : string) : all_plain (a ++ b) = all_plain a && all_plain b.
Proof. induction a as [|c a IH]; [reflexivity|]. cbn [append all_plain]. rewrite IH, andb_assoc. reflexivity. Qed.

Lemma all_digits_plain (s : string) : all_digits s = true -> all_plain s = true.
Proof.
  induction s as [|c s IH]; [reflexivity|]. cbn [all_digits all_plain]. intros H.
  apply andb_true_iff in H as [Hc Hs]. rewrite is_digit_plain by assumption. auto.
Qed.

Lemma all_digits_no_space (s : string) : all_digits s = true -> no_space s = true.
Proof. intros H. apply all_plain_no_space, all_digits_plain. exact H. Qed.

Lemma TIME_REGEX_anchored (i : nat) (s : string) :
  search TIME_REGEX (S i) s = None.
Proof.
  revert i. induction s as [|c s IH]; intros i; simpl; auto.
Qed.

Lemma exec_TIME_REGEX (s : string) :
  exec TIME_REGEX s = option_map snd (match_at TIME_REGEX 0 s).
Proof.
  unfold exec. destruct s as [|c s]; cbn [search]; [|rewrite TIME_REGEX_anchored];
    destruct (match_at TIME_REGEX 0 _); reflexivity.
Qed.

Ltac regex_eval :=
  cbv [match_at run star TIME_REGEX lit_i lit chr chr_i opt plus times digit space
       option_map snd fst substring Nat.eqb Nat.sub String.length].

Lemma time_match_24 (hs ms : string) :
  is_hour_text hs = true -> is_minute_text ms = true ->
  exec TIME_REGEX (hs ++ ":" ++ ms) = Some [(2%nat, ms); (1%nat, hs)].
Proof.
  unfold is_hour_text, is_minute_text. intros Hh Hm.
  apply andb_true_iff in Hh as [Hh Hl]. apply andb_true_iff in Hm as [Hm Hlm].
  destruct ms as [|a [|b [|? ?]]]; try discriminate Hlm.
  simpl in Hm. apply andb_true_iff in Hm as [Ha Hb]. apply andb_true_iff in Hb as [Hb _].
  destruct hs as [|h1 [|h2 [|? ?]]]; try discriminate Hl; simpl in Hh;
    rewrite exec_TIME_REGEX; simpl append.
  - apply andb_true_iff in Hh as [H1 _].
    regex_eval. rewrite H1, Ha, Hb. reflexivity.
  - apply andb_true_iff in Hh as [H1 H2]. apply andb_true_iff in H2 as [H2 _].
    regex_eval. rewrite H1, H2, Ha, Hb. reflexivity.
Qed.

Lemma time_match_12 (hs ms MT : string) :
  is_hour_text hs = true -> is_minute_text ms = true -> MT = "AM" \/ MT = "PM" ->
  exec TIME_REGEX (hs ++ ":" ++ ms ++ MT) = Some [(3%nat, MT); (2%nat, ms); (1%nat, hs)].
Proof.
  unfold is_hour_text, is_minute_text. intros Hh Hm HMT.
  apply andb_true_iff in Hh as [Hh Hl]. apply andb_true_iff in Hm as [Hm Hlm].
  destruct ms as [|a [|b [|? ?]]]; try discriminate Hlm.
  simpl in Hm. apply andb_true_iff in Hm as [Ha Hb]. apply andb_true_iff in Hb as [Hb _].
  destruct hs as [|h1 [|h2 [|? ?]]]; try discriminate Hl; simpl in Hh;
    rewrite exec_TIME_REGEX; simpl append.
  - apply andb_true_iff in Hh as [H1 _].
    destruct HMT as [-> | ->]; regex_eval; rewrite H1, Ha, Hb; reflexivity.
  - apply andb_true_iff in Hh as [H1 H2]. apply andb_true_iff in H2 as [H2 _].
    destruct HMT as [-> | ->]; regex_eval; rewrite H1, H2, Ha, Hb; reflexivity.
Qed.

Lemma meridiem_upper (mt : string) :
  is_meridiem_text mt = true -> toUpperCase mt = "AM" \/ toUpperCase mt = "PM".
Proof.
  unfold is_meridiem_text. intros H. apply orb_true_iff in H as [H|H];
    apply String.eqb_eq in H; auto.
Qed.

Lemma meridiem_plain (mt : string) :
  is_meridiem_text mt = true -> all_plain mt = true /\ mt <> EmptyString.
Proof.
  intros H. apply meridiem_upper in H.
  destruct mt as [|c1 [|c2 [|? ?]]]; simpl in H; try (destruct H; discriminate).
  assert (Hs : plain c1 = true /\ plain c2 = true).
  { destruct H as [H|H]; injection H as H1 H2; split; apply upper_plain;
      rewrite ?H1, ?H2; reflexivity. }
  destruct Hs as [Hs1 Hs2]. cbn [all_plain]. rewrite Hs1, Hs2. split; [reflexivity|discriminate].
Qed.

Lemma hour_text_shape (hs : string) :
  is_hour_text hs = true -> all_digits hs = true /\ hs <> EmptyString.
Proof.
  unfold is_hour_text. intros H. apply andb_true_iff in H as [Hd Hl]. split; [assumption|].
  destruct hs; [discriminate Hl|discriminate].
Qed.

Lemma minute_text_shape (ms : string) :
  is_minute_text ms = true -> all_digits ms = true /\ ms <> EmptyString /\ padStart0 2 ms = ms.
Proof.
  unfold is_minute_text. intros H. apply andb_true_iff in H as [Hd Hl].
  destruct ms as [|a [|b [|? ?]]]; try discriminate Hl. repeat split; auto. discriminate.
Qed.

Lemma token_shape (d : string) :
  is_token d = true -> no_space d = true /\ (d =? EmptyString)%string = false /\ d <> EmptyString.
Proof.
  unfold is_token. intros H. apply andb_true_iff in H as [Hne Hd].
  apply negb_true_iff in Hne. repeat split; auto. apply string_eqb_empty. exact Hne.
Qed.

Lemma gap_shape (g : string) : is_gap g = true -> all_space g = true /\ g <> EmptyString.
Proof.
  unfold is_gap. intros H. apply andb_true_iff in H as [Hne Hg].
  apply negb_true_iff in Hne. apply string_eqb_empty in Hne. auto.
Qed.

(** The text of a time of day, [H:MM] or [HH:MM], is made of plain bytes. *)
Lemma time_text_plain (hs ms : string) :
  is_hour_text hs = true -> is_minute_text ms = true ->
  all_plain (hs ++ ":" ++ ms) = true /\ hs ++ ":" ++ ms <> EmptyString.
Proof.
  intros Hh Hm. destruct (hour_text_shape hs Hh) as [Hhd Hne].
  destruct (minute_text_shape ms Hm) as (Hmd & _ & _). split.
  - rewrite !all_plain_app, (all_digits_plain hs), (all_digits_plain ms) by assumption.
    reflexivity.
  - destruct hs; [contradiction|discriminate].
Qed.

Lemma starts_char_space (g : string) : all_space g = true -> starts_char g = true.
Proof.
  intros Hg. rewrite <- (append_nil_r g). apply starts_char_gap; [assumption|reflexivity].
Qed.

Lemma starts_char_plain (s : string) : all_plain s = true -> starts_char s = true.
Proof.
  intros Hs. rewrite <- (append_nil_r s). apply all_plain_starts; [assumption|reflexivity].
Qed.

(** What [trim] leaves of a date, a gap, a time and what follows the time:
    white space and then a text of plain bytes. *)
Lemma trim_date_time_rest (d gap T gap2 U : string) :
  is_token d = true -> is_gap gap = true -> all_plain T = true -> T <> EmptyString ->
  all_space gap2 = true -> all_plain U = true ->
  trim (d ++ gap ++ T ++ gap2 ++ U) =
  d ++ gap ++ T ++ (if (U =? EmptyString)%string then EmptyString else gap2 ++ U).
Proof.
  intros Hd Hg HT HTne Hg2 HU.
  destruct (token_shape d Hd) as (Hds & _ & Hdne). destruct (gap_shape gap Hg) as [Hgs _].
  pose proof (starts_char_plain U HU) as HsU.
  pose proof (starts_char_gap gap2 U Hg2 HsU) as Hs2.
  pose proof (all_plain_starts T (gap2 ++ U) HT Hs2) as HsT.
  pose proof (starts_char_gap gap (T ++ gap2 ++ U) Hgs HsT) as Hsg.
  unfold trim. rewrite trimStart_no_space by assumption.
  rewrite trimEnd_token by assumption.
  rewrite trimEnd_gap by (try assumption; apply all_space_token;
                          auto using all_plain_no_space).
  destruct U as [|u U].
  - rewrite append_nil_r. rewrite trimEnd_no_space_app by auto using all_plain_no_space.
    cbn [String.eqb]. rewrite append_nil_r. reflexivity.
  - cbn [String.eqb].
    rewrite trimEnd_token by auto using all_plain_no_space.
    rewrite trimEnd_gap
      by (try assumption; rewrite <- (append_nil_r (String u U));
          apply all_space_token; auto using all_plain_no_space; discriminate).
    rewrite (trimEnd_no_space (String u U)) by auto using all_plain_no_space.
    reflexivity.
Qed.

(** The lexical steps of the parser on a date token, a gap, a time and what
    follows the time. *)
Lemma lex_date_time (d gap T gap2 U : string) :
  is_token d = true -> is_gap gap = true -> all_plain T = true -> T <> EmptyString ->
  all_space gap2 = true -> all_plain U = true ->
  let parts := split_ws (trim (d ++ gap ++ T ++ gap2 ++ U)) in
  hd EmptyString parts = d /\
  (join " " (tl parts) =? EmptyString)%string = false /\
  remove_spaces (join " " (tl parts)) = T ++ U.
Proof.
  intros Hd Hg HT HTne Hg2 HU.
  destruct (token_shape d Hd) as (Hds & _ & Hdne). destruct (gap_shape gap Hg) as [Hgs Hgne].
  pose proof (all_plain_no_space T HT) as HTs. pose proof (all_plain_no_space U HU) as HUs.
  pose proof (starts_char_plain U HU) as HsU.
  cbv zeta. rewrite trim_date_time_rest by assumption. unfold split_ws.
  assert (Hne : forall X, (T ++ X =? EmptyString)%string = false).
  { intros X. destruct T; [contradiction|reflexivity]. }
  assert (HTe : (T =? EmptyString)%string = false) by (destruct T; [contradiction|reflexivity]).
  assert (Hlast : forall X b, no_space X = true -> X <> EmptyString ->
                         split_ws_from 0 EmptyString b X = [X]).
  { intros X b HX HXne. rewrite <- (append_nil_r X) at 1.
    rewrite split_ws_token_from by (assumption || reflexivity). reflexivity. }
  destruct U as [|u U]; [|destruct (all_space_inv gap2 Hg2) as [->|Hex]].
  - cbn [String.eqb]. rewrite !append_nil_r.
    rewrite split_ws_token_from
      by (try assumption; apply starts_char_gap; auto using starts_char_plain).
    rewrite split_ws_gap, Hlast by assumption.
    cbn [hd tl join append]. rewrite HTe.
    rewrite remove_spaces_no_space by assumption. auto.
  - assert (HTU : no_space (T ++ String u U) = true)
      by (rewrite no_space_app by assumption; rewrite HTs, HUs; reflexivity).
    cbn [String.eqb append].
    rewrite split_ws_token_from
      by (try assumption; apply starts_char_gap;
          auto using all_plain_starts, starts_char_plain).
    rewrite split_ws_gap, Hlast
      by (try assumption; (destruct T; [contradiction|discriminate])).
    cbn [hd tl join append]. rewrite Hne.
    rewrite remove_spaces_no_space by assumption. auto.
  - assert (Hg2ne : gap2 <> EmptyString).
    { destruct Hex as (w & g & Hin & -> & _). pose proof (space_nonempty w Hin).
      destruct w; [contradiction|discriminate]. }
    cbn [String.eqb].
    pose proof (starts_char_gap gap2 (String u U) Hg2 HsU) as Hs2.
    rewrite split_ws_token_from
      by (try assumption; apply starts_char_gap; auto using all_plain_starts).
    rewrite split_ws_gap by assumption.
    rewrite split_ws_token_from by assumption.
    rewrite split_ws_gap, Hlast by (assumption || discriminate).
    cbn [hd tl join]. change (EmptyString ++ T) with T. rewrite Hne.
    rewrite remove_spaces_token by (assumption || reflexivity).
    change (" " ++ String u U) with (bytes [32] ++ String u U).
    rewrite remove_spaces_char by (cbv [WHITE_SPACE]; auto 30 using in_eq, in_cons).
    rewrite remove_spaces_no_space by assumption. auto.
Qed.

Lemma resolve_24h (P : Platform) (d gap hs ms tz : string) :
  is_token d = true -> is_gap gap = true ->
  is_hour_text hs = true -> is_minute_text ms = true ->
  resolveInstant P (d ++ gap ++ hs ++ ":" ++ ms) tz =
  if (parseInt hs <? 0) || (parseInt hs >? 23) || (parseInt ms <? 0) || (parseInt ms >? 59)
  then inl (new_Error "Invalid time format")
  else checkedDate (zonedTimeToUtc P (d ++ " " ++ padStart0 2 hs ++ ":" ++ ms) tz).
Proof.
  intros Hd Hg Hh Hm.
  destruct (hour_text_shape hs Hh) as (Hhd & Hhne).
  destruct (minute_text_shape ms Hm) as (Hmd & Hmne & Hpad).
  destruct (token_shape d Hd) as (_ & Hdne & _).
  destruct (time_text_plain hs ms Hh Hm) as [HT HTne].
  unfold resolveInstant.
  pose proof (lex_date_time d gap (hs ++ ":" ++ ms) EmptyString EmptyString Hd Hg HT HTne eq_refl eq_refl) as L.
  cbv zeta in L. change (EmptyString ++ EmptyString) with EmptyString in L. rewrite !append_nil_r in L.
  destruct L as (L1 & L2 & L3).
  rewrite L1, L2, L3, Hdne. cbn [orb].
  rewrite !toUpperCase_app, (toUpperCase_digits hs), (toUpperCase_digits ms) by assumption.
  change (toUpperCase ":") with ":".
  rewrite time_match_24 by assumption.
  cbn [group group_of Nat.eqb]. rewrite Hpad.
  destruct ((parseInt hs <? 0) || (parseInt hs >? 23) || (parseInt ms <? 0) || (parseInt ms >? 59));
    reflexivity.
Qed.

Lemma resolve_12h (P : Platform) (d gap hs ms gap2 mt tz : string) :
  is_token d = true -> is_gap gap = true ->
  is_hour_text hs = true -> is_minute_text ms = true ->
  all_space gap2 = true -> is_meridiem_text mt = true ->
  resolveInstant P (d ++ gap ++ hs ++ ":" ++ ms ++ gap2 ++ mt) tz =
  if (parseInt hs <? 1) || (parseInt hs >? 12) || (parseInt ms <? 0) || (parseInt ms >? 59)
  then inl (new_Error "Invalid time format")
  else
    let hour24 :=
      if is_pm mt && negb (parseInt hs =? 12) then parseInt hs + 12
      else if negb (is_pm mt) && (parseInt hs =? 12) then 0
      else parseInt hs in
    checkedDate (zonedTimeToUtc P (d ++ " " ++ time24 hour24 ms) tz).
Proof.
  intros Hd Hg Hh Hm Hg2 Hmt.
  destruct (hour_text_shape hs Hh) as (Hhd & Hhne).
  destruct (minute_text_shape ms Hm) as (Hmd & Hmne & Hpad).
  destruct (token_shape d Hd) as (_ & Hdne & _).
  destruct (meridiem_plain mt Hmt) as [Hmts Hmtne].
  destruct (time_text_plain hs ms Hh Hm) as [HT HTne].
  unfold resolveInstant.
  pose proof (lex_date_time d gap (hs ++ ":" ++ ms) gap2 mt Hd Hg HT HTne Hg2 Hmts) as L.
  cbv zeta in L. rewrite !append_assoc in L. destruct L as (L1 & L2 & L3).
  rewrite L1, L2, L3, Hdne. cbn [orb].
  rewrite !toUpperCase_app, (toUpperCase_digits hs), (toUpperCase_digits ms) by assumption.
  change (toUpperCase ":") with ":".
  unfold is_pm.
  destruct (meridiem_upper mt Hmt) as [E|E]; rewrite E;
    rewrite time_match_12 by auto; cbn [group group_of Nat.eqb]; rewrite Hpad;
    change (toUpperCase "AM") with "AM"; change (toUpperCase "PM") with "PM";
    destruct ((parseInt hs <? 1) || (parseInt hs >? 12) || (parseInt ms <? 0)
              || (parseInt ms >? 59)); reflexivity.
Qed.

Lemma digit_val_nonneg (c : ascii) : is_digit c = true -> 0 <= digit_val c.
Proof.
  unfold is_digit, digit_val. intros H. apply andb_true_iff in H as [H _].
  apply Nat.leb_le in H. lia.
Qed.

Lemma parseInt_from_nonneg (s : string) (acc : Z) : 0 <= acc -> 0 <= parseInt_from acc s.
Proof.
  revert acc. induction s as [|c s IH]; intros acc Hacc; cbn [parseInt_from]; [assumption|].
  destruct (is_digit c) eqn:Hc; [|assumption].
  apply IH. pose proof (digit_val_nonneg c Hc). lia.
Qed.

Lemma parseInt_nonneg (s : string) : 0 <= parseInt s.
Proof. apply parseInt_from_nonneg. lia. Qed.

Lemma code_hour24 (h : Z) (pm : bool) :
  (if pm && negb (h =? 12) then h + 12
   else if negb pm && (h =? 12) then 0 else h) = to24 h pm.
Proof. unfold to24. destruct pm, (Z.eqb_spec h 12); subst; reflexivity. Qed.

Lemma hour24_text (h : Z) (pm : bool) :
  1 <= h <= 12 ->
  let HH := padStart0 2 (toString (to24 h pm)) in
  is_hour_text HH = true /\ parseInt HH = to24 h pm /\ padStart0 2 HH = HH
  /\ 0 <= to24 h pm <= 23.
Proof.
  intros Hh.
  assert (E : h = 1 \/ h = 2 \/ h = 3 \/ h = 4 \/ h = 5 \/ h = 6 \/ h = 7 \/ h = 8 \/ h = 9
              \/ h = 10 \/ h = 11 \/ h = 12) by lia.
  destruct pm; repeat (destruct E as [-> | E]); try subst h; vm_compute; intuition discriminate.
Qed.

Lemma range_ok (lo hi h m : Z) :
  lo <= h <= hi -> 0 <= m <= 59 ->
  (h <? lo) || (h >? hi) || (m <? 0) || (m >? 59) = false.
Proof.
  intros Hh Hm. repeat (apply orb_false_iff; split); try apply Z.ltb_ge; try lia;
    apply Z.gtb_ltb; apply Z.ltb_ge; lia.
Qed.

(** C1.  A 12-hour time with a meridiem marker parses to the instant of the
    corresponding 24-hour time: for every date token, gap of white space,
    hour text of one or two digits with value 1 to 12, minute text of two
    digits with value at most 59, optional white space and meridiem marker in
    any letter case, [validateScheduleTime] gives on the 12-hour text what it
    gives on the date token followed by [HH:MM], where [HH] is the hour
    converted by [to24] (12 AM to 0, 12 PM to 12, other PM hours plus 12, AM
    hours unchanged), for the same time zone and clock. *)
Theorem C1_twelve_hour_as_24_hour :
  forall (P : Platform) (now : Z) (tz d gap hs ms gap2 mt : string),
    is_token d = true -> is_gap gap = true ->
    is_hour_text hs = true -> is_minute_text ms = true ->
    all_space gap2 = true -> is_meridiem_text mt = true ->
    1 <= parseInt hs <= 12 -> parseInt ms <= 59 ->
    validateScheduleTime P now (d ++ gap ++ hs ++ ":" ++ ms ++ gap2 ++ mt) tz =
    validateScheduleTime P now (d ++ " " ++ time24 (to24 (parseInt hs) (is_pm mt)) ms) tz.
Proof.
  intros P now tz d gap hs ms gap2 mt Hd Hg Hh Hm Hg2 Hmt Hhr Hmr.
  pose proof (parseInt_nonneg ms) as Hm0.
  destruct (hour24_text (parseInt hs) (is_pm mt) Hhr) as (T1 & T2 & T3 & T4).
  unfold validateScheduleTime, validateScheduleTime_try.
  rewrite resolve_12h by assumption.
  rewrite range_ok by lia. cbv zeta. rewrite code_hour24.
  unfold time24 at 2.
  rewrite (resolve_24h P d " " _ ms tz Hd eq_refl T1 Hm).
  rewrite T2, T3, range_ok by lia.
  reflexivity.
Qed.

(** C1, two instances: on the platform of the examples, [02:30PM] and
    [14:30] of 2024-01-02 parse to the same instant; and so do [2:30 pM],
    after a gap of a space and a no-break space and with a thin space before
    the marker, and [14:30]. *)
Lemma C1_witness :
  validateScheduleTime platform NOW "2024-01-02 02:30PM" "UTC" =
  validateScheduleTime platform NOW "2024-01-02 14:30" "UTC"
  /\ validateScheduleTime platform NOW
       ("2024-01-02" ++ (" " ++ bytes [194; 160]) ++ "2" ++ ":" ++ "30"
        ++ bytes [226; 128; 137] ++ "pM") "UTC" =
     validateScheduleTime platform NOW "2024-01-02 14:30" "UTC".
Proof.
  split.
  - apply (C1_twelve_hour_as_24_hour platform NOW "UTC" "2024-01-02" " " "02" "30" EmptyString "PM");
      vm_compute; try reflexivity; intuition discriminate.
  - apply (C1_twelve_hour_as_24_hour platform NOW "UTC" "2024-01-02"
             (" " ++ bytes [194; 160]) "2" "30" (bytes [226; 128; 137]) "pM");
      vm_compute; try reflexivity; intuition discriminate.
Defined.

(** The readings of the test suite, on the platform of the examples with the
    clock at 2024-01-01T12:00:00Z: 02:30PM is 14:30, 12:00AM is 00:00 and
    12:00PM is 12:00 of the day, and 14:30 in New York is 19:30 UTC. *)
Example parser_readings :
  validateScheduleTime platform NOW "2024-01-02 02:30PM" "UTC" = inr 1704205800000
  /\ validateScheduleTime platform NOW "2024-01-02 14:30" "UTC" = inr 1704205800000
  /\ validateScheduleTime platform NOW "2024-01-02 12:00AM" "UTC" = inr 1704153600000
  /\ validateScheduleTime platform NOW "2024-01-02 00:00" "UTC" = inr 1704153600000
  /\ validateScheduleTime platform NOW "2024-01-02 12:00PM" "UTC" = inr 1704196800000
  /\ validateScheduleTime platform NOW "2024-01-02 12:00" "UTC" = inr 1704196800000
  /\ option_map sample_toISOString
       (match validateScheduleTime platform NOW "2024-01-02 14:30" "America/New_York" with
        | inr t => Some t
        | inl _ => None
        end) = Some "2024-01-02T19:30:00.000Z".
Proof. vm_compute. repeat split; reflexivity. Qed.

(** White space beyond the ASCII range: a no-break space (U+00A0, the bytes
    194 and 160) between the date and the time is a gap like any other; after
    the date it ends the date token, so that what follows is read as the
    time; on its own it is no date; and a line separator (U+2028) around the
    text is trimmed. *)
Example parser_readings_unicode :
  validateScheduleTime platform NOW ("2024-01-02" ++ bytes [194; 160] ++ "14:30") "UTC"
  = inr 1704205800000
  /\ validateScheduleTime platform NOW ("2024-01-02" ++ bytes [194; 160] ++ "1 12:30") "UTC"
     = inl (new_Error (PREFIX ++ "Invalid time format"))
  /\ validateScheduleTime platform NOW (bytes [194; 160] ++ " 12:30") "UTC"
     = inl (new_Error (PREFIX ++ "Date and time must be provided"))
  /\ validateScheduleTime platform NOW
       (bytes [226; 128; 168] ++ "2024-01-02 2:30" ++ bytes [227; 128; 128] ++ "pm"
        ++ bytes [239; 187; 191]) "UTC"
     = inr 1704205800000
  /\ is_token ("2024-01-02" ++ bytes [194; 160] ++ "1") = false
  /\ is_gap (bytes [194; 160] ++ " " ++ bytes [226; 128; 137]) = true.
Proof. vm_compute. repeat split; reflexivity. Qed.

(** C2.  For an input whose date and time resolve to the instant [t], the
    parser fails with the reason "Scheduled time must be in the future"
    exactly when [t <= now], fails with the reason "Cannot schedule more than
    30 days in advance" exactly when [t > addDays now 30], and returns [t]
    in every other case. *)
Theorem C2_window :
  forall (P : Platform) (now : Z) (s tz : string) (t : Z),
    addDays_forward P ->
    resolveInstant P s tz = inr t ->
    (validateScheduleTime P now s tz
       = inl (new_Error (PREFIX ++ "Scheduled time must be in the future"))
     <-> t <= now)
    /\ (validateScheduleTime P now s tz
          = inl (new_Error (PREFIX ++ "Cannot schedule more than 30 days in advance"))
        <-> t > addDays P now 30)
    /\ (validateScheduleTime P now s tz = inr t <-> now < t <= addDays P now 30).
Proof.
  intros P now s tz t Hfwd Hres.
  specialize (Hfwd now 30 ltac:(lia)).
  unfold validateScheduleTime, validateScheduleTime_try. rewrite Hres. cbn [bindR].
  destruct (Z.leb_spec t now) as [Hle|Hgt].
  - cbn [message new_Error].
    split; [split; intros; [assumption|reflexivity]|].
    split; (split; intros H; [|lia]).
    + vm_compute in H. discriminate H.
    + discriminate H.
  - rewrite Z.gtb_ltb. destruct (Z.ltb_spec (addDays P now 30) t) as [Hfar|Hin].
    + cbn [message new_Error].
      split; [split; intros H; [vm_compute in H; discriminate H|lia]|].
      split; [split; intros; [lia|reflexivity]|].
      split; intros H; [discriminate H|lia].
    + split; [split; intros H; [discriminate H|lia]|].
      split; [split; intros H; [discriminate H|lia]|].
      split; intros; [lia|reflexivity].
Qed.

Lemma C2_witness :
  (validateScheduleTime platform NOW "2023-12-31 14:30" "UTC"
     = inl (new_Error (PREFIX ++ "Scheduled time must be in the future"))
   <-> 1704033000000 <= NOW)
  /\ (validateScheduleTime platform NOW "2023-12-31 14:30" "UTC"
        = inl (new_Error (PREFIX ++ "Cannot schedule more than 30 days in advance"))
      <-> 1704033000000 > addDays platform NOW 30)
  /\ (validateScheduleTime platform NOW "2023-12-31 14:30" "UTC" = inr 1704033000000
      <-> NOW < 1704033000000 <= addDays platform NOW 30).
Proof.
  apply (C2_window platform NOW "2023-12-31 14:30" "UTC" 1704033000000).
  - intros t n Hn. unfold platform, addDays, MS_PER_DAY. lia.
  - vm_compute. reflexivity.
Defined.

Lemma trimStart_spaces (s : string) : all_space s = true -> trimStart s = EmptyString.
Proof.
  intros H. rewrite <- (append_nil_r s). rewrite trimStart_all_space by assumption. reflexivity.
Qed.

(** A text without white space, with white space around it, trims to it. *)
Lemma trim_padded (lead d trail : string) :
  all_space lead = true -> no_space d = true -> all_space trail = true ->
  trim (lead ++ d ++ trail) = d.
Proof.
  intros Hl Hd Ht. unfold trim. rewrite trimStart_all_space by assumption.
  destruct d as [|c d].
  - simpl. rewrite trimStart_spaces by assumption. reflexivity.
  - rewrite trimStart_no_space
      by (assumption || discriminate || (apply starts_char_space; assumption)).
    apply trimEnd_no_space_app; assumption.
Qed.

Lemma resolve_bare_date (P : Platform) (lead d trail tz : string) :
  all_space lead = true -> no_space d = true -> all_space trail = true ->
  resolveInstant P (lead ++ d ++ trail) tz = inl (new_Error "Date and time must be provided").
Proof.
  intros Hl Hd Ht. unfold resolveInstant.
  rewrite trim_padded, split_ws_single by assumption.
  cbn [hd tl join]. rewrite orb_true_r. reflexivity.
Qed.

Lemma validate_of_resolve_error (P : Platform) (now : Z) (s tz reason : string) :
  resolveInstant P s tz = inl (new_Error reason) ->
  validateScheduleTime P now s tz = inl (new_Error (PREFIX ++ reason)).
Proof.
  intros H. unfold validateScheduleTime, validateScheduleTime_try. rewrite H. reflexivity.
Qed.

Lemma range_bad_hour (lo hi h m : Z) :
  h > hi -> (h <? lo) || (h >? hi) || (m <? 0) || (m >? 59) = true.
Proof.
  intros Hh. replace (h >? hi) with true; [rewrite orb_true_r; reflexivity|].
  symmetry. rewrite Z.gtb_ltb. apply Z.ltb_lt. lia.
Qed.

Lemma range_bad_minute (lo hi h m : Z) :
  m > 59 -> (h <? lo) || (h >? hi) || (m <? 0) || (m >? 59) = true.
Proof.
  intros Hm. replace (m >? 59) with true; [rewrite orb_true_r; reflexivity|].
  symmetry. rewrite Z.gtb_ltb. apply Z.ltb_lt. lia.
Qed.

(** C3.  The parser rejects hour 13 with a meridiem marker, hour 25 without
    one and minute 60 in either form with the reason "Invalid time format";
    a date alone, with or without white space around it, is rejected with
    the reason "Date and time must be provided"; and the message of every
    failure of the parser is the prefix "Invalid date/time format: " followed
    by the reason thrown inside it. *)
Theorem C3_rejections :
  forall (P : Platform) (now : Z) (tz : string),
    (forall d gap ms gap2 mt,
        is_token d = true -> is_gap gap = true -> is_minute_text ms = true ->
        all_space gap2 = true -> is_meridiem_text mt = true ->
        validateScheduleTime P now (d ++ gap ++ "13" ++ ":" ++ ms ++ gap2 ++ mt) tz
        = inl (new_Error (PREFIX ++ "Invalid time format")))
    /\ (forall d gap ms,
        is_token d = true -> is_gap gap = true -> is_minute_text ms = true ->
        validateScheduleTime P now (d ++ gap ++ "25" ++ ":" ++ ms) tz
        = inl (new_Error (PREFIX ++ "Invalid time format")))
    /\ (forall d gap hs,
        is_token d = true -> is_gap gap = true -> is_hour_text hs = true ->
        validateScheduleTime P now (d ++ gap ++ hs ++ ":" ++ "60") tz
        = inl (new_Error (PREFIX ++ "Invalid time format")))
    /\ (forall d gap hs gap2 mt,
        is_token d = true -> is_gap gap = true -> is_hour_text hs = true ->
        all_space gap2 = true -> is_meridiem_text mt = true ->
        validateScheduleTime P now (d ++ gap ++ hs ++ ":" ++ "60" ++ gap2 ++ mt) tz
        = inl (new_Error (PREFIX ++ "Invalid time format")))
    /\ (forall lead d trail,
        all_space lead = true -> no_space d = true -> all_space trail = true ->
        validateScheduleTime P now (lead ++ d ++ trail) tz
        = inl (new_Error (PREFIX ++ "Date and time must be provided")))
    /\ (forall s error,
        validateScheduleTime P now s tz = inl error ->
        exists reason,
          validateScheduleTime_try P now s tz = inl reason
          /\ error = new_Error (PREFIX ++ message reason)).
Proof.
  intros P now tz. repeat apply conj.
  - intros d gap ms gap2 mt Hd Hg Hm Hg2 Hmt. apply validate_of_resolve_error.
    rewrite resolve_12h by auto. rewrite range_bad_hour; [reflexivity|].
    vm_compute. reflexivity.
  - intros d gap ms Hd Hg Hm. apply validate_of_resolve_error.
    rewrite resolve_24h by auto. rewrite range_bad_hour; [reflexivity|].
    vm_compute. reflexivity.
  - intros d gap hs Hd Hg Hh. apply validate_of_resolve_error.
    rewrite resolve_24h by auto. rewrite range_bad_minute; [reflexivity|].
    vm_compute. reflexivity.
  - intros d gap hs gap2 mt Hd Hg Hh Hg2 Hmt. apply validate_of_resolve_error.
    rewrite resolve_12h by auto. rewrite range_bad_minute; [reflexivity|].
    vm_compute. reflexivity.
  - intros lead d trail Hl Hd Ht. apply validate_of_resolve_error.
    apply resolve_bare_date; assumption.
  - intros s error H. unfold validateScheduleTime in H.
    destruct (validateScheduleTime_try P now s tz) as [reason|t]; [|discriminate H].
    exists reason. split; [reflexivity|]. injection H as H. symmetry. exact H.
Qed.

(** C3 on the inputs of the test suite. *)
Lemma C3_witness :
  validateScheduleTime platform NOW "2024-01-02 13:00PM" "UTC"
    = inl (new_Error (PREFIX ++ "Invalid time format"))
  /\ validateScheduleTime platform NOW "2024-01-02 25:00" "UTC"
    = inl (new_Error (PREFIX ++ "Invalid time format"))
  /\ validateScheduleTime platform NOW "2024-01-02 12:60" "UTC"
    = inl (new_Error (PREFIX ++ "Invalid time format"))
  /\ validateScheduleTime platform NOW "2024-01-02 12:60 pm" "UTC"
    = inl (new_Error (PREFIX ++ "Invalid time format"))
  /\ validateScheduleTime platform NOW "2024-01-02" "UTC"
    = inl (new_Error (PREFIX ++ "Date and time must be provided"))
  /\ exists reason,
       validateScheduleTime_try platform NOW "2024-02-15 14:30" "UTC" = inl reason
       /\ new_Error "Invalid date/time format: Cannot schedule more than 30 days in advance"
          = new_Error (PREFIX ++ message reason).
Proof.
  destruct (C3_rejections platform NOW "UTC") as (R1 & R2 & R3 & R4 & R5 & R6).
  split; [exact (R1 "2024-01-02" " " "00" EmptyString "PM" eq_refl eq_refl eq_refl eq_refl eq_refl)|].
  split; [exact (R2 "2024-01-02" " " "00" eq_refl eq_refl eq_refl)|].
  split; [exact (R3 "2024-01-02" " " "12" eq_refl eq_refl eq_refl)|].
  split; [exact (R4 "2024-01-02" " " "12" " " "pm" eq_refl eq_refl eq_refl eq_refl eq_refl)|].
  split; [exact (R5 EmptyString "2024-01-02" EmptyString eq_refl eq_refl eq_refl)|].
  apply (R6 "2024-02-15 14:30"). vm_compute. reflexivity.
Defined.

(* ================================================================== *)
(** ** Facts about host computations *)
(* ================================================================== *)

Section MonadFacts.

Context {W : Type}.

Lemma attempts_app (l1 l2 : list Event) :
  attempts (l1 ++ l2)%list = (attempts l1 ++ attempts l2)%list.
Proof. apply flat_map_app. Qed.

Lemma quiet_ret {A : Type} (a : A) : quiet (ret (W := W) a).
Proof. intros w. reflexivity. Qed.

Lemma quiet_throw {A : Type} (e : Error) : quiet (throw (W := W) (A := A) e).
Proof. intros w. reflexivity. Qed.


Lemma emits_call {A : Type} (c : Call) (op : W -> Result A * W) :
  emits (call c op) (attempt_of (c, None)).
Proof.
  intros w. unfold call. destruct (op w) as [[e|a] w1]; cbn; rewrite app_nil_r; reflexivity.
Qed.

Lemma emits_bind {A B : Type} (m : M W A) (k : A -> M W B) xs :
  emits m xs -> (forall a, quiet (k a)) -> emits (bind m k) xs.
Proof.
  intros Hm Hk w. unfold bind. specialize (Hm w).
  destruct (m w) as [[[e|a] w1] l1]; [exact Hm|].
  specialize (Hk a w1). destruct (k a w1) as [[r w2] l2].
  unfold calls in *. cbn [snd] in *. rewrite attempts_app, Hm, Hk. apply app_nil_r.
Qed.

Lemma emits_tryCatch {A : Type} (m : M W A) (h : Error -> M W A) xs :
  emits m xs -> (forall e, quiet (h e)) -> emits (tryCatch m h) xs.
Proof.
  intros Hm Hh w. unfold tryCatch. specialize (Hm w).
  destruct (m w) as [[[e|a] w1] l1]; [|exact Hm].
  specialize (Hh e w1). destruct (h e w1) as [[r w2] l2].
  unfold calls in *. cbn [snd] in *. rewrite attempts_app, Hm, Hh. apply app_nil_r.
Qed.

Lemma quiet_rethrow {A : Type} (m : M W A) : quiet m -> quiet (rethrow m).
Proof. intros Hm. apply emits_tryCatch; [assumption|]. intros e. apply quiet_throw. Qed.

Lemma quiet_forEach {X : Type} (xs : list X) (body : X -> M W unit) :
  (forall x, quiet (body x)) -> quiet (forEach xs body).
Proof.
  intros Hb. induction xs as [|x xs IH]; cbn [forEach].
  - apply quiet_ret.
  - apply emits_bind; [apply Hb|]. intros _. exact IH.
Qed.


(** [rethrow] changes nothing but the action's log. *)
Lemma rethrow_run {A : Type} (m : M W A) (w : W) : rethrow m w = m w.
Proof.
  unfold rethrow, tryCatch, throw. destruct (m w) as [[[e|a] w1] l1]; [|reflexivity].
  rewrite app_nil_r. reflexivity.
Qed.

End MonadFacts.

Section SweepFacts.

Context {W : Type}.
Variable H : Host W.
Variable P : Platform.

Lemma quiet_createComment owner repo n text : quiet (createComment H owner repo n text).
Proof. apply quiet_rethrow. apply (emits_call (CreateComment owner repo n text)). Qed.

Lemma quiet_removeScheduleInfo owner repo n : quiet (removeScheduleInfo H owner repo n).
Proof.
  apply quiet_rethrow. apply emits_bind.
  - apply emits_tryCatch; [apply (emits_call (RemoveLabel owner repo n SCHEDULE_LABEL))|].
    intros e. destruct (negb (has_status e 404)); [apply quiet_throw|apply quiet_ret].
  - intros _. apply emits_bind; [apply (emits_call (ListComments owner repo n 100))|].
    intros comments. apply quiet_forEach. intros c.
    apply (emits_call (DeleteComment owner repo (comment_id c))).
Qed.



(** Whatever the host answers, [mergePR] asks it once for the pull request. *)
Lemma emits_mergePR owner repo n : emits (mergePR H owner repo n) [(owner, repo, n)].
Proof.
  unfold mergePR. apply emits_tryCatch.
  - apply emits_bind.
    + apply emits_tryCatch.
      * apply emits_bind; [apply (emits_call (PullsGet owner repo n))|].
        intros pr. destruct (negb (mergeable pr)); [|apply quiet_ret].
        apply emits_bind; [apply quiet_createComment|]. intros; apply quiet_throw.
      * intros e. destruct (has_status e 404); [|apply quiet_throw].
        apply emits_bind; [apply quiet_createComment|]. intros; apply quiet_throw.
    + intros _. apply emits_tryCatch.
      * apply emits_bind; [apply (emits_call (PullsMerge owner repo n "squash"))|].
        intros _. apply emits_bind; [apply quiet_createComment|].
        intros _. apply quiet_removeScheduleInfo.
      * intros e. apply emits_bind; [apply quiet_createComment|]. intros; apply quiet_throw.
  - intros e. apply emits_bind; [|intros; apply quiet_throw].
    destruct (negb _); [apply quiet_createComment|apply quiet_ret].
Qed.

End SweepFacts.

Section SweepTheorems.

Context {W : Type}.
Variable H : Host W.
Variable P : Platform.

(** A [try] whose handler only continues never throws. *)
Lemma tryCatch_continue (m : M W unit) (w : W) :
  outcome (tryCatch m (fun _ => ret tt) w) = inr tt.
Proof.
  unfold tryCatch, ret, outcome. destruct (m w) as [[[e|[]] w1] l1]; reflexivity.
Qed.

Lemma processCandidates_cons now pr prs :
  processCandidates H now (pr :: prs)
  = bind (candidate_step H now pr) (fun _ => processCandidates H now prs).
Proof. reflexivity. Qed.

Lemma candidate_step_emits now pr :
  emits (candidate_step H now pr) (if due now pr then [candidate_key pr] else []).
Proof.
  unfold candidate_step, due. apply emits_tryCatch; [|intros; apply quiet_ret].
  cbv zeta. destruct (scheduleTime pr <=? now); [|apply quiet_ret].
  apply emits_tryCatch; [|intros; apply quiet_ret]. apply emits_mergePR.
Qed.

(** A candidate that is not due is passed over: no call, no change. *)
Lemma candidate_step_future now pr w :
  due now pr = false -> candidate_step H now pr w = (inr tt, w, []).
Proof. unfold candidate_step, due. intros ->. reflexivity. Qed.

Lemma processCandidates_run now prs w :
  outcome (processCandidates H now prs w) = inr tt
  /\ attempts (calls (processCandidates H now prs w))
     = map candidate_key (filter (due now) prs).
Proof.
  revert w. induction prs as [|pr prs IH]; intros w.
  - split; reflexivity.
  - rewrite processCandidates_cons. unfold bind.
    pose proof (tryCatch_continue
                  (if scheduleTime pr <=? now then
                     tryCatch (mergePR H (pr_owner pr) (pr_repo pr) (pr_number pr))
                              (fun _ => ret tt)
                   else ret tt) w) as Hout.
    pose proof (candidate_step_emits now pr w) as Hem.
    change (tryCatch _ _ w) with (candidate_step H now pr w) in Hout.
    destruct (candidate_step H now pr w) as [[r w1] l1].
    unfold outcome in Hout. cbn [fst] in Hout. subst r.
    destruct (IH w1) as [IH1 IH2].
    destruct (processCandidates H now prs w1) as [[r2 w2] l2].
    unfold outcome, calls in *. cbn [fst snd] in *. split; [assumption|].
    rewrite attempts_app, Hem, IH2. cbn [filter].
    destruct (due now pr); reflexivity.
Qed.

(** The client is built inside the [try] statement of the sweep: what
    [getOctokit] throws is thrown by the sweep, before any call. *)
Lemma processScheduledMerges_run token now w :
  processScheduledMerges H P token now w
  = match getOctokit token with
    | inl e => (inl e, w, [])
    | inr _ => bind (getScheduledPRs H P) (fun prs => processCandidates H now prs) w
    end.
Proof.
  unfold processScheduledMerges. rewrite rethrow_run.
  destruct (getOctokit token) as [e|[]]; [reflexivity|].
  unfold bind, lift.
  destruct (getScheduledPRs H P w) as [[[e|prs] w1] l1]; [reflexivity|].
  destruct (processCandidates H now prs w1) as [[r2 w2] l2]. reflexivity.
Qed.

Lemma processScheduledMerges_client token now w :
  token <> EmptyString ->
  processScheduledMerges H P token now w
  = bind (getScheduledPRs H P) (fun prs => processCandidates H now prs) w.
Proof.
  intros Ht. rewrite processScheduledMerges_run. unfold getOctokit.
  apply String.eqb_neq in Ht. rewrite Ht. reflexivity.
Qed.

End SweepTheorems.



Section DiscoveryTheorems.

Context {W : Type}.
Variable H : Host W.
Variable P : Platform.








End DiscoveryTheorems.


Lemma includes_unfold (s needle : string) :
  includes s needle =
  startsWith s needle || match s with EmptyString => false | String _ s' => includes s' needle end.
Proof. destruct s; reflexivity. Qed.

Lemma startsWith_app (p x : string) : startsWith (p ++ x) p = true.
Proof.
  induction p as [|c p IH]; simpl; [destruct x; reflexivity|].
  rewrite Ascii.eqb_refl, IH. reflexivity.
Qed.

Lemma includes_prefix (p x : string) : includes (p ++ x) p = true.
Proof. rewrite includes_unfold, startsWith_app. reflexivity. Qed.

Lemma includes_app_l (a s needle : string) :
  includes s needle = true -> includes (a ++ s) needle = true.
Proof.
  intros Hs. induction a as [|c a IH]; [assumption|].
  simpl append. rewrite includes_unfold, IH. apply orb_true_r.
Qed.

Section MergeTheorems.

Context {W : Type}.
Variable H : Host W.

Lemma createComment_accepted owner repo n text w :
  posts_accepted H ->
  createComment H owner repo n text w
  = (inr tt, snd (issues_createComment H owner repo n text w),
     [(CreateComment owner repo n text, None)]).
Proof.
  intros Hp. unfold createComment. rewrite rethrow_run. unfold call.
  specialize (Hp owner repo n text w).
  destruct (issues_createComment H owner repo n text w) as [r w1]. cbn [fst snd] in *.
  subst r. reflexivity.
Qed.

End MergeTheorems.

(** C10.  When [mergePR] finds the pull request not mergeable, or the fetch
    fails with status 404, the same failure comment is posted twice: once
    where the condition is detected and once by the outermost handler, the
    message of the thrown error not containing "Failed to merge PR".  When
    the merge operation itself fails, the failure comment is posted once.
    The host is taken to accept the comments. *)
Theorem C10_failure_comment_count :
  forall {W : Type} (H : Host W),
  posts_accepted H ->
  forall owner repo n w,
    (forall pr w1,
        pulls_get H owner repo n w = (inr pr, w1) -> mergeable pr = false ->
        posts (calls (mergePR H owner repo n w))
        = ["❌ Failed to merge PR: " ++ NOT_MERGEABLE; "❌ Failed to merge PR: " ++ NOT_MERGEABLE]
        /\ outcome (mergePR H owner repo n w) = inl (new_Error NOT_MERGEABLE)
        /\ includes NOT_MERGEABLE "Failed to merge PR" = false)
    /\ (forall error w1,
        pulls_get H owner repo n w = (inl error, w1) -> has_status error 404 = true ->
        posts (calls (mergePR H owner repo n w))
        = ["❌ Failed to merge PR: " ++ NOT_FOUND; "❌ Failed to merge PR: " ++ NOT_FOUND]
        /\ outcome (mergePR H owner repo n w) = inl (new_Error NOT_FOUND)
        /\ includes NOT_FOUND "Failed to merge PR" = false)
    /\ (forall pr w1 mergeError w2,
        pulls_get H owner repo n w = (inr pr, w1) -> mergeable pr = true ->
        pulls_merge H owner repo n "squash" w1 = (inl mergeError, w2) ->
        posts (calls (mergePR H owner repo n w))
        = ["❌ " ++ "Failed to merge PR: " ++ merge_failure_detail mergeError]
        /\ outcome (mergePR H owner repo n w)
           = inl (new_Error ("Failed to merge PR: " ++ merge_failure_detail mergeError))).
Proof.
  intros W H Hp owner repo n w. repeat apply conj.
  - intros pr w1 Hget Hm.
    unfold mergePR, tryCatch, bind, call, throw. rewrite Hget, Hm. cbn [negb].
    rewrite createComment_accepted by assumption. cbn [has_status status new_Error message].
    change (includes "PR is not mergeable. There might be conflicts." "Failed to merge PR")
      with false. cbn [negb].
    rewrite createComment_accepted by assumption. repeat split.
  - intros error w1 Hget Hs.
    unfold mergePR, tryCatch, bind, call, throw. rewrite Hget, Hs.
    rewrite createComment_accepted by assumption. cbn [new_Error message].
    change (includes "PR not found or you may not have permission to merge." "Failed to merge PR")
      with false. cbn [negb].
    rewrite createComment_accepted by assumption. repeat split.
  - intros pr w1 mergeError w2 Hget Hm Hmerge.
    unfold mergePR, tryCatch, bind, call, throw, ret. rewrite Hget, Hm. cbn [negb].
    rewrite Hmerge. fold (merge_failure_detail mergeError).
    rewrite createComment_accepted by assumption. cbn [new_Error message].
    replace (includes ("Failed to merge PR: " ++ merge_failure_detail mergeError)
                      "Failed to merge PR")
      with true
      by (symmetry;
          apply (includes_prefix "Failed to merge PR" (": " ++ merge_failure_detail mergeError))).
    cbn [negb]. split; reflexivity.
Qed.

Section CommandTheorems.

Context {W : Type}.
Variable H : Host W.
Variable P : Platform.

(** The client is built before the [try] statement of [handleComment]: what
    [getOctokit] throws reaches the caller, and no call has been made. *)
Lemma handleComment_run token cid now repository n text w :
  handleComment H P token cid now repository n text w
  = match getOctokit token with
    | inl e => (inl e, w, [])
    | inr _ => handleComment_try H P cid now repository n text w
    end.
Proof.
  unfold handleComment. destruct (getOctokit token) as [e|[]]; [reflexivity|].
  unfold bind, lift.
  destruct (handleComment_try H P cid now repository n text w) as [[r w1] l1]. reflexivity.
Qed.

Lemma getOctokit_client token : token <> EmptyString -> getOctokit token = inr tt.
Proof. intros Ht. unfold getOctokit. apply String.eqb_neq in Ht. rewrite Ht. reflexivity. Qed.

Lemma handleComment_client token cid now repository n text w :
  token <> EmptyString ->
  handleComment H P token cid now repository n text w
  = handleComment_try H P cid now repository n text w.
Proof. intros Ht. rewrite handleComment_run, getOctokit_client by assumption. reflexivity. Qed.

Lemma ends_with_post_app owner repo n (l1 l2 : list Event) :
  ends_with_post owner repo n l2 -> ends_with_post owner repo n (l1 ++ l2).
Proof.
  intros (l' & text & ->). exists (l1 ++ l')%list, text. apply app_assoc.
Qed.

Lemma posting_throw owner repo n {A : Type} (e : Error) :
  posting owner repo n (throw (W := W) (A := A) e).
Proof. intros w. exact I. Qed.

Lemma posting_bind owner repo n {A B : Type} (m : M W A) (k : A -> M W B) :
  (forall a, posting owner repo n (k a)) -> posting owner repo n (bind m k).
Proof.
  intros Hk w. unfold bind. destruct (m w) as [[[e|a] w1] l1]; [exact I|].
  specialize (Hk a w1). destruct (k a w1) as [[[e|b] w2] l2]; [exact I|].
  apply ends_with_post_app. assumption.
Qed.

Lemma posting_tryCatch owner repo n {A : Type} (m : M W A) (h : Error -> M W A) :
  posting owner repo n m -> (forall e, posting owner repo n (h e)) ->
  posting owner repo n (tryCatch m h).
Proof.
  intros Hm Hh w. unfold tryCatch. specialize (Hm w).
  destruct (m w) as [[[e|a] w1] l1]; [|assumption].
  specialize (Hh e w1). destruct (h e w1) as [[[e'|b] w2] l2]; [exact I|].
  apply ends_with_post_app. assumption.
Qed.

Lemma posting_rethrow owner repo n {A : Type} (m : M W A) :
  posting owner repo n m -> posting owner repo n (rethrow m).
Proof. intros Hm w. rewrite rethrow_run. apply Hm. Qed.

(** What escapes a [try] whose handler posts a comment is the refusal of
    that comment. *)
Lemma tryCatch_post_escape (m : M W unit) owner repo n text w error :
  outcome (tryCatch m (fun _ => createComment H owner repo n text) w) = inl error ->
  exists l, calls (tryCatch m (fun _ => createComment H owner repo n text) w)
            = (l ++ [(CreateComment owner repo n text, Some error)])%list.
Proof.
  unfold tryCatch. destruct (m w) as [[[e|[]] w1] l1].
  - unfold createComment. rewrite rethrow_run. unfold call.
    destruct (issues_createComment H owner repo n text w1) as [[e'|[]] w2];
      unfold outcome, calls; cbn [fst snd]; intros E; [|discriminate E].
    injection E as ->. exists l1. reflexivity.
  - unfold outcome. cbn [fst]. discriminate.
Qed.

Hypothesis accepted : posts_accepted H.

Lemma tryCatch_post_returns (m : M W unit) owner repo n text w :
  outcome (tryCatch m (fun _ => createComment H owner repo n text) w) = inr tt.
Proof.
  unfold tryCatch. destruct (m w) as [[[e|[]] w1] l1]; [|reflexivity].
  rewrite createComment_accepted by assumption. reflexivity.
Qed.

Lemma posting_createComment owner repo n text :
  posting owner repo n (createComment H owner repo n text).
Proof.
  intros w. rewrite createComment_accepted by assumption. exists [], text. reflexivity.
Qed.

Lemma posting_storeScheduleInfo owner repo n t localTime utcTime tz :
  posting owner repo n (storeScheduleInfo H P owner repo n t localTime utcTime tz).
Proof.
  apply posting_rethrow. apply posting_bind. intros _. apply posting_createComment.
Qed.

(** The [try] statement of [handleComment]. *)
Lemma posting_handleComment_try cid now repository n text :
  posting (repo_owner repository) (repo_name repository) n
          (handleComment_try H P cid now repository n text).
Proof.
  unfold handleComment_try. cbv zeta.
  apply posting_tryCatch; [|intros; apply posting_createComment].
  apply posting_bind. intros author. apply posting_bind. intros allowed.
  destruct (negb allowed); [apply posting_createComment|].
  destruct (includes text CANCEL_COMMAND).
  - apply posting_bind. intros _. apply posting_createComment.
  - destruct (exec COMMAND_REGEX text) as [m|]; [|apply posting_createComment].
    apply posting_tryCatch; [|intros; apply posting_createComment].
    do 4 (apply posting_bind; intros ?). apply posting_storeScheduleInfo.
Qed.

Lemma handleComment_try_returns cid now repository n text w :
  outcome (handleComment_try H P cid now repository n text w) = inr tt.
Proof. unfold handleComment_try. cbv zeta. apply tryCatch_post_returns. Qed.

End CommandTheorems.

(** C9, as amended.  [handleComment] passes an error on to its caller in two
    cases only.  The client cannot be built from the token: the error is the
    one of [getOctokit], thrown before the [try] statement, and no call has
    been made, so nothing is posted.  Or the host refuses the comment of the
    outermost handler, and the error is the one of that refusal.  With a
    token, on a host that accepts the comments, for every input and every
    outcome of the author lookup, the permission check, the parser and the
    storage, [handleComment] returns, and the last thing it does is to post a
    comment on the pull request. *)
Theorem C9_only_the_last_post_escapes :
  forall {W : Type} (H : Host W) (P : Platform) (token : string) (cid now : Z)
         (repository : string) (n : Z) (text : string) (w : W),
    let owner := repo_owner repository in
    let repo := repo_name repository in
    let run := handleComment H P token cid now repository n text w in
    (forall error,
        outcome run = inl error ->
        (getOctokit token = inl error /\ calls run = [] /\ final run = w)
        \/ (getOctokit token = inr tt
            /\ exists l,
                 calls run
                 = (l ++ [(CreateComment owner repo n GENERIC_FAILURE, Some error)])%list))
    /\ (token <> EmptyString -> posts_accepted H ->
        outcome run = inr tt /\ ends_with_post owner repo n (calls run))
    /\ (token = EmptyString ->
        run = (inl (new_Error "Parameter token or opts.auth is required"), w, [])).
Proof.
  intros W H P token cid now repository n text w owner repo run.
  split; [|split; [|intros Ht; subst run; rewrite Ht; reflexivity]].
  - intros error. subst run owner repo. rewrite handleComment_run.
    destruct (getOctokit token) as [e|[]].
    + unfold outcome, calls, final. cbn [fst snd]. intros E. injection E as ->. left. auto.
    + intros E. right. split; [reflexivity|]. revert E. unfold handleComment_try. cbv zeta.
      apply tryCatch_post_escape.
  - intros Ht Hacc. subst run. rewrite handleComment_client by assumption.
    pose proof (posting_handleComment_try H P Hacc cid now repository n text w) as Hp.
    pose proof (handleComment_try_returns H P Hacc cid now repository n text w) as Hout.
    fold owner repo in Hp. split; [assumption|].
    destruct (handleComment_try H P cid now repository n text w) as [[r w1] l1].
    unfold outcome in Hout. cbn [fst] in Hout. subst r. exact Hp.
Qed.

(* ================================================================== *)
(** ** The schedule state on the model host *)
(* ================================================================== *)

Section ListFacts.

Context {A B : Type}.

Lemma distinct_NoDup (l : list Z) : distinct l = true -> NoDup l.
Proof.
  induction l as [|x l IH]; simpl; intros Hd; constructor.
  - apply andb_true_iff in Hd as [Hx _]. apply negb_true_iff in Hx.
    intros Hin. assert (existsb (Z.eqb x) l = true); [|congruence].
    apply existsb_exists. exists x. split; [assumption|apply Z.eqb_refl].
  - apply andb_true_iff in Hd as [_ Hl]. auto.
Qed.

(** Keys that are distinct stay distinct when entries are dropped. *)
Lemma NoDup_map_filter (keep : A -> bool) (key : A -> B) (xs : list A) :
  NoDup (map key xs) -> NoDup (map key (filter keep xs)).
Proof.
  induction xs as [|x xs IH]; simpl; intros Hn; [constructor|].
  inversion Hn as [|? ? Hx Hl]; subst. destruct (keep x); simpl; auto.
  constructor; auto. intros Hin. apply Hx.
  apply in_map_iff in Hin as (y & Hy & Hin). apply filter_In in Hin as [Hin _].
  apply in_map_iff. eauto.
Qed.

Lemma In_firstn (n : nat) (l : list A) (x : A) : In x (firstn n l) -> In x l.
Proof.
  revert l. induction n as [|n IH]; intros l; simpl; [contradiction|].
  destruct l as [|y l]; simpl; [contradiction|]. intros [->|Hin]; auto.
Qed.

Lemma NoDup_map_firstn (f : A -> B) (n : nat) (l : list A) :
  NoDup (map f l) -> NoDup (map f (firstn n l)).
Proof.
  revert l. induction n as [|n IH]; intros l Hn; simpl; [constructor|].
  destruct l as [|x l]; simpl; [constructor|].
  inversion Hn as [|? ? Hx Hl]; subst. constructor; auto.
  intros Hin. apply Hx. apply in_map_iff in Hin as (y & Hy & Hin).
  apply in_map_iff. exists y. split; [assumption|]. eapply In_firstn; eassumption.
Qed.

Lemma filter_map_comm (f : A -> B) (p : B -> bool) (l : list A) :
  filter p (map f l) = map f (filter (fun a => p (f a)) l).
Proof.
  induction l as [|x l IH]; simpl; [reflexivity|].
  destruct (p (f x)); simpl; congruence.
Qed.

Lemma filter_filter (p q : A -> bool) (l : list A) :
  filter p (filter q l) = filter (fun x => q x && p x) l.
Proof.
  induction l as [|x l IH]; simpl; [reflexivity|].
  destruct (q x); simpl; [destruct (p x)|]; congruence.
Qed.

Lemma filter_none (p : A -> bool) (l : list A) :
  (forall x, In x l -> p x = false) -> filter p l = [].
Proof.
  induction l as [|x l IH]; simpl; intros Hp; [reflexivity|].
  rewrite (Hp x) by auto. apply IH. auto.
Qed.

Lemma filter_all (p : A -> bool) (l : list A) :
  (forall x, In x l -> p x = true) -> filter p l = l.
Proof.
  induction l as [|x l IH]; simpl; intros Hp; [reflexivity|].
  rewrite (Hp x) by auto. f_equal. apply IH. auto.
Qed.

Lemma existsb_false_forall (p : A -> bool) (l : list A) :
  existsb p l = false -> forall x, In x l -> p x = false.
Proof.
  intros He x Hin. destruct (p x) eqn:Hp; [|reflexivity].
  assert (existsb p l = true) by (apply existsb_exists; eauto). congruence.
Qed.

Lemma filter_nil_existsb (p : A -> bool) (l : list A) :
  filter p l = [] -> existsb p l = false.
Proof.
  intros Hf. destruct (existsb p l) eqn:He; [|reflexivity].
  apply existsb_exists in He as (x & Hin & Hp).
  assert (In x (filter p l)) by (apply filter_In; auto). rewrite Hf in *. contradiction.
Qed.

End ListFacts.

Section ModelHost.

Import GitHub.

Lemma with_comments_same (st : State) : with_comments st (st_comments st) = st.
Proof. destruct st; reflexivity. Qed.

Lemma has_id_of_issue owner repo n (g : GComment) :
  on_issue owner repo n g = true -> has_id owner repo (gc_id g) g = true.
Proof.
  unfold on_issue, has_id. intros Hon.
  apply andb_true_iff in Hon as [Hon _]. rewrite Hon. apply Z.eqb_refl.
Qed.

Lemma has_id_id owner repo id (g : GComment) : has_id owner repo id g = true -> gc_id g = id.
Proof.
  unfold has_id. intros Hh. apply andb_true_iff in Hh as [_ Hh]. apply Z.eqb_eq. assumption.
Qed.

(** The deletions of [removeScheduleInfo]: comments with distinct
    identifiers that are on the host are deleted one after the other. *)
Lemma delete_loop owner repo (L : list Comment) (st : State) :
  NoDup (map comment_id L) ->
  (forall c, In c L -> existsb (has_id owner repo (comment_id c)) (st_comments st) = true) ->
  exists l,
    forEach L (fun comment =>
      call (DeleteComment owner repo (comment_id comment))
           (issues_deleteComment host owner repo (comment_id comment))) st
    = (inr tt,
       with_comments st (filter (fun g => negb (targets L owner repo g)) (st_comments st)),
       l).
Proof.
  revert st. induction L as [|a L IH]; intros st Hnd Hex.
  - exists []. cbn [forEach]. unfold ret, targets. cbn [existsb negb].
    rewrite filter_all by reflexivity. rewrite with_comments_same. reflexivity.
  - inversion Hnd as [|? ? Ha HL]; subst.
    cbn [forEach]. unfold bind, call at 1.
    change (issues_deleteComment host owner repo (comment_id a) st)
      with (deleteComment owner repo (comment_id a) st).
    unfold deleteComment at 1. rewrite (Hex a) by (left; reflexivity).
    set (st1 := with_comments st
                  (filter (fun c => negb (has_id owner repo (comment_id a) c)) (st_comments st))).
    destruct (IH st1 HL) as [l Hl].
    { intros c Hc. specialize (Hex c (or_intror Hc)).
      apply existsb_exists in Hex as (g & Hg & Hid).
      apply existsb_exists. exists g. split; [|assumption].
      subst st1. cbn [st_comments with_comments]. apply filter_In. split; [assumption|].
      apply negb_true_iff. destruct (has_id owner repo (comment_id a) g) eqn:Ea; [|reflexivity].
      exfalso. apply Ha. apply has_id_id in Ea. apply has_id_id in Hid.
      apply in_map_iff. exists c. split; [congruence|assumption]. }
    rewrite Hl. eexists. f_equal. f_equal.
    subst st1. unfold with_comments. cbn [st_comments st_labels st_collaborators st_pulls st_next_id].
    f_equal. rewrite filter_filter. apply filter_ext. intros g.
    unfold targets. cbn [existsb]. rewrite negb_orb. reflexivity.
Qed.

Lemma listed_markers_ids (st : State) owner repo n :
  NoDup (map gc_id (st_comments st)) ->
  NoDup (map comment_id (listed_markers st owner repo n)).
Proof.
  intros Hnd. unfold listed_markers. rewrite filter_map_comm, map_map.
  change (fun x => comment_id (view x)) with gc_id.
  apply NoDup_map_filter, NoDup_map_firstn. unfold issue_comments.
  apply NoDup_map_filter. assumption.
Qed.

Lemma listed_markers_exist (st : State) owner repo n (c : Comment) :
  In c (listed_markers st owner repo n) ->
  exists g, In g (st_comments st) /\ c = view g /\ on_issue owner repo n g = true
            /\ is_marker c = true.
Proof.
  unfold listed_markers. intros Hin. apply filter_In in Hin as [Hin Hm].
  apply in_map_iff in Hin as (g & <- & Hg). apply In_firstn in Hg.
  unfold issue_comments in Hg. apply filter_In in Hg as [Hg Hon]. eauto.
Qed.

Lemma delete_markers_run (st : State) owner repo n :
  NoDup (map gc_id (st_comments st)) ->
  exists l,
    bind (call (ListComments owner repo n 100) (issues_listComments host owner repo n 100))
         (fun comments =>
            forEach (filter is_marker comments) (fun comment =>
              call (DeleteComment owner repo (comment_id comment))
                   (issues_deleteComment host owner repo (comment_id comment)))) st
    = (inr tt,
       with_comments st
         (filter (fun g => negb (targets (listed_markers st owner repo n) owner repo g))
                 (st_comments st)),
       l).
Proof.
  intros Hnd.
  destruct (delete_loop owner repo (listed_markers st owner repo n) st) as [l Hl].
  { apply listed_markers_ids. assumption. }
  { intros c Hc. apply listed_markers_exist in Hc as (g & Hg & -> & Hon & _).
    apply existsb_exists. exists g. split; [assumption|].
    apply (has_id_of_issue owner repo n). assumption. }
  unfold bind, call at 1. cbn [issues_listComments host]. unfold listComments.
  fold (listed_markers st owner repo n). rewrite Hl. eexists. reflexivity.
Qed.

(** [removeScheduleInfo] on the model host. *)
Lemma removeScheduleInfo_run (st : State) owner repo n :
  NoDup (map gc_id (st_comments st)) ->
  exists l, removeScheduleInfo host owner repo n st = (inr tt, cleared st owner repo n, l).
Proof.
  intros Hnd. unfold removeScheduleInfo. rewrite rethrow_run.
  unfold bind at 1. unfold tryCatch, call at 1. cbn [issues_removeLabel host].
  unfold removeLabel.
  destruct (existsb (is_label owner repo n SCHEDULE_LABEL) (st_labels st)) eqn:He.
  - set (st1 := with_labels st _).
    destruct (delete_markers_run st1 owner repo n Hnd) as [l Hl].
    rewrite Hl. eexists. reflexivity.
  - cbn [has_status status negb Z.eqb Pos.eqb ret].
    destruct (delete_markers_run st owner repo n Hnd) as [l Hl].
    rewrite Hl. eexists. f_equal. f_equal.
    unfold cleared, with_comments. f_equal. symmetry. apply filter_all.
    intros x Hx. apply negb_true_iff. eapply existsb_false_forall; eassumption.
Qed.

Lemma cleared_labels (st : State) owner repo n :
  schedule_labels (cleared st owner repo n) owner repo n = [].
Proof.
  unfold schedule_labels, cleared. cbn [st_labels]. rewrite filter_filter.
  apply filter_none. intros l _. destruct (is_label owner repo n SCHEDULE_LABEL l); reflexivity.
Qed.

Lemma cleared_markers (st : State) owner repo n :
  markers_on_first_page st owner repo n = true ->
  marker_comments (cleared st owner repo n) owner repo n = [].
Proof.
  intros Hpage. unfold marker_comments, issue_comments, cleared. cbn [st_comments].
  rewrite !filter_filter. apply filter_none. intros g Hg.
  destruct (targets (listed_markers st owner repo n) owner repo g) eqn:Ht; [reflexivity|].
  cbn [negb andb].
  destruct (on_issue owner repo n g) eqn:Hon; [|reflexivity]. cbn [andb].
  destruct (is_marker (view g)) eqn:Hm; [|reflexivity]. exfalso.
  assert (Hin : In g (issue_comments st owner repo n)) by (apply filter_In; auto).
  rewrite <- (firstn_skipn 100 (issue_comments st owner repo n)) in Hin.
  apply in_app_or in Hin as [Hin|Hin].
  - assert (targets (listed_markers st owner repo n) owner repo g = true); [|congruence].
    apply existsb_exists. exists (view g). split.
    + apply filter_In. split; [apply in_map; assumption|assumption].
    + apply (has_id_of_issue owner repo n). assumption.
  - unfold markers_on_first_page in Hpage.
    pose proof (proj1 (forallb_forall _ _) Hpage g Hin) as Hn.
    cbv beta in Hn. rewrite Hm in Hn. discriminate.
Qed.

Lemma marker_confirmation (P : Platform) t localTime utcTime tz :
  includes (confirmationMessage P t localTime utcTime tz) "MERGE_SCHEDULE_INFO" = true.
Proof.
  unfold confirmationMessage.
  apply (includes_app_l "<!-- " ("MERGE_SCHEDULE_INFO" ++ _)). apply includes_prefix.
Qed.

Lemma on_issue_refl owner repo n id user text :
  on_issue owner repo n (mkGComment id owner repo n user text) = true.
Proof. unfold on_issue. cbn. rewrite !String.eqb_refl, Z.eqb_refl. reflexivity. Qed.

Lemma is_label_refl owner repo n name :
  is_label owner repo n name (mkGLabel owner repo n name) = true.
Proof. unfold is_label. cbn. rewrite !String.eqb_refl, Z.eqb_refl. reflexivity. Qed.

(** [storeScheduleInfo] on the model host. *)
Lemma storeScheduleInfo_run (P : Platform) (st : State) owner repo n t localTime utcTime tz :
  exists l,
    storeScheduleInfo host P owner repo n t localTime utcTime tz st
    = (inr tt, stored st owner repo n (confirmationMessage P t localTime utcTime tz), l).
Proof.
  unfold storeScheduleInfo. rewrite rethrow_run. unfold bind, call at 1.
  cbn [issues_addLabels host]. unfold addLabels. cbn [fold_left].
  rewrite createComment_accepted by (intros ? ? ? ? ?; reflexivity).
  eexists. reflexivity.
Qed.

Lemma stored_markers (st : State) owner repo n text :
  is_marker {| comment_id := st_next_id st; body := text |} = true ->
  marker_comments (stored st owner repo n text) owner repo n
  = (marker_comments st owner repo n
     ++ [mkGComment (st_next_id st) owner repo n BOT text])%list.
Proof.
  intros Hm. unfold marker_comments, issue_comments, stored. cbn.
  rewrite !filter_app. cbn [filter]. rewrite on_issue_refl. cbn [filter app].
  cbn [gc_body]. unfold is_marker in Hm. cbn [body] in Hm. rewrite Hm. reflexivity.
Qed.

Lemma stored_labels (st : State) owner repo n text :
  schedule_labels st owner repo n = [] ->
  schedule_labels (stored st owner repo n text) owner repo n
  = [mkGLabel owner repo n SCHEDULE_LABEL].
Proof.
  intros Hnone. unfold schedule_labels, stored in *. cbn. unfold add_label.
  rewrite (filter_nil_existsb _ _ Hnone). rewrite filter_app, Hnone. cbn [filter].
  rewrite is_label_refl. reflexivity.
Qed.

End ModelHost.

Section OneSchedule.

Import GitHub.

Variable P : Platform.

Lemma can_schedule_inv (st : State) owner repo cid :
  can_schedule st owner repo cid = true ->
  exists author permission,
    getComment owner repo cid st = (inr author, st)
    /\ getCollaboratorPermissionLevel owner repo author st = (inr permission, st)
    /\ (permission =? "admin")%string || (permission =? "write")%string = true.
Proof.
  unfold can_schedule, getComment, getCollaboratorPermissionLevel.
  destruct (find (has_id owner repo cid) (st_comments st)) as [c|]; [|discriminate].
  destruct (find _ (st_collaborators st)) as [co|] eqn:Hf; [|discriminate].
  cbv beta iota. intros Hok. exists (gc_user c), (co_permission co). rewrite Hf. auto.
Qed.

Lemma scheduled_instant_inv (now : Z) (text : string) (t : Z) :
  scheduled_instant P now text = Some t ->
  includes text CANCEL_COMMAND = false
  /\ exists m localTime utcTime,
      exec COMMAND_REGEX text = Some m
      /\ validateScheduleTime P now (group_of 1 m)
           (match group 2 m with Some tz => tz | None => "UTC" end) = inr t
      /\ (let? zoned := utcToZonedTime P t (match group 2 m with Some tz => tz | None => "UTC" end)
          in format P zoned "yyyy-MM-dd hh:mm a") = inr localTime
      /\ format P (Some t) "yyyy-MM-dd HH:mm" = inr utcTime.
Proof.
  unfold scheduled_instant. destruct (includes text CANCEL_COMMAND); [discriminate|].
  destruct (exec COMMAND_REGEX text) as [m|]; [|discriminate]. cbv zeta.
  destruct (validateScheduleTime P now _ _) as [e|t'] eqn:Hv; [discriminate|].
  destruct (let? zoned := _ in _) as [e|lt] eqn:Hl; [discriminate|].
  destruct (format P (Some t') _) as [e|ut] eqn:Hu; [discriminate|].
  intros E. injection E as ->. split; [reflexivity|]. exists m, lt, ut. auto.
Qed.

Lemma handleComment_schedules (st : State) (cid now : Z) (repository : string) (n : Z)
    (text : string) (t : Z) :
  unique_ids st = true ->
  can_schedule st (repo_owner repository) (repo_name repository) cid = true ->
  scheduled_instant P now text = Some t ->
  exists localTime utcTime tz l,
    handleComment_try host P cid now repository n text st
    = (inr tt,
       stored (cleared st (repo_owner repository) (repo_name repository) n)
              (repo_owner repository) (repo_name repository) n
              (confirmationMessage P t localTime utcTime tz),
       l).
Proof.
  intros Hu Hcan Hcmd.
  apply distinct_NoDup in Hu.
  destruct (can_schedule_inv _ _ _ _ Hcan) as (author & permission & Hget & Hperm & Hok).
  destruct (scheduled_instant_inv _ _ _ Hcmd) as (Hcancel & m & lt & ut & Hm & Hv & Hlt & Hut).
  unfold handleComment_try. cbv zeta.
  set (owner := repo_owner repository) in *. set (repo := repo_name repository) in *.
  destruct (removeScheduleInfo_run st owner repo n Hu) as [l1 Hrm].
  destruct (storeScheduleInfo_run P (cleared st owner repo n) owner repo n t lt ut
              (match group 2 m with Some tz => tz | None => "UTC" end)) as [l2 Hst].
  exists lt, ut, (match group 2 m with Some tz => tz | None => "UTC" end).
  unfold tryCatch at 1. unfold bind at 1. unfold call at 1.
  cbn [issues_getComment host]. rewrite Hget.
  unfold bind at 1. unfold hasWritePermission, tryCatch at 1, bind at 1, call at 1.
  cbn [repos_getCollaboratorPermissionLevel host]. rewrite Hperm.
  unfold ret at 1. rewrite Hok. cbn [negb]. rewrite Hcancel, Hm.
  unfold tryCatch at 1. unfold bind at 1. unfold lift at 1. rewrite Hv.
  unfold bind at 1. unfold lift at 1. rewrite Hlt.
  unfold bind at 1. unfold lift at 1. rewrite Hut.
  unfold bind at 1. rewrite Hrm, Hst.
  eexists. reflexivity.
Qed.

End OneSchedule.

(** C7, as amended.  On the model host, when every marker comment of the
    pull request is among the first 100 comments of the pull request (the one
    page the scheduler lists), a valid schedule command of an authorized
    author, handled with a token, removes all prior schedule state and writes
    the new one: after [handleComment] the pull request has exactly one
    marker comment and exactly one schedule label, whatever the number of
    marker comments and labels it had before.  Without a token the command
    is not handled: [handleComment] throws what [getOctokit] throws and the
    host is left as it was. *)
Theorem C7_one_schedule_after_command :
  forall (P : Platform) (st : GitHub.State) (token : string) (cid now : Z)
         (repository : string) (n : Z) (text : string) (t : Z),
    let owner := repo_owner repository in
    let repo := repo_name repository in
    let run := handleComment GitHub.host P token cid now repository n text st in
    unique_ids st = true ->
    can_schedule st owner repo cid = true ->
    scheduled_instant P now text = Some t ->
    markers_on_first_page st owner repo n = true ->
    (token <> EmptyString ->
     outcome run = inr tt
     /\ List.length (GitHub.marker_comments (final run) owner repo n) = 1%nat
     /\ List.length (GitHub.schedule_labels (final run) owner repo n) = 1%nat)
    /\ (token = EmptyString ->
        run = (inl (new_Error "Parameter token or opts.auth is required"), st, [])).
Proof.
  intros P st token cid now repository n text t owner repo run Hu Hcan Hcmd Hpage.
  split; [|intros Ht; subst run; rewrite Ht; reflexivity].
  intros Ht.
  destruct (handleComment_schedules P st cid now repository n text t Hu Hcan Hcmd)
    as (lt & ut & tz & l & Hrun).
  subst run. rewrite handleComment_client by assumption.
  rewrite Hrun. unfold outcome, final. cbn [fst snd].
  fold owner repo. split; [reflexivity|]. split.
  - rewrite stored_markers by apply marker_confirmation.
    rewrite cleared_markers by assumption. reflexivity.
  - rewrite stored_labels by apply cleared_labels. reflexivity.
Qed.

(* ================================================================== *)
(** ** The claims on the scenarios *)
(* ================================================================== *)

Section Scenarios.

Import Scenario.





(** C7 on a pull request that carries three marker comments. *)
Lemma C7_witness :
  outcome (handleComment GitHub.host platform TOKEN 5 NOW "acme/widgets" 7
             "@merge-at 2024-01-02 2:30PM" rescheduled) = inr tt
  /\ List.length (GitHub.marker_comments
                    (final (handleComment GitHub.host platform TOKEN 5 NOW "acme/widgets" 7
                              "@merge-at 2024-01-02 2:30PM" rescheduled))
                    (repo_owner "acme/widgets") (repo_name "acme/widgets") 7) = 1%nat
  /\ List.length (GitHub.schedule_labels
                    (final (handleComment GitHub.host platform TOKEN 5 NOW "acme/widgets" 7
                              "@merge-at 2024-01-02 2:30PM" rescheduled))
                    (repo_owner "acme/widgets") (repo_name "acme/widgets") 7) = 1%nat.
Proof.
  apply (C7_one_schedule_after_command platform rescheduled TOKEN 5 NOW "acme/widgets" 7
           "@merge-at 2024-01-02 2:30PM" 1704205800000);
    first [discriminate | vm_compute; reflexivity].
Defined.

(** C7 as stated fails on a long thread: the marker comment is the 101st
    comment of the pull request, the listing of [removeScheduleInfo] ends
    before it, and the command leaves two marker comments. *)
Lemma C7_counterexample :
  unique_ids long_thread = true
  /\ can_schedule long_thread "acme" "widgets" 102 = true
  /\ scheduled_instant platform NOW "@merge-at 2024-01-02 2:30PM" = Some 1704205800000
  /\ List.length (GitHub.marker_comments long_thread "acme" "widgets" 7) = 1%nat
  /\ List.length (GitHub.schedule_labels long_thread "acme" "widgets" 7) = 1%nat
  /\ outcome (handleComment GitHub.host platform TOKEN 102 NOW "acme/widgets" 7
                "@merge-at 2024-01-02 2:30PM" long_thread) = inr tt
  /\ List.length (GitHub.marker_comments
                    (final (handleComment GitHub.host platform TOKEN 102 NOW "acme/widgets" 7
                              "@merge-at 2024-01-02 2:30PM" long_thread))
                    "acme" "widgets" 7) = 2%nat.
Proof. vm_compute. repeat split; reflexivity. Qed.

(** C8: a meridiem marker in mixed case is not part of the date and time
    [COMMAND_REGEX] captures; it is captured as the time zone.  The command
    with [Pm] reaches the parser as 2:30 in the zone "Pm" and schedules
    nothing, the command with [PM] schedules 14:30 UTC, and the parser on its
    own reads [2:30Pm] as 14:30. *)
Lemma C8_mixed_case_meridiem :
  exec COMMAND_REGEX "@merge-at 2024-01-02 2:30Pm"
    = Some [(2%nat, "Pm"); (1%nat, "2024-01-02 2:30")]
  /\ exec COMMAND_REGEX "@merge-at 2024-01-02 2:30PM"
    = Some [(1%nat, "2024-01-02 2:30PM")]
  /\ scheduled_instant platform NOW "@merge-at 2024-01-02 2:30Pm" = None
  /\ scheduled_instant platform NOW "@merge-at 2024-01-02 2:30PM" = Some 1704205800000
  /\ validateScheduleTime platform NOW "2024-01-02 2:30Pm" "UTC" = inr 1704205800000
  /\ posts (calls (handleComment GitHub.host platform TOKEN 5 NOW "acme/widgets" 7
                     "@merge-at 2024-01-02 2:30Pm" rescheduled))
     = ["❌ Invalid date/time format: Invalid date format"].
Proof. vm_compute. repeat split; reflexivity. Qed.

(** The patterns on white space and line terminators beyond the ASCII
    range: a no-break space separates the parts of a command as a space
    does, and [.] stops at a line separator. *)
Example patterns_unicode :
  scheduled_instant platform NOW ("@merge-at 2024-01-02" ++ bytes [194; 160] ++ "14:30")
  = Some 1704205800000
  /\ option_map (group 2)
       (exec COMMAND_REGEX ("@merge-at 2024-01-02 14:30" ++ bytes [194; 160] ++ "Mars/Phobos"))
     = Some (Some "Mars/Phobos")
  /\ scheduled_instant platform NOW
       ("@merge-at 2024-01-02 14:30" ++ bytes [194; 160] ++ "Mars/Phobos") = None
  /\ option_map (group_of 1)
       (exec MARKER_REGEX
          ("<!-- MERGE_SCHEDULE_INFO payload -->" ++ bytes [226; 128; 168] ++ " -->"))
     = Some "payload".
Proof. vm_compute. repeat split; reflexivity. Qed.

(** C9 as stated fails when the host cannot be reached: the author lookup
    throws, the comment of the handler throws as well, and the error reaches
    the caller. *)
Lemma C9_counterexample :
  outcome (handleComment Unreachable.host platform TOKEN 5 NOW "acme/widgets" 7
             "@merge-at 2024-01-02 14:30" tt) = inl Unreachable.error.
Proof. vm_compute. reflexivity. Qed.

Lemma GitHub_posts_accepted : posts_accepted GitHub.host.
Proof. intros owner repo number text w. reflexivity. Qed.

(** C9 on a command whose comment the host does not know (the author lookup
    fails): the generic comment is posted and [handleComment] returns; on the
    host that cannot be reached, what escapes is the refusal of that
    comment; and without a token what escapes is the error of [getOctokit],
    with no call made. *)
Lemma C9_witness :
  (outcome (handleComment GitHub.host platform TOKEN 99 NOW "acme/widgets" 7
              "@merge-at 2024-01-02 14:30" rescheduled) = inr tt
   /\ ends_with_post (repo_owner "acme/widgets") (repo_name "acme/widgets") 7
        (calls (handleComment GitHub.host platform TOKEN 99 NOW "acme/widgets" 7
                  "@merge-at 2024-01-02 14:30" rescheduled)))
  /\ ((getOctokit TOKEN = inl Unreachable.error
       /\ calls (handleComment Unreachable.host platform TOKEN 5 NOW "acme/widgets" 7
                   "@merge-at 2024-01-02 14:30" tt) = []
       /\ final (handleComment Unreachable.host platform TOKEN 5 NOW "acme/widgets" 7
                   "@merge-at 2024-01-02 14:30" tt) = tt)
      \/ (getOctokit TOKEN = inr tt
          /\ exists l,
               calls (handleComment Unreachable.host platform TOKEN 5 NOW "acme/widgets" 7
                        "@merge-at 2024-01-02 14:30" tt)
               = (l ++ [(CreateComment (repo_owner "acme/widgets") (repo_name "acme/widgets")
                           7 GENERIC_FAILURE, Some Unreachable.error)])%list))
  /\ handleComment GitHub.host platform EmptyString 5 NOW "acme/widgets" 7
       "@merge-at 2024-01-02 14:30" rescheduled
     = (inl (new_Error "Parameter token or opts.auth is required"), rescheduled, []).
Proof.
  split; [|split].
  - apply (proj1 (proj2 (C9_only_the_last_post_escapes GitHub.host platform TOKEN 99 NOW
                           "acme/widgets" 7 "@merge-at 2024-01-02 14:30" rescheduled))).
    + discriminate.
    + exact GitHub_posts_accepted.
  - apply (proj1 (C9_only_the_last_post_escapes Unreachable.host platform TOKEN 5 NOW
                    "acme/widgets" 7 "@merge-at 2024-01-02 14:30" tt)).
    vm_compute. reflexivity.
  - apply (proj2 (proj2 (C9_only_the_last_post_escapes GitHub.host platform EmptyString 5 NOW
                           "acme/widgets" 7 "@merge-at 2024-01-02 14:30" rescheduled))).
    reflexivity.
Defined.

(** C10 on pull request 8, which has conflicts, on a pull request the host
    does not know, and on a merge the host refuses. *)
Lemma C10_witness :
  posts (calls (mergePR GitHub.host "acme" "widgets" 8 two_scheduled))
  = ["❌ Failed to merge PR: " ++ NOT_MERGEABLE; "❌ Failed to merge PR: " ++ NOT_MERGEABLE]
  /\ posts (calls (mergePR GitHub.host "acme" "widgets" 9 two_scheduled))
     = ["❌ Failed to merge PR: " ++ NOT_FOUND; "❌ Failed to merge PR: " ++ NOT_FOUND].
Proof.
  destruct (C10_failure_comment_count GitHub.host GitHub_posts_accepted "acme" "widgets" 8
              two_scheduled) as (D1 & _ & _).
  destruct (C10_failure_comment_count GitHub.host GitHub_posts_accepted "acme" "widgets" 9
              two_scheduled) as (_ & D2 & _).
  split.
  - apply (D1 {| mergeable := false; mergeable_state := "dirty" |} two_scheduled); reflexivity.
  - apply (D2 {| message := "Not Found"; status := Some 404 |} two_scheduled); reflexivity.
Defined.

End Scenarios.

(* ================================================================== *)
(** * Further properties of the sources *)
(* ================================================================== *)

(** ** Runs, call by call *)

Section RunFacts.

Context {W : Type}.

Lemma bind_run {A B : Type} (m : M W A) (k : A -> M W B) (w : W) :
  bind m k w
  = match m w with
    | (inl e, w1, l1) => (inl e, w1, l1)
    | (inr a, w1, l1) => (outcome (k a w1), final (k a w1), (l1 ++ calls (k a w1))%list)
    end.
Proof.
  unfold bind. destruct (m w) as [[[e|a] w1] l1]; [reflexivity|].
  destruct (k a w1) as [[r w2] l2]. reflexivity.
Qed.

Lemma tryCatch_run {A : Type} (m : M W A) (h : Error -> M W A) (w : W) :
  tryCatch m h w
  = match m w with
    | (inl e, w1, l1) => (outcome (h e w1), final (h e w1), (l1 ++ calls (h e w1))%list)
    | (inr a, w1, l1) => (inr a, w1, l1)
    end.
Proof.
  unfold tryCatch. destruct (m w) as [[[e|a] w1] l1]; [|reflexivity].
  destruct (h e w1) as [[r w2] l2]. reflexivity.
Qed.

Lemma run_eta {A : Type} (x : Result A * W * list Event) :
  x = (outcome x, final x, calls x).
Proof. destruct x as [[r w] l]. reflexivity. Qed.

Section Silence.

Context {X : Type}.
Variable obs : Event -> list X.

Lemma silent_ret {A : Type} (a : A) : silent obs (ret (W := W) a).
Proof. intros w. reflexivity. Qed.

Lemma silent_throw {A : Type} (e : Error) : silent obs (throw (W := W) (A := A) e).
Proof. intros w. reflexivity. Qed.

Lemma silent_lift {A : Type} (r : Result A) : silent obs (lift (W := W) r).
Proof. intros w. reflexivity. Qed.

Lemma silent_call {A : Type} (c : Call) (op : W -> Result A * W) :
  (forall result, obs (c, result) = []) -> silent obs (call c op).
Proof.
  intros Hc w. unfold call. destruct (op w) as [[e|a] w1]; cbn; rewrite Hc; reflexivity.
Qed.

Lemma silent_bind {A B : Type} (m : M W A) (k : A -> M W B) :
  silent obs m -> (forall a, silent obs (k a)) -> silent obs (bind m k).
Proof.
  intros Hm Hk w. rewrite bind_run. specialize (Hm w).
  destruct (m w) as [[[e|a] w1] l1]; [exact Hm|].
  unfold calls in *. cbn [snd] in *. rewrite flat_map_app, Hm. apply Hk.
Qed.

Lemma silent_tryCatch {A : Type} (m : M W A) (h : Error -> M W A) :
  silent obs m -> (forall e, silent obs (h e)) -> silent obs (tryCatch m h).
Proof.
  intros Hm Hh w. rewrite tryCatch_run. specialize (Hm w).
  destruct (m w) as [[[e|a] w1] l1]; [|exact Hm].
  unfold calls in *. cbn [snd] in *. rewrite flat_map_app, Hm. apply Hh.
Qed.

Lemma silent_rethrow {A : Type} (m : M W A) : silent obs m -> silent obs (rethrow m).
Proof. intros Hm. apply silent_tryCatch; [assumption|]. intros e. apply silent_throw. Qed.

Lemma silent_forEach {Y : Type} (ys : list Y) (body : Y -> M W unit) :
  (forall y, silent obs (body y)) -> silent obs (forEach ys body).
Proof.
  intros Hb. induction ys as [|y ys IH]; cbn [forEach].
  - apply silent_ret.
  - apply silent_bind; [apply Hb|]. intros _. exact IH.
Qed.

Lemma silent_forEachAcc {Y S : Type} (ys : list Y) (body : Y -> S -> M W S) (acc : S) :
  (forall y s, silent obs (body y s)) -> silent obs (forEachAcc ys body acc).
Proof.
  intros Hb. revert acc. induction ys as [|y ys IH]; intros acc; cbn [forEachAcc].
  - apply silent_ret.
  - apply silent_bind; [apply Hb|]. intros s. apply IH.
Qed.

End Silence.

End RunFacts.

(** Closes a goal [silent obs m] for a computation built from calls that do
    not show under [obs]. *)
Ltac silence :=
  repeat first
    [ progress cbv zeta
    | apply silent_ret | apply silent_throw | apply silent_lift
    | apply silent_rethrow
    | apply silent_call; intros ?; reflexivity
    | apply silent_bind; [|intros ?]
    | apply silent_tryCatch; [|intros ?]
    | apply silent_forEach; intros ?
    | apply silent_forEachAcc; intros ? ?
    | match goal with
      | |- silent _ (if ?b then _ else _) => destruct b
      | |- silent _ (match ?x with _ => _ end) => destruct x
      end ].

Section Silences.

Context {W : Type}.
Variable H : Host W.
Variable P : Platform.

Lemma createComment_no_change owner repo n text :
  silent change_of (createComment H owner repo n text).
Proof. unfold createComment. silence. Qed.

Lemma removeScheduleInfo_no_merge owner repo n :
  silent merge_of (removeScheduleInfo H owner repo n).
Proof. unfold removeScheduleInfo. silence. Qed.

Lemma storeScheduleInfo_no_merge owner repo n t lt ut tz :
  silent merge_of (storeScheduleInfo H P owner repo n t lt ut tz).
Proof. unfold storeScheduleInfo, createComment. silence. Qed.

Lemma hasWritePermission_no_change owner repo user :
  silent change_of (hasWritePermission H owner repo user).
Proof. unfold hasWritePermission. silence. Qed.

Lemma getScheduledPRs_reads : silent write_of (getScheduledPRs H P).
Proof. unfold getScheduledPRs. silence. Qed.

End Silences.

(** ** The command interpreter *)

Section Observing.

Context {W X : Type}.
Variable obs : Event -> list X.

Lemma observe_bind {A B : Type} (m : M W A) (k : A -> M W B) (w : W) :
  flat_map obs (calls (bind m k w))
  = (flat_map obs (calls (m w))
     ++ match outcome (m w) with
        | inr a => flat_map obs (calls (k a (final (m w))))
        | inl _ => []
        end)%list.
Proof.
  rewrite bind_run. destruct (m w) as [[[e|a] w1] l1]; unfold calls, outcome, final; cbn [fst snd].
  - rewrite app_nil_r. reflexivity.
  - apply flat_map_app.
Qed.

Lemma observe_tryCatch {A : Type} (m : M W A) (h : Error -> M W A) (w : W) :
  flat_map obs (calls (tryCatch m h w))
  = (flat_map obs (calls (m w))
     ++ match outcome (m w) with
        | inl e => flat_map obs (calls (h e (final (m w))))
        | inr _ => []
        end)%list.
Proof.
  rewrite tryCatch_run. destruct (m w) as [[[e|a] w1] l1]; unfold calls, outcome, final;
    cbn [fst snd].
  - apply flat_map_app.
  - rewrite app_nil_r. reflexivity.
Qed.

End Observing.

Lemma bind_lift_throw {W A B : Type} (e : Error) (k : A -> M W B) (w : W) :
  bind (lift (inl e)) k w = (inl e, w, []).
Proof. reflexivity. Qed.

Section Permission.

Context {W : Type}.
Variable H : Host W.
Variable P : Platform.

(** [hasWritePermission], call by call. *)
Lemma hasWritePermission_run owner repo username w :
  hasWritePermission H owner repo username w
  = (inr (granted (fst (repos_getCollaboratorPermissionLevel H owner repo username w))),
     snd (repos_getCollaboratorPermissionLevel H owner repo username w),
     [(GetCollaboratorPermissionLevel owner repo username,
       match fst (repos_getCollaboratorPermissionLevel H owner repo username w) with
       | inl e => Some e
       | inr _ => None
       end)]).
Proof.
  unfold hasWritePermission, tryCatch, bind, call, ret.
  destruct (repos_getCollaboratorPermissionLevel H owner repo username w) as [[e|p] w1];
    reflexivity.
Qed.

End Permission.

(** X1.  [hasWritePermission] never throws and makes one call, the lookup of
    the permission level; it grants access exactly when the lookup returns
    the permission [admin] or [write], and a lookup that throws grants
    nothing. *)
Theorem X1_permission_decision :
  forall {W : Type} (H : Host W) (owner repo username : string) (w : W),
    exists allowed,
      outcome (hasWritePermission H owner repo username w) = inr allowed
      /\ List.length (calls (hasWritePermission H owner repo username w)) = 1%nat
      /\ (allowed = true <->
          exists permission w1,
            repos_getCollaboratorPermissionLevel H owner repo username w = (inr permission, w1)
            /\ (permission = "admin" \/ permission = "write")).
Proof.
  intros W H owner repo username w. rewrite hasWritePermission_run.
  eexists. split; [reflexivity|]. split; [reflexivity|].
  destruct (repos_getCollaboratorPermissionLevel H owner repo username w) as [[e|p] w1];
    cbn [fst granted].
  - split; [discriminate|]. intros (p & w2 & Heq & _). discriminate Heq.
  - split.
    + intros Hg. exists p, w1. split; [reflexivity|].
      apply orb_true_iff in Hg as [Hg|Hg]; apply String.eqb_eq in Hg; auto.
    + intros (p' & w2 & Heq & Hp). injection Heq as -> ->.
      apply orb_true_iff. destruct Hp as [-> | ->]; [left|right]; apply String.eqb_refl.
Qed.

(** X2.  [handleComment] changes the schedule state of a pull request (a
    label added or removed, a comment deleted) only for an author whose
    permission lookup returned [admin] or [write], and only when the comment
    is a cancellation or carries a date and time the parser accepts. *)
Theorem X2_changes_need_permission :
  forall {W : Type} (H : Host W) (P : Platform) (token : string) (cid now : Z)
         (repository : string) (n : Z) (text : string) (w : W),
    let owner := repo_owner repository in
    let repo := repo_name repository in
    changes (calls (handleComment H P token cid now repository n text w)) <> [] ->
    exists author w1 permission w2,
      issues_getComment H owner repo cid w = (inr author, w1)
      /\ repos_getCollaboratorPermissionLevel H owner repo author w1 = (inr permission, w2)
      /\ (permission = "admin" \/ permission = "write")
      /\ (includes text CANCEL_COMMAND = true
          \/ exists m t,
               exec COMMAND_REGEX text = Some m
               /\ validateScheduleTime P now (group_of 1 m) (command_timezone m) = inr t).
Proof.
  intros W H P token cid now repository n text w owner repo.
  rewrite handleComment_run. destruct (getOctokit token) as [e|[]];
    [intros Hc; contradiction Hc; reflexivity|].
  unfold changes, handleComment_try. cbv zeta. fold owner repo.
  rewrite observe_tryCatch.
  match goal with |- context [outcome (?body w)] => set (tried := body) end.
  replace (match outcome (tried w) with
           | inl e => flat_map change_of
                        (calls (createComment H owner repo n
                           "❌ An error occurred while processing your command. Please try again."
                           (final (tried w))))
           | inr _ => []
           end) with (@nil Call)
    by (destruct (outcome (tried w)); [rewrite createComment_no_change|]; reflexivity).
  rewrite app_nil_r. subst tried. rewrite observe_bind.
  unfold call at 1 2 3.
  destruct (issues_getComment H owner repo cid w) as [[e|author] w1];
    unfold calls at 1, outcome at 1, final at 1; cbn [fst snd flat_map change_of app];
    [intros Hc; contradiction Hc; reflexivity|].
  rewrite observe_bind. rewrite hasWritePermission_no_change. cbn [app].
  rewrite hasWritePermission_run. unfold outcome at 1, final at 1. cbn [fst snd].
  destruct (repos_getCollaboratorPermissionLevel H owner repo author w1) as [[e|p] w2] eqn:Hp;
    cbn [fst snd granted negb].
  { rewrite createComment_no_change. intros Hc; contradiction Hc; reflexivity. }
  destruct ((p =? "admin")%string || (p =? "write")%string) eqn:Hg; cbn [negb].
  2: { rewrite createComment_no_change. intros Hc; contradiction Hc; reflexivity. }
  intros Hc. exists author, w1, p, w2. split; [reflexivity|]. split; [exact Hp|].
  split.
  { apply orb_true_iff in Hg as [Hg|Hg]; apply String.eqb_eq in Hg; auto. }
  destruct (includes text CANCEL_COMMAND); [left; reflexivity|right].
  destruct (exec COMMAND_REGEX text) as [m|].
  2: { rewrite createComment_no_change in Hc. contradiction Hc; reflexivity. }
  exists m. fold (command_timezone m) in Hc |- *.
  destruct (validateScheduleTime P now (group_of 1 m) (command_timezone m)) as [e|t] eqn:Hv.
  2: { exists t. split; reflexivity. }
  exfalso. apply Hc. rewrite observe_tryCatch, bind_lift_throw.
  unfold calls at 1, outcome at 1, final at 1. cbn [fst snd flat_map app].
  apply createComment_no_change.
Qed.

(** X2 on the command of alice, who has write permission, on pull request 7. *)
Lemma X2_witness :
  exists author w1 permission w2,
    issues_getComment GitHub.host "acme" "widgets" 5 Scenario.rescheduled = (inr author, w1)
    /\ repos_getCollaboratorPermissionLevel GitHub.host "acme" "widgets" author w1
       = (inr permission, w2)
    /\ (permission = "admin" \/ permission = "write")
    /\ (includes "@merge-at 2024-01-02 2:30PM" CANCEL_COMMAND = true
        \/ exists m t,
             exec COMMAND_REGEX "@merge-at 2024-01-02 2:30PM" = Some m
             /\ validateScheduleTime platform NOW (group_of 1 m) (command_timezone m) = inr t).
Proof.
  apply (X2_changes_need_permission GitHub.host platform Scenario.TOKEN 5 NOW "acme/widgets" 7
           "@merge-at 2024-01-02 2:30PM" Scenario.rescheduled).
  vm_compute. discriminate.
Defined.

(** X3.  [handleComment] never fetches and never merges a pull request,
    whatever the comment says and whatever the host answers. *)
Theorem X3_commands_never_merge :
  forall {W : Type} (H : Host W) (P : Platform) (token : string) (cid now : Z)
         (repository : string) (n : Z) (text : string) (w : W),
    attempts (calls (handleComment H P token cid now repository n text w)) = []
    /\ merges (calls (handleComment H P token cid now repository n text w)) = [].
Proof.
  intros W H P token cid now repository n text w. split.
  - revert w. change (silent attempt_of (handleComment H P token cid now repository n text)).
    unfold handleComment, handleComment_try, hasWritePermission, createComment,
      removeScheduleInfo, storeScheduleInfo, createComment.
    silence.
  - revert w. change (silent merge_of (handleComment H P token cid now repository n text)).
    unfold handleComment, handleComment_try, hasWritePermission, createComment.
    silence; try apply removeScheduleInfo_no_merge; apply storeScheduleInfo_no_merge.
Qed.

(** ** utils.js *)

Section ListFacts.

Context {A : Type}.

Lemma find_append (p : A -> bool) (l1 l2 : list A) :
  find p (l1 ++ l2) = match find p l1 with Some x => Some x | None => find p l2 end.
Proof. induction l1 as [|x l1 IH]; cbn; [reflexivity|]. destruct (p x); auto. Qed.

(** [l.reverse().find(p)] is the last element of [l] that satisfies [p]. *)
Lemma find_rev_last (p : A -> bool) (l : list A) :
  match find p (rev l) with
  | Some x => exists before after,
                l = (before ++ x :: after)%list /\ p x = true
                /\ forallb (fun y => negb (p y)) after = true
  | None => forallb (fun y => negb (p y)) l = true
  end.
Proof.
  induction l as [|y l IH]; cbn [rev]; [reflexivity|].
  rewrite find_append. destruct (find p (rev l)) as [x|].
  - destruct IH as (before & after & -> & Hx & Hafter).
    exists (y :: before), after. auto.
  - cbn [find]. destruct (p y) eqn:Hy.
    + exists [], l. auto.
    + cbn [forallb negb andb]. rewrite Hy. exact IH.
Qed.

End ListFacts.

(** X4.  [getScheduledPRs] only reads: whatever the host answers, each of
    its calls is the search for the labelled pull requests or the listing of
    the comments of an issue, for the first page of 100 and no other. *)
Theorem X4_discovery_only_reads :
  forall {W : Type} (H : Host W) (P : Platform) (w : W),
    writes (calls (getScheduledPRs H P w)) = [].
Proof. intros W H P w. apply getScheduledPRs_reads. Qed.

(** X5.  In [removeScheduleInfo] a failure of the label removal with status
    404 is passed over, and the comments are listed next from the state the
    failed call left; with any other status, or none, the failure is thrown
    to the caller and nothing else is called: no comment is listed or
    deleted. *)
Theorem X5_missing_label_is_no_error :
  forall {W : Type} (H : Host W) (owner repo : string) (n : Z) (w : W) (error : Error) (w1 : W),
    issues_removeLabel H owner repo n SCHEDULE_LABEL w = (inl error, w1) ->
    if has_status error 404 then
      exists rest,
        calls (removeScheduleInfo H owner repo n w)
        = ((RemoveLabel owner repo n SCHEDULE_LABEL, Some error)
           :: (ListComments owner repo n 100,
               match fst (issues_listComments H owner repo n 100 w1) with
               | inl e => Some e
               | inr _ => None
               end)
           :: rest)%list
    else
      removeScheduleInfo H owner repo n w
      = (inl error, w1, [(RemoveLabel owner repo n SCHEDULE_LABEL, Some error)]).
Proof.
  intros W H owner repo n w error w1 Hrm.
  assert (Hrun : removeScheduleInfo H owner repo n w
                 = if has_status error 404 then
                     let rest := bind (call (ListComments owner repo n 100)
                                            (issues_listComments H owner repo n 100))
                                      (fun comments =>
                                         forEach (filter is_marker comments) (fun comment =>
                                           call (DeleteComment owner repo (comment_id comment))
                                                (issues_deleteComment H owner repo
                                                   (comment_id comment)))) w1 in
                     (outcome rest, final rest,
                      (RemoveLabel owner repo n SCHEDULE_LABEL, Some error) :: calls rest)
                   else (inl error, w1, [(RemoveLabel owner repo n SCHEDULE_LABEL, Some error)])).
  { unfold removeScheduleInfo. rewrite rethrow_run, bind_run, tryCatch_run.
    unfold call at 1. rewrite Hrm. cbv beta iota.
    destruct (has_status error 404); reflexivity. }
  rewrite Hrun. destruct (has_status error 404); [|reflexivity].
  cbv zeta. cbn [calls snd]. rewrite bind_run. unfold call at 1 2.
  destruct (issues_listComments H owner repo n 100 w1) as [[e|comments] w2]; cbn [fst snd].
  - exists []. reflexivity.
  - eexists. cbn [app]. reflexivity.
Qed.

(** X5 on the model host, for a pull request that carries no label. *)
Lemma X5_witness :
  exists rest,
    calls (removeScheduleInfo GitHub.host "acme" "widgets" 9 Scenario.two_scheduled)
    = ((RemoveLabel "acme" "widgets" 9 SCHEDULE_LABEL,
        Some {| message := "Label does not exist"; status := Some 404 |})
       :: (ListComments "acme" "widgets" 9 100,
           match fst (issues_listComments GitHub.host "acme" "widgets" 9 100
                        Scenario.two_scheduled) with
           | inl e => Some e
           | inr _ => None
           end)
       :: rest)%list.
Proof.
  exact (X5_missing_label_is_no_error GitHub.host "acme" "widgets" 9 Scenario.two_scheduled
           {| message := "Label does not exist"; status := Some 404 |} Scenario.two_scheduled
           eq_refl).
Defined.

(** X6.  [getLatestScheduleComment] lists the first 100 comments of the pull
    request and nothing else.  When the listing throws, it throws the same
    error; otherwise it returns the last listed comment whose body contains
    [@merge-at], and [undefined] exactly when no listed comment does. *)
Theorem X6_latest_schedule_comment :
  forall {W : Type} (H : Host W) (owner repo : string) (n : Z) (w : W),
    match issues_listComments H owner repo n 100 w with
    | (inl error, w1) =>
        getLatestScheduleComment H owner repo n w
        = (inl error, w1, [(ListComments owner repo n 100, Some error)])
    | (inr comments, w1) =>
        exists found,
          getLatestScheduleComment H owner repo n w
          = (inr found, w1, [(ListComments owner repo n 100, None)])
          /\ match found with
             | Some c =>
                 exists before after,
                   comments = (before ++ c :: after)%list
                   /\ includes (body c) "@merge-at" = true
                   /\ forallb (fun c' => negb (includes (body c') "@merge-at")) after = true
             | None =>
                 forallb (fun c' => negb (includes (body c') "@merge-at")) comments = true
             end
    end.
Proof.
  intros W H owner repo n w. unfold getLatestScheduleComment.
  rewrite rethrow_run, bind_run. unfold call.
  destruct (issues_listComments H owner repo n 100 w) as [[e|comments] w1]; [reflexivity|].
  eexists. split; [reflexivity|].
  apply (find_rev_last (fun comment => includes (body comment) "@merge-at")).
Qed.

(** ** merge-scheduler.js: one merge *)

Section MergeFacts.

Context {W : Type}.
Variable H : Host W.

Lemma mergePR_blocks owner repo n :
  mergePR H owner repo n
  = tryCatch (mergeability_check H owner repo n ;; merge_attempt H owner repo n)
             (merge_report H owner repo n).
Proof. reflexivity. Qed.

Lemma createComment_run owner repo n text w :
  createComment H owner repo n text w
  = (fst (issues_createComment H owner repo n text w),
     snd (issues_createComment H owner repo n text w),
     [(CreateComment owner repo n text,
       match fst (issues_createComment H owner repo n text w) with
       | inl e => Some e
       | inr _ => None
       end)]).
Proof.
  unfold createComment. rewrite rethrow_run. unfold call.
  destruct (issues_createComment H owner repo n text w) as [[e|[]] w1]; reflexivity.
Qed.

(** The check lets through exactly the pull requests the host reports as
    mergeable, and then it has made one call, the fetch. *)
Lemma mergeability_check_pass owner repo n w pr w1 :
  pulls_get H owner repo n w = (inr pr, w1) -> mergeable pr = true ->
  mergeability_check H owner repo n w = (inr tt, w1, [(PullsGet owner repo n, None)]).
Proof.
  intros Hget Hm. unfold mergeability_check. rewrite tryCatch_run, bind_run.
  unfold call. rewrite Hget. cbv beta iota. rewrite Hm. reflexivity.
Qed.

Lemma mergeability_check_stop owner repo n w :
  outcome (mergeability_check H owner repo n w) = inr tt ->
  exists pr w1, pulls_get H owner repo n w = (inr pr, w1) /\ mergeable pr = true.
Proof.
  unfold mergeability_check. rewrite tryCatch_run, bind_run. unfold call.
  destruct (pulls_get H owner repo n w) as [[e|pr] w1]; cbv beta iota.
  - cbn [outcome final calls fst snd]. destruct (has_status e 404).
    + rewrite bind_run. destruct (createComment H owner repo n _ w1) as [[[e1|[]] w2] l2];
        cbn; discriminate.
    + cbn. discriminate.
  - destruct (mergeable pr) eqn:Hm; cbn [negb]; [intros _; eauto|].
    cbv zeta. rewrite bind_run.
    destruct (createComment H owner repo n _ w1) as [[[e1|[]] w2] l2]; cbn [outcome final calls fst snd].
    + destruct (has_status e1 404); [|cbn; discriminate].
      rewrite bind_run. destruct (createComment H owner repo n _ w2) as [[[e3|[]] w3] l3];
        cbn; discriminate.
    + cbn. discriminate.
Qed.

Lemma mergeability_check_no_merge owner repo n :
  silent merge_of (mergeability_check H owner repo n).
Proof. unfold mergeability_check, createComment. silence. Qed.

Lemma mergeability_check_no_change owner repo n :
  silent change_of (mergeability_check H owner repo n).
Proof. unfold mergeability_check, createComment. silence. Qed.

Lemma merge_report_no_merge owner repo n e : silent merge_of (merge_report H owner repo n e).
Proof. unfold merge_report, createComment. silence. Qed.

Lemma merge_report_no_change owner repo n e : silent change_of (merge_report H owner repo n e).
Proof. unfold merge_report, createComment. silence. Qed.

Lemma merge_report_throws owner repo n e w : outcome (merge_report H owner repo n e w) <> inr tt.
Proof.
  unfold merge_report. rewrite bind_run.
  match goal with |- context [match ?m w with _ => _ end] => destruct (m w) as [[[e1|[]] w1] l1] end;
    cbn; discriminate.
Qed.

Lemma merge_attempt_merges owner repo n w :
  merges (calls (merge_attempt H owner repo n w))
  = [(owner, repo, n, "squash",
      match fst (pulls_merge H owner repo n "squash" w) with
      | inl e => Some e
      | inr _ => None
      end)].
Proof.
  unfold merges, merge_attempt. rewrite observe_tryCatch, observe_bind.
  match goal with
  | |- ((_ ++ ?a) ++ ?b)%list = _ => replace a with (@nil (string * string * Z * string * option Error));
                              [replace b with (@nil (string * string * Z * string * option Error))|]
  end.
  - unfold call. destruct (pulls_merge H owner repo n "squash" w) as [[e|[]] w1]; reflexivity.
  - match goal with |- _ = match ?o with _ => _ end => destruct o as [e|[]] end; [|reflexivity].
    symmetry. cbv zeta.
    match goal with |- flat_map _ (calls (?m ?w')) = _ => generalize w'; change (silent merge_of m) end.
    unfold createComment. silence; apply removeScheduleInfo_no_merge.
  - match goal with |- _ = match ?o with _ => _ end => destruct o as [e|[]] end; [reflexivity|].
    symmetry.
    match goal with |- flat_map _ (calls (?m ?w')) = _ => generalize w'; change (silent merge_of m) end.
    unfold createComment. silence; apply removeScheduleInfo_no_merge.
Qed.

(** What the second block does, by the answers of the host. *)
Lemma merge_attempt_run owner repo n w :
  let failed (e : Error) (w' : W) :=
    (createComment H owner repo n ("❌ " ++ "Failed to merge PR: " ++ merge_failure_detail e) ;;
     throw (A := unit) (new_Error ("Failed to merge PR: " ++ merge_failure_detail e))) w' in
  merge_attempt H owner repo n w
  = match pulls_merge H owner repo n "squash" w with
    | (inl e, w1) =>
        (outcome (failed e w1), final (failed e w1),
         (PullsMerge owner repo n "squash", Some e) :: calls (failed e w1))
    | (inr _, w1) =>
        let posted := createComment H owner repo n "✅ Successfully merged as scheduled!" w1 in
        match outcome posted with
        | inl e =>
            (outcome (failed e (final posted)), final (failed e (final posted)),
             (PullsMerge owner repo n "squash", None)
               :: (calls posted ++ calls (failed e (final posted)))%list)
        | inr _ =>
            let removed := removeScheduleInfo H owner repo n (final posted) in
            match outcome removed with
            | inl e =>
                (outcome (failed e (final removed)), final (failed e (final removed)),
                 (PullsMerge owner repo n "squash", None)
                   :: (calls posted ++ calls removed ++ calls (failed e (final removed)))%list)
            | inr _ =>
                (inr tt, final removed,
                 (PullsMerge owner repo n "squash", None) :: (calls posted ++ calls removed)%list)
            end
        end
    end.
Proof.
  cbv zeta. unfold merge_attempt. rewrite tryCatch_run, bind_run. unfold call at 1.
  destruct (pulls_merge H owner repo n "squash" w) as [[e|[]] w1]; cbv beta iota; [reflexivity|].
  rewrite bind_run.
  destruct (createComment H owner repo n "✅ Successfully merged as scheduled!" w1)
    as [[[e|[]] w2] l2]; cbn [outcome final calls fst snd app]; [reflexivity|].
  destruct (removeScheduleInfo H owner repo n w2) as [[[e|[]] w3] l3];
    cbn [outcome final calls fst snd app]; [|reflexivity].
  rewrite <- app_assoc. reflexivity.
Qed.

Lemma failed_throws owner repo n text e w :
  outcome ((createComment H owner repo n text ;; throw (A := unit) e) w) <> inr tt.
Proof.
  rewrite bind_run. destruct (createComment H owner repo n text w) as [[[e1|[]] w1] l1];
    cbn; discriminate.
Qed.

Lemma failed_no_change owner repo n text e w :
  changes (calls ((createComment H owner repo n text ;; throw (A := unit) e) w)) = [].
Proof.
  revert w. change (silent change_of (createComment H owner repo n text ;; throw (A := unit) e)).
  unfold createComment. silence.
Qed.

End MergeFacts.

(** X7.  [mergePR] calls [pulls.merge] at most once, for the pull request it
    was given and with the method [squash], and only after the host has
    returned the pull request with [mergeable] true: when the fetch fails or
    the pull request is not mergeable, no merge is called. *)
Theorem X7_merge_only_if_mergeable :
  forall {W : Type} (H : Host W) (owner repo : string) (n : Z) (w : W),
    merges (calls (mergePR H owner repo n w))
    = match pulls_get H owner repo n w with
      | (inr pr, w1) =>
          if mergeable pr
          then [(owner, repo, n, "squash",
                 match fst (pulls_merge H owner repo n "squash" w1) with
                 | inl e => Some e
                 | inr _ => None
                 end)]
          else []
      | (inl _, _) => []
      end.
Proof.
  intros W H owner repo n w. rewrite mergePR_blocks. unfold merges.
  rewrite observe_tryCatch, observe_bind, mergeability_check_no_merge. cbn [app].
  match goal with
  | |- (_ ++ ?b)%list = _ => replace b with (@nil (string * string * Z * string * option Error))
  end.
  2: { match goal with |- _ = match ?o with _ => _ end => destruct o as [e|[]] end;
         [|reflexivity].
       symmetry. apply merge_report_no_merge. }
  rewrite app_nil_r.
  destruct (pulls_get H owner repo n w) as [[e|pr] w1] eqn:Hget.
  - destruct (outcome (mergeability_check H owner repo n w)) as [e1|[]] eqn:Ho; [reflexivity|].
    apply mergeability_check_stop in Ho as (pr & w2 & Hget' & _). congruence.
  - destruct (mergeable pr) eqn:Hm.
    + rewrite (mergeability_check_pass H owner repo n w pr w1 Hget Hm).
      cbn [outcome final fst snd]. apply merge_attempt_merges.
    + destruct (outcome (mergeability_check H owner repo n w)) as [e1|[]] eqn:Ho; [reflexivity|].
      apply mergeability_check_stop in Ho as (pr' & w2 & Hget' & Hm'). congruence.
Qed.

(** X8.  [mergePR] returns normally in one case only: the pull request was
    fetched and is mergeable, the merge succeeded, the host accepted the
    comment that reports it, and the removal of the schedule did not throw.
    In every other case it throws. *)
Theorem X8_merge_success :
  forall {W : Type} (H : Host W) (owner repo : string) (n : Z) (w : W),
    outcome (mergePR H owner repo n w) = inr tt
    <-> exists pr w1 w2 w3,
          pulls_get H owner repo n w = (inr pr, w1)
          /\ mergeable pr = true
          /\ pulls_merge H owner repo n "squash" w1 = (inr tt, w2)
          /\ issues_createComment H owner repo n "✅ Successfully merged as scheduled!" w2
             = (inr tt, w3)
          /\ outcome (removeScheduleInfo H owner repo n w3) = inr tt.
Proof.
  intros W H owner repo n w. rewrite mergePR_blocks, tryCatch_run, bind_run. split.
  - destruct (mergeability_check H owner repo n w) as [[[e|[]] w1] l1] eqn:Hc.
    { cbv beta iota. intros Hout. exfalso. revert Hout. apply merge_report_throws. }
    assert (Hc' : outcome (mergeability_check H owner repo n w) = inr tt) by (rewrite Hc; reflexivity).
    apply mergeability_check_stop in Hc' as (pr & w1' & Hget & Hm).
    rewrite (mergeability_check_pass H owner repo n w pr w1' Hget Hm) in Hc.
    injection Hc as <- <-. cbv beta iota.
    destruct (outcome (merge_attempt H owner repo n w1')) as [e|[]] eqn:Ha.
    { rewrite (run_eta (merge_attempt H owner repo n w1')), Ha. cbv beta iota.
      intros Hout. exfalso. revert Hout. apply merge_report_throws. }
    intros _. exists pr, w1'. rewrite merge_attempt_run in Ha. cbv zeta in Ha.
    destruct (pulls_merge H owner repo n "squash" w1') as [[e|[]] w2].
    { exfalso. revert Ha. apply failed_throws. }
    exists w2. rewrite createComment_run in Ha.
    destruct (issues_createComment H owner repo n "✅ Successfully merged as scheduled!" w2)
      as [[e|[]] w3]; cbn [outcome final calls fst snd] in Ha.
    { exfalso. revert Ha. apply failed_throws. }
    exists w3.
    destruct (outcome (removeScheduleInfo H owner repo n w3)) as [e|[]] eqn:Hr.
    { exfalso. revert Ha. apply failed_throws. }
    auto.
  - intros (pr & w1 & w2 & w3 & Hget & Hm & Hmerge & Hpost & Hrem).
    rewrite (mergeability_check_pass H owner repo n w pr w1 Hget Hm). cbv beta iota.
    rewrite merge_attempt_run. cbv zeta. rewrite Hmerge, createComment_run, Hpost.
    cbn [outcome final calls fst snd]. rewrite Hrem. reflexivity.
Qed.

(** X8 on pull request 7 of the model host, which is open and mergeable. *)
Lemma X8_witness :
  outcome (mergePR GitHub.host "acme" "widgets" 7 Scenario.two_scheduled) = inr tt.
Proof.
  apply (proj2 (X8_merge_success GitHub.host "acme" "widgets" 7 Scenario.two_scheduled)).
  do 4 eexists. repeat split; vm_compute; reflexivity.
Defined.

(** X9.  [mergePR] touches the schedule of a pull request (label removed,
    marker comment deleted) only after the merge has succeeded and the host
    has accepted the comment that reports it: a pull request that could not
    be merged keeps its schedule, and is found again by the next sweep. *)
Theorem X9_schedule_kept_unless_merged :
  forall {W : Type} (H : Host W) (owner repo : string) (n : Z) (w : W),
    changes (calls (mergePR H owner repo n w)) <> [] ->
    exists pr w1 w2 w3,
      pulls_get H owner repo n w = (inr pr, w1)
      /\ mergeable pr = true
      /\ pulls_merge H owner repo n "squash" w1 = (inr tt, w2)
      /\ issues_createComment H owner repo n "✅ Successfully merged as scheduled!" w2
         = (inr tt, w3).
Proof.
  intros W H owner repo n w. rewrite mergePR_blocks. unfold changes.
  rewrite observe_tryCatch, observe_bind, mergeability_check_no_change. cbn [app].
  match goal with
  | |- (_ ++ ?b)%list <> _ -> _ => replace b with (@nil Call)
  end.
  2: { match goal with |- _ = match ?o with _ => _ end => destruct o as [e|[]] end;
         [|reflexivity].
       symmetry. apply merge_report_no_change. }
  rewrite app_nil_r.
  destruct (outcome (mergeability_check H owner repo n w)) as [e|[]] eqn:Ho;
    [intros Hc; contradiction Hc; reflexivity|].
  apply mergeability_check_stop in Ho as (pr & w1 & Hget & Hm).
  rewrite (mergeability_check_pass H owner repo n w pr w1 Hget Hm). cbn [final fst snd].
  intros Hc. exists pr, w1. rewrite merge_attempt_run in Hc. cbv zeta in Hc.
  destruct (pulls_merge H owner repo n "squash" w1) as [[e|[]] w2].
  { exfalso. apply Hc. cbn [calls snd flat_map change_of fst app]. apply failed_no_change. }
  exists w2. rewrite createComment_run in Hc.
  destruct (issues_createComment H owner repo n "✅ Successfully merged as scheduled!" w2)
    as [[e|[]] w3]; cbn [outcome final calls fst snd] in Hc.
  { exfalso. apply Hc. cbn [flat_map change_of fst app]. apply failed_no_change. }
  exists w3. auto.
Qed.

(** X9 on pull request 7 of the model host. *)
Lemma X9_witness :
  exists pr w1 w2 w3,
    pulls_get GitHub.host "acme" "widgets" 7 Scenario.two_scheduled = (inr pr, w1)
    /\ mergeable pr = true
    /\ pulls_merge GitHub.host "acme" "widgets" 7 "squash" w1 = (inr tt, w2)
    /\ issues_createComment GitHub.host "acme" "widgets" 7
         "✅ Successfully merged as scheduled!" w2 = (inr tt, w3).
Proof.
  apply (X9_schedule_kept_unless_merged GitHub.host "acme" "widgets" 7 Scenario.two_scheduled).
  vm_compute. discriminate.
Defined.

Section MergeReports.

Context {W : Type}.
Variable H : Host W.

Lemma removeScheduleInfo_posts_nothing owner repo n :
  silent post_of (removeScheduleInfo H owner repo n).
Proof. unfold removeScheduleInfo. silence. Qed.

End MergeReports.

(** X10.  The merge, the comment that reports it and the removal of the
    schedule share one handler.  When the merge has succeeded and the removal
    of the schedule throws, [mergePR] posts the failure comment after the
    success comment and throws "Failed to merge PR: ..." for a pull request
    that is merged.  The host is taken to accept the comments. *)
Theorem X10_merged_yet_reported_failed :
  forall {W : Type} (H : Host W) (owner repo : string) (n : Z) (w : W)
         (pr : PullRequest) (w1 w2 : W) (error : Error),
    posts_accepted H ->
    pulls_get H owner repo n w = (inr pr, w1) ->
    mergeable pr = true ->
    pulls_merge H owner repo n "squash" w1 = (inr tt, w2) ->
    outcome (removeScheduleInfo H owner repo n
               (snd (issues_createComment H owner repo n
                       "✅ Successfully merged as scheduled!" w2))) = inl error ->
    outcome (mergePR H owner repo n w)
    = inl (new_Error ("Failed to merge PR: " ++ merge_failure_detail error))
    /\ merges (calls (mergePR H owner repo n w)) = [(owner, repo, n, "squash", None)]
    /\ posts (calls (mergePR H owner repo n w))
       = ["✅ Successfully merged as scheduled!";
          "❌ " ++ "Failed to merge PR: " ++ merge_failure_detail error].
Proof.
  intros W H owner repo n w pr w1 w2 error Hacc Hget Hm Hmerge Hrem.
  assert (Hrun : exists w' l,
             merge_attempt H owner repo n w1
             = (inl (new_Error ("Failed to merge PR: " ++ merge_failure_detail error)), w', l)
             /\ merges l = [(owner, repo, n, "squash", None)]
             /\ posts l = ["✅ Successfully merged as scheduled!";
                           "❌ " ++ "Failed to merge PR: " ++ merge_failure_detail error]).
  { rewrite merge_attempt_run. cbv zeta. rewrite Hmerge.
    rewrite (createComment_accepted H owner repo n _ w2 Hacc).
    cbn [outcome final calls fst snd]. rewrite Hrem.
    rewrite bind_run, (createComment_accepted H owner repo n _ _ Hacc).
    cbn [outcome final calls fst snd throw app]. do 2 eexists. split; [reflexivity|].
    pose proof (removeScheduleInfo_no_merge H owner repo n
                  (snd (issues_createComment H owner repo n
                          "✅ Successfully merged as scheduled!" w2))) as Hnm.
    pose proof (removeScheduleInfo_posts_nothing H owner repo n
                  (snd (issues_createComment H owner repo n
                          "✅ Successfully merged as scheduled!" w2))) as Hnp.
    unfold merges, posts. cbn [flat_map merge_of post_of app].
    rewrite !flat_map_app, Hnm, Hnp. split; reflexivity. }
  destruct Hrun as (w' & l & Hrun & Hmerges & Hposts).
  rewrite mergePR_blocks, tryCatch_run, bind_run.
  rewrite (mergeability_check_pass H owner repo n w pr w1 Hget Hm). cbv beta iota.
  rewrite Hrun. cbn [outcome final calls fst snd].
  unfold merge_report. cbn [message new_Error].
  replace (includes ("Failed to merge PR: " ++ merge_failure_detail error) "Failed to merge PR")
    with true
    by (symmetry; apply (includes_prefix "Failed to merge PR" (": " ++ merge_failure_detail error))).
  cbn [negb]. cbn [bind ret throw outcome final calls fst snd app].
  rewrite app_nil_r. unfold merges, posts in *. cbn [flat_map merge_of post_of app].
  rewrite Hmerges, Hposts. repeat split.
Qed.

(** X10 on a host that refuses the removal of labels: pull request 7 is
    merged, and both comments are posted. *)
Lemma X10_witness :
  outcome (mergePR Restricted.host "acme" "widgets" 7 Scenario.two_scheduled)
  = inl (new_Error ("Failed to merge PR: " ++ merge_failure_detail Restricted.error))
  /\ merges (calls (mergePR Restricted.host "acme" "widgets" 7 Scenario.two_scheduled))
     = [("acme", "widgets", 7, "squash", None)]
  /\ posts (calls (mergePR Restricted.host "acme" "widgets" 7 Scenario.two_scheduled))
     = ["✅ Successfully merged as scheduled!";
        "❌ " ++ "Failed to merge PR: " ++ merge_failure_detail Restricted.error].
Proof.
  apply (X10_merged_yet_reported_failed Restricted.host "acme" "widgets" 7 Scenario.two_scheduled
           {| mergeable := true; mergeable_state := "clean" |} Scenario.two_scheduled
           (snd (GitHub.pullsMerge "acme" "widgets" 7 "squash" Scenario.two_scheduled))).
  - intros owner repo number text st. reflexivity.
  - vm_compute. reflexivity.
  - reflexivity.
  - vm_compute. reflexivity.
  - vm_compute. reflexivity.
Defined.

(** ** merge-scheduler.js and index.js: the sweep and the entry point *)

Section IdleSweep.

Context {W : Type}.
Variable H : Host W.

Lemma processCandidates_idle now prs w :
  (forall pr, In pr prs -> now < scheduleTime pr) ->
  processCandidates H now prs w = (inr tt, w, []).
Proof.
  induction prs as [|pr prs IH]; intros Hfuture; [reflexivity|].
  rewrite processCandidates_cons. unfold bind.
  rewrite candidate_step_future.
  - rewrite IH; [reflexivity|]. intros pr' Hin. apply Hfuture. right. exact Hin.
  - unfold due. apply Z.leb_gt. apply Hfuture. left. reflexivity.
Qed.

End IdleSweep.

(** X11.  A sweep that finds no candidate due does nothing beyond the
    discovery: it makes the calls of [getScheduledPRs] and no other, so it
    only reads, it leaves the host as the discovery left it, and it returns
    normally.  Without a token it makes no call at all, and throws what
    [getOctokit] throws. *)
Theorem X11_idle_sweep_only_reads :
  forall {W : Type} (H : Host W) (P : Platform) (token : string) (now : Z) (w : W)
         (prs : list ScheduledPR),
    outcome (getScheduledPRs H P w) = inr prs ->
    (forall pr, In pr prs -> now < scheduleTime pr) ->
    processScheduledMerges H P token now w
    = match getOctokit token with
      | inl error => (inl error, w, [])
      | inr _ => (inr tt, final (getScheduledPRs H P w), calls (getScheduledPRs H P w))
      end
    /\ writes (calls (processScheduledMerges H P token now w)) = [].
Proof.
  intros W H P token now w prs Hout Hfuture.
  assert (Hrun : processScheduledMerges H P token now w
                 = match getOctokit token with
                   | inl error => (inl error, w, [])
                   | inr _ => (inr tt, final (getScheduledPRs H P w),
                               calls (getScheduledPRs H P w))
                   end).
  { rewrite processScheduledMerges_run. destruct (getOctokit token) as [e|[]]; [reflexivity|].
    rewrite bind_run.
    rewrite (run_eta (getScheduledPRs H P w)), Hout. cbv beta iota.
    rewrite (processCandidates_idle H now prs _ Hfuture).
    cbn [outcome final calls fst snd]. rewrite app_nil_r. reflexivity. }
  split; [exact Hrun|]. rewrite Hrun. destruct (getOctokit token) as [e|[]]; [reflexivity|].
  cbn [calls snd]. apply getScheduledPRs_reads.
Qed.

(** X11 two hours before the clock of the examples: both pull requests of
    the model host are scheduled for later. *)
Lemma X11_witness :
  processScheduledMerges GitHub.host platform Scenario.TOKEN (NOW - 2 * Scenario.HOUR)
    Scenario.two_scheduled
  = (inr tt, final (getScheduledPRs GitHub.host platform Scenario.two_scheduled),
     calls (getScheduledPRs GitHub.host platform Scenario.two_scheduled))
  /\ writes (calls (processScheduledMerges GitHub.host platform Scenario.TOKEN
                      (NOW - 2 * Scenario.HOUR) Scenario.two_scheduled)) = [].
Proof.
  apply (X11_idle_sweep_only_reads GitHub.host platform Scenario.TOKEN
           (NOW - 2 * Scenario.HOUR)
           Scenario.two_scheduled
           [Scenario.candidate 7 (NOW - Scenario.HOUR); Scenario.candidate 8 (NOW + Scenario.HOUR)]).
  - vm_compute. reflexivity.
  - intros pr [<-|[<-|[]]]; vm_compute; reflexivity.
Defined.

(** X12.  [run] rejects its inputs before it calls the host.  With a mode
    that is neither [comment] nor [scheduler] the action fails with "Invalid
    mode: " and the mode; in the mode [comment], with an empty comment body,
    an empty repository, or a pull request number that [parseInt] reads as
    [NaN] or as zero, it fails with "Missing required inputs for comment
    handling".  In both cases no call is made and nothing is thrown. *)
Theorem X12_bad_inputs_touch_nothing :
  forall {W : Type} (H : Host W) (P : Platform) (cid now : Z) (inputs : Inputs) (w : W),
    (input_mode inputs <> "comment" -> input_mode inputs <> "scheduler" ->
     Index.run H P cid now inputs w
     = (inr (Some ("Action failed: " ++ "Invalid mode: " ++ input_mode inputs)), w, []))
    /\ (input_mode inputs = "comment" ->
        input_comment_body inputs = EmptyString
        \/ input_repository inputs = EmptyString
        \/ parseInt_number (input_pr_number inputs) = None
        \/ parseInt_number (input_pr_number inputs) = Some 0 ->
        Index.run H P cid now inputs w
        = (inr (Some ("Action failed: " ++ "Missing required inputs for comment handling")),
           w, [])).
Proof.
  intros W H P cid now inputs w. split.
  - intros Hc Hs. apply String.eqb_neq in Hc, Hs. unfold Index.run. cbv zeta.
    rewrite Hc, Hs. reflexivity.
  - intros Hmode Hbad. unfold Index.run. cbv zeta. rewrite Hmode. cbn [String.eqb Ascii.eqb Bool.eqb].
    destruct (parseInt_number (input_pr_number inputs)) as [number|] eqn:Hn; [|reflexivity].
    assert (Hif : (input_comment_body inputs =? EmptyString)%string || (number =? 0)
                  || (input_repository inputs =? EmptyString)%string = true).
    { destruct Hbad as [Hb|[Hb|[Hb|Hb]]].
      - rewrite Hb. reflexivity.
      - rewrite Hb. apply orb_true_r.
      - discriminate Hb.
      - injection Hb as ->. cbn [Z.eqb]. rewrite orb_true_r. reflexivity. }
    rewrite Hif. reflexivity.
Qed.

(** X12 on a mode the action does not know, and on a pull request number
    that is not a number. *)
Lemma X12_witness :
  Index.run Unreachable.host platform 5 NOW (Invocation.mode "bogus") tt
  = (inr (Some ("Action failed: " ++ "Invalid mode: " ++ "bogus")), tt, [])
  /\ Index.run Unreachable.host platform 5 NOW
       (Invocation.comment "@merge-at 2024-01-02 14:30" "abc" "acme/widgets") tt
     = (inr (Some ("Action failed: " ++ "Missing required inputs for comment handling")),
        tt, []).
Proof.
  split.
  - apply (proj1 (X12_bad_inputs_touch_nothing Unreachable.host platform 5 NOW
                    (Invocation.mode "bogus") tt)); vm_compute; discriminate.
  - apply (proj2 (X12_bad_inputs_touch_nothing Unreachable.host platform 5 NOW
                    (Invocation.comment "@merge-at 2024-01-02 14:30" "abc" "acme/widgets") tt)).
    + reflexivity.
    + right. right. left. vm_compute. reflexivity.
Defined.

(** X13.  [run] never throws: what goes wrong is reported as the failure
    message of the action.  In the mode [scheduler] the action fails exactly
    when the client cannot be built from the token or, the client built,
    [getScheduledPRs] throws, with the message of that error: no failed merge
    makes it fail.  In the mode [comment], with inputs that pass the check,
    the action fails without a token, with the message of [getOctokit] and
    no call made; with a token and a host that accepts the comments it does
    not fail, whatever the command and the answer posted for it, and its
    calls are those of [handleComment] for the number [parseInt] gives. *)
Theorem X13_failures_reported :
  forall {W : Type} (H : Host W) (P : Platform) (cid now : Z) (inputs : Inputs) (w : W),
    let token := input_github_token inputs in
    (exists reported, outcome (Index.run H P cid now inputs w) = inr reported)
    /\ (input_mode inputs = "scheduler" ->
        forall text,
          outcome (Index.run H P cid now inputs w) = inr (Some text)
          <-> exists error,
                (getOctokit token = inl error
                 \/ (getOctokit token = inr tt
                     /\ outcome (getScheduledPRs H P w) = inl error))
                /\ text = "Action failed: " ++ message error)
    /\ (input_mode inputs = "comment" ->
        input_comment_body inputs <> EmptyString ->
        input_repository inputs <> EmptyString ->
        forall number,
          parseInt_number (input_pr_number inputs) = Some number -> number <> 0 ->
          (token = EmptyString ->
           Index.run H P cid now inputs w
           = (inr (Some ("Action failed: " ++ "Parameter token or opts.auth is required")),
              w, []))
          /\ (token <> EmptyString -> posts_accepted H ->
              outcome (Index.run H P cid now inputs w) = inr None
              /\ calls (Index.run H P cid now inputs w)
                 = calls (handleComment H P token cid now (input_repository inputs) number
                            (input_comment_body inputs) w))).
Proof.
  intros W H P cid now inputs w token. split; [|split].
  - unfold Index.run. rewrite tryCatch_run.
    match goal with |- context [match ?m w with _ => _ end] => destruct (m w) as [[[e|a] w1] l1] end;
      cbn; eauto.
  - intros Hmode text. unfold Index.run. cbv zeta. rewrite Hmode.
    cbn [String.eqb Ascii.eqb Bool.eqb]. rewrite tryCatch_run, bind_run.
    rewrite processScheduledMerges_run. fold token.
    destruct (getOctokit token) as [e0|[]].
    { cbn [ret outcome final calls fst snd]. split.
      - intros E. injection E as <-. exists e0. split; [left|]; reflexivity.
      - intros (e' & [E|[E _]] & ->); [|discriminate E]. injection E as ->. reflexivity. }
    rewrite bind_run.
    destruct (getScheduledPRs H P w) as [[[e|prs] w1] l1]; cbv beta iota.
    + cbn [ret outcome final calls fst snd]. split.
      * intros E. injection E as <-. exists e. split; [right; split|]; reflexivity.
      * intros (e' & [E|[_ E]] & ->); [discriminate E|]. injection E as ->. reflexivity.
    + destruct (processCandidates_run H now prs w1) as [Hout _]. rewrite Hout.
      cbn [ret outcome final calls fst snd]. split; [discriminate|].
      intros (e' & [E|[_ E]] & _); discriminate E.
  - intros Hmode Hbody Hrepo number Hn Hnz.
    apply string_eqb_empty in Hbody, Hrepo. apply Z.eqb_neq in Hnz.
    assert (Hrun : Index.run H P cid now inputs w
                   = tryCatch (handleComment H P token cid now (input_repository inputs) number
                                 (input_comment_body inputs) ;; ret None)
                              (fun error => ret (Some ("Action failed: " ++ message error))) w).
    { unfold Index.run. cbv zeta. rewrite Hmode, Hn. cbn [String.eqb Ascii.eqb Bool.eqb].
      rewrite Hbody, Hrepo, Hnz. reflexivity. }
    rewrite Hrun, tryCatch_run, bind_run, handleComment_run. split.
    + intros Ht. rewrite Ht. reflexivity.
    + intros Ht Hacc. rewrite getOctokit_client by assumption.
      pose proof (handleComment_try_returns H P Hacc cid now (input_repository inputs) number
                    (input_comment_body inputs) w) as Hout.
      rewrite (run_eta (handleComment_try H P cid now (input_repository inputs) number
                          (input_comment_body inputs) w)), Hout.
      cbn [ret outcome final calls fst snd]. rewrite app_nil_r. split; reflexivity.
Qed.

(** X13 on a host that cannot be reached: the sweep fails with the error of
    the search; and on inputs without a token: the command fails before any
    call. *)
Lemma X13_witness :
  outcome (Index.run Unreachable.host platform 5 NOW (Invocation.mode "scheduler") tt)
  = inr (Some ("Action failed: " ++ message Unreachable.error))
  /\ Index.run GitHub.host platform 5 NOW
       (mkInputs "comment" EmptyString "@merge-at 2024-01-02 14:30" "7" "acme/widgets")
       Scenario.rescheduled
     = (inr (Some ("Action failed: " ++ "Parameter token or opts.auth is required")),
        Scenario.rescheduled, []).
Proof.
  split.
  - apply (proj1 (proj2 (X13_failures_reported Unreachable.host platform 5 NOW
                           (Invocation.mode "scheduler") tt)) eq_refl).
    exists Unreachable.error. split; [right; split|]; reflexivity.
  - apply (proj2 (proj2 (X13_failures_reported GitHub.host platform 5 NOW
                           (mkInputs "comment" EmptyString "@merge-at 2024-01-02 14:30" "7"
                              "acme/widgets")
                           Scenario.rescheduled)) eq_refl) with (number := 7).
    + discriminate.
    + discriminate.
    + vm_compute. reflexivity.
    + discriminate.
    + reflexivity.
Defined.

(** ** The schedule state on the model host, continued *)

Section ModelHostMore.

Import GitHub.

Lemma NoDup_map_same {A B : Type} (key : A -> B) (xs : list A) (a b : A) :
  NoDup (map key xs) -> In a xs -> In b xs -> key a = key b -> a = b.
Proof.
  induction xs as [|x xs IH]; cbn [map]; intros Hnd Ha Hb Hk; [contradiction|].
  inversion Hnd as [|? ? Hx Hxs]; subst.
  destruct Ha as [->|Ha], Hb as [->|Hb]; auto.
  - exfalso. apply Hx. rewrite Hk. apply in_map. exact Hb.
  - exfalso. apply Hx. rewrite <- Hk. apply in_map. exact Ha.
Qed.

(** A comment that is not a marker changes neither the marker comments nor
    the labels. *)
Lemma posted_markers (st : State) owner repo n text o r k :
  includes text "MERGE_SCHEDULE_INFO" = false ->
  marker_comments (snd (createComment owner repo n text st)) o r k = marker_comments st o r k.
Proof.
  intros Hm. unfold marker_comments, issue_comments, createComment. cbn [snd st_comments].
  rewrite !filter_app. cbn [filter].
  destruct (on_issue o r k _); cbn [filter]; [|rewrite app_nil_r; reflexivity].
  unfold is_marker. cbn [view body gc_body]. rewrite Hm. rewrite app_nil_r. reflexivity.
Qed.

Lemma listed_markers_cleared (st : State) owner repo n :
  markers_on_first_page st owner repo n = true ->
  listed_markers (cleared st owner repo n) owner repo n = [].
Proof.
  intros Hpage. pose proof (cleared_markers st owner repo n Hpage) as Hnone.
  unfold listed_markers. rewrite filter_map_comm.
  replace (filter (fun x => is_marker (view x))
             (firstn 100 (issue_comments (cleared st owner repo n) owner repo n)))
    with (@nil GComment); [reflexivity|].
  symmetry. apply filter_none. intros g Hg. apply In_firstn in Hg.
  destruct (is_marker (view g)) eqn:Hm; [|reflexivity]. exfalso.
  assert (Hin : In g (marker_comments (cleared st owner repo n) owner repo n))
    by (apply filter_In; auto).
  rewrite Hnone in Hin. contradiction.
Qed.

Lemma cleared_twice (st : State) owner repo n :
  markers_on_first_page st owner repo n = true ->
  cleared (cleared st owner repo n) owner repo n = cleared st owner repo n.
Proof.
  intros Hpage. unfold cleared at 1. rewrite (listed_markers_cleared st owner repo n Hpage).
  unfold targets. cbn [existsb negb]. rewrite filter_all by reflexivity.
  replace (filter (fun l => negb (is_label owner repo n SCHEDULE_LABEL l))
             (st_labels (cleared st owner repo n)))
    with (st_labels (cleared st owner repo n)).
  - destruct (cleared st owner repo n); reflexivity.
  - symmetry. apply filter_all. intros l Hl. unfold cleared in Hl. cbn [st_labels] in Hl.
    apply filter_In in Hl as [_ Hl]. exact Hl.
Qed.

Lemma cleared_ids (st : State) owner repo n :
  NoDup (map gc_id (st_comments st)) ->
  NoDup (map gc_id (st_comments (cleared st owner repo n))).
Proof. intros Hnd. unfold cleared. cbn [st_comments]. apply NoDup_map_filter. exact Hnd. Qed.

End ModelHostMore.

(** X14.  On the model host, [@merge-at cancel] from an author with write
    permission, handled with a token, removes the schedule: when the marker
    comments of the pull request are on the first page of its comments, the
    pull request is left with no marker comment and no schedule label, and
    the one comment posted is the notice of cancellation.  The cancellation
    goes before anything else in the comment: a date and time in the same
    comment are not read.  Without a token nothing is cancelled:
    [handleComment] throws what [getOctokit] throws. *)
Theorem X14_cancel_clears :
  forall (P : Platform) (st : GitHub.State) (token : string) (cid now : Z)
         (repository : string) (n : Z) (text : string),
    let owner := repo_owner repository in
    let repo := repo_name repository in
    let run := handleComment GitHub.host P token cid now repository n text st in
    unique_ids st = true ->
    can_schedule st owner repo cid = true ->
    includes text CANCEL_COMMAND = true ->
    markers_on_first_page st owner repo n = true ->
    (token <> EmptyString ->
     outcome run = inr tt
     /\ GitHub.marker_comments (final run) owner repo n = []
     /\ GitHub.schedule_labels (final run) owner repo n = []
     /\ posts (calls run) = ["🚫 Scheduled merge has been cancelled."])
    /\ (token = EmptyString ->
        run = (inl (new_Error "Parameter token or opts.auth is required"), st, [])).
Proof.
  intros P st token cid now repository n text owner repo run Hu Hcan Hcancel Hpage.
  split; [|intros Ht; subst run; rewrite Ht; reflexivity].
  intros Ht. subst run. rewrite handleComment_client by assumption.
  apply distinct_NoDup in Hu.
  destruct (can_schedule_inv _ _ _ _ Hcan) as (author & permission & Hget & Hperm & Hok).
  destruct (removeScheduleInfo_run st owner repo n Hu) as [l1 Hrm].
  pose proof (removeScheduleInfo_posts_nothing GitHub.host owner repo n st) as Hnp.
  rewrite Hrm in Hnp. cbn [calls snd] in Hnp.
  assert (Hrun : exists l,
             handleComment_try GitHub.host P cid now repository n text st
             = (inr tt,
                snd (GitHub.createComment owner repo n "🚫 Scheduled merge has been cancelled."
                       (cleared st owner repo n)),
                l)
             /\ posts l = ["🚫 Scheduled merge has been cancelled."]).
  { unfold handleComment_try. cbv zeta. fold owner repo.
    unfold tryCatch at 1. unfold bind at 1. unfold call at 1.
    cbn [issues_getComment GitHub.host]. rewrite Hget.
    unfold bind at 1. unfold hasWritePermission, tryCatch at 1, bind at 1, call at 1.
    cbn [repos_getCollaboratorPermissionLevel GitHub.host]. rewrite Hperm.
    unfold ret at 1. rewrite Hok. cbn [negb]. rewrite Hcancel.
    unfold bind at 1. rewrite Hrm.
    rewrite createComment_accepted by (intros ? ? ? ? ?; reflexivity).
    cbn [issues_createComment GitHub.host].
    eexists. split; [reflexivity|].
    unfold posts. rewrite !flat_map_app. cbn [flat_map post_of app]. rewrite Hnp. reflexivity. }
  destruct Hrun as (l & Hrun & Hposts). rewrite Hrun. cbn [outcome final calls fst snd].
  split; [reflexivity|]. split; [|split; [|exact Hposts]].
  - rewrite posted_markers by reflexivity. apply cleared_markers. exact Hpage.
  - apply (cleared_labels st owner repo n).
Qed.

(** X14 on pull request 7, which carries three marker comments; the comment
    of alice asks for a date and for the cancellation at once. *)
Lemma X14_witness :
  outcome (handleComment GitHub.host platform Scenario.TOKEN 5 NOW "acme/widgets" 7
             "@merge-at 2024-01-02 2:30PM, or rather @merge-at cancel" Scenario.rescheduled)
  = inr tt
  /\ GitHub.marker_comments
       (final (handleComment GitHub.host platform Scenario.TOKEN 5 NOW "acme/widgets" 7
                 "@merge-at 2024-01-02 2:30PM, or rather @merge-at cancel" Scenario.rescheduled))
       (repo_owner "acme/widgets") (repo_name "acme/widgets") 7 = []
  /\ GitHub.schedule_labels
       (final (handleComment GitHub.host platform Scenario.TOKEN 5 NOW "acme/widgets" 7
                 "@merge-at 2024-01-02 2:30PM, or rather @merge-at cancel" Scenario.rescheduled))
       (repo_owner "acme/widgets") (repo_name "acme/widgets") 7 = []
  /\ posts (calls (handleComment GitHub.host platform Scenario.TOKEN 5 NOW "acme/widgets" 7
                     "@merge-at 2024-01-02 2:30PM, or rather @merge-at cancel"
                     Scenario.rescheduled))
     = ["🚫 Scheduled merge has been cancelled."].
Proof.
  apply (X14_cancel_clears platform Scenario.rescheduled Scenario.TOKEN 5 NOW "acme/widgets" 7
           "@merge-at 2024-01-02 2:30PM, or rather @merge-at cancel");
    first [discriminate | vm_compute; reflexivity].
Defined.

(** X15.  On the model host [removeScheduleInfo] removes nothing but the
    schedule of the pull request it is given: every comment it deletes is a
    marker comment of that pull request, every label it removes is the
    schedule label of that pull request, and it adds nothing.  Comments of
    other pull requests that quote the marker stay. *)
Theorem X15_removal_is_local :
  forall (st : GitHub.State) (owner repo : string) (n : Z),
    unique_ids st = true ->
    let after := final (removeScheduleInfo GitHub.host owner repo n st) in
    outcome (removeScheduleInfo GitHub.host owner repo n st) = inr tt
    /\ (forall g, In g (GitHub.st_comments st) ->
                  In g (GitHub.st_comments after)
                  \/ (GitHub.on_issue owner repo n g = true
                      /\ is_marker (GitHub.view g) = true))
    /\ (forall l, In l (GitHub.st_labels st) ->
                  In l (GitHub.st_labels after)
                  \/ GitHub.is_label owner repo n SCHEDULE_LABEL l = true)
    /\ (forall g, In g (GitHub.st_comments after) -> In g (GitHub.st_comments st))
    /\ (forall l, In l (GitHub.st_labels after) -> In l (GitHub.st_labels st))
    /\ GitHub.st_pulls after = GitHub.st_pulls st.
Proof.
  intros st owner repo n Hu after. apply distinct_NoDup in Hu.
  destruct (removeScheduleInfo_run st owner repo n Hu) as [l Hrun].
  subst after. rewrite Hrun. cbn [outcome final fst snd].
  split; [reflexivity|]. unfold cleared. cbn [GitHub.st_comments GitHub.st_labels GitHub.st_pulls].
  split; [|split; [|split; [|split; [|reflexivity]]]].
  - intros g Hg.
    destruct (targets (listed_markers st owner repo n) owner repo g) eqn:Ht.
    + right. apply existsb_exists in Ht as (c & Hc & Hid).
      apply listed_markers_exist in Hc as (g' & Hg' & -> & Hon & Hm).
      assert (g' = g) as ->.
      { apply (NoDup_map_same GitHub.gc_id (GitHub.st_comments st)); auto.
        apply has_id_id in Hid. symmetry. exact Hid. }
      auto.
    + left. apply filter_In. rewrite Ht. auto.
  - intros lb Hl. destruct (GitHub.is_label owner repo n SCHEDULE_LABEL lb) eqn:Hlb; [auto|].
    left. apply filter_In. rewrite Hlb. auto.
  - intros g Hg. apply filter_In in Hg as [Hg _]. exact Hg.
  - intros lb Hl. apply filter_In in Hl as [Hl _]. exact Hl.
Qed.

(** X15 on the two pull requests of the model host: the schedule of pull
    request 8 stays when that of pull request 7 is removed. *)
Lemma X15_witness :
  In (Scenario.on_widgets 8 4 GitHub.BOT (Scenario.marker (NOW + Scenario.HOUR)))
     (GitHub.st_comments
        (final (removeScheduleInfo GitHub.host "acme" "widgets" 7 Scenario.two_scheduled)))
  \/ (GitHub.on_issue "acme" "widgets" 7
        (Scenario.on_widgets 8 4 GitHub.BOT (Scenario.marker (NOW + Scenario.HOUR))) = true
      /\ is_marker (GitHub.view
            (Scenario.on_widgets 8 4 GitHub.BOT (Scenario.marker (NOW + Scenario.HOUR)))) = true).
Proof.
  apply (proj1 (proj2 (X15_removal_is_local Scenario.two_scheduled "acme" "widgets" 7 eq_refl))).
  vm_compute. right. right. right. left. reflexivity.
Defined.

(** X16.  On the model host, when the marker comments of the pull request
    are on the first page of its comments, removing the schedule twice is
    the same as removing it once: the second [removeScheduleInfo] finds the
    label gone, which is no error, deletes nothing and returns. *)
Theorem X16_removal_twice :
  forall (st : GitHub.State) (owner repo : string) (n : Z),
    unique_ids st = true ->
    markers_on_first_page st owner repo n = true ->
    let once := final (removeScheduleInfo GitHub.host owner repo n st) in
    outcome (removeScheduleInfo GitHub.host owner repo n once) = inr tt
    /\ final (removeScheduleInfo GitHub.host owner repo n once) = once
    /\ changes (calls (removeScheduleInfo GitHub.host owner repo n once))
       = [RemoveLabel owner repo n SCHEDULE_LABEL].
Proof.
  intros st owner repo n Hu Hpage once. apply distinct_NoDup in Hu.
  destruct (removeScheduleInfo_run st owner repo n Hu) as [l Hrun].
  subst once. rewrite Hrun. cbn [final fst snd].
  destruct (removeScheduleInfo_run (cleared st owner repo n) owner repo n
              (cleared_ids st owner repo n Hu)) as [l2 Hrun2].
  rewrite Hrun2. cbn [outcome final fst snd].
  split; [reflexivity|]. split; [apply cleared_twice; exact Hpage|].
  rewrite <- Hrun2. clear Hrun2 l2.
  unfold removeScheduleInfo. rewrite rethrow_run, bind_run, tryCatch_run.
  unfold call at 1. cbn [issues_removeLabel GitHub.host]. unfold GitHub.removeLabel.
  replace (existsb (GitHub.is_label owner repo n SCHEDULE_LABEL)
             (GitHub.st_labels (cleared st owner repo n))) with false
    by (symmetry; apply filter_nil_existsb; apply (cleared_labels st owner repo n)).
  cbv beta iota. cbn [has_status status negb Z.eqb Pos.eqb ret outcome final calls fst snd app].
  rewrite bind_run. unfold call at 1. cbn [issues_listComments GitHub.host].
  unfold GitHub.listComments. cbv beta iota.
  fold (listed_markers (cleared st owner repo n) owner repo n).
  rewrite (listed_markers_cleared st owner repo n Hpage). reflexivity.
Qed.

(** X16 on pull request 7 with its three marker comments. *)
Lemma X16_witness :
  outcome (removeScheduleInfo GitHub.host "acme" "widgets" 7
             (final (removeScheduleInfo GitHub.host "acme" "widgets" 7 Scenario.rescheduled)))
  = inr tt
  /\ final (removeScheduleInfo GitHub.host "acme" "widgets" 7
              (final (removeScheduleInfo GitHub.host "acme" "widgets" 7 Scenario.rescheduled)))
     = final (removeScheduleInfo GitHub.host "acme" "widgets" 7 Scenario.rescheduled)
  /\ changes (calls (removeScheduleInfo GitHub.host "acme" "widgets" 7
                       (final (removeScheduleInfo GitHub.host "acme" "widgets" 7
                                 Scenario.rescheduled))))
     = [RemoveLabel "acme" "widgets" 7 SCHEDULE_LABEL].
Proof.
  apply (X16_removal_twice Scenario.rescheduled "acme" "widgets" 7); vm_compute; reflexivity.
Defined.

Section ModelMerge.

Import GitHub.

Lemma close_pull_closes owner repo n (ps : list GPull) :
  existsb (fun p => is_pull owner repo n p && gp_open p) (map (close_pull owner repo n) ps)
  = false.
Proof.
  induction ps as [|p ps IH]; [reflexivity|]. cbn [map existsb]. rewrite IH, orb_false_r.
  unfold close_pull. destruct (is_pull owner repo n p) eqn:Hp.
  - cbn [gp_open]. apply andb_false_r.
  - rewrite Hp. reflexivity.
Qed.

Lemma fresh_ids_NoDup (st : State) text owner repo n :
  fresh_ids st = true ->
  NoDup (map gc_id (st_comments st)) ->
  NoDup (map gc_id (st_comments (snd (createComment owner repo n text st)))).
Proof.
  intros Hf Hnd. unfold createComment. cbn [snd st_comments]. rewrite map_app. cbn [map gc_id].
  apply NoDup_app; [assumption|repeat constructor; intros []|].
  intros id Hin [<-|[]]. apply in_map_iff in Hin as (g & Hid & Hg).
  unfold fresh_ids in Hf. rewrite forallb_forall in Hf. specialize (Hf g Hg).
  apply Z.ltb_lt in Hf. lia.
Qed.

Lemma posted_on_first_page (st : State) text owner repo n o r k :
  includes text "MERGE_SCHEDULE_INFO" = false ->
  markers_on_first_page st o r k = true ->
  markers_on_first_page (snd (createComment owner repo n text st)) o r k = true.
Proof.
  intros Hm Hpage. unfold markers_on_first_page, issue_comments, createComment in *.
  cbn [snd st_comments]. rewrite filter_app, skipn_app, forallb_app, Hpage. cbn [andb].
  apply forallb_forall. intros g Hg.
  assert (Hin : In g (filter (on_issue o r k) [mkGComment (st_next_id st) owner repo n BOT text])).
  { revert Hg. generalize (100 - List.length (filter (on_issue o r k) (st_comments st)))%nat.
    intros j. generalize (filter (on_issue o r k) [mkGComment (st_next_id st) owner repo n BOT text]).
    intros xs. revert j. induction xs as [|x xs IH]; intros [|j]; cbn [skipn]; auto.
    - intros Hg. right. apply (IH j). exact Hg. }
  apply filter_In in Hin as [[<-|[]] _]. unfold is_marker. cbn [view body gc_body].
  rewrite Hm. reflexivity.
Qed.

(** [mergePR] on the model host, for a pull request that is ready. *)
Lemma mergePR_run (st : State) owner repo n :
  NoDup (map gc_id (st_comments st)) ->
  fresh_ids st = true ->
  ready_to_merge st owner repo n = true ->
  exists l,
    mergePR host owner repo n st
    = (inr tt,
       cleared (snd (createComment owner repo n "✅ Successfully merged as scheduled!"
                       (snd (pullsMerge owner repo n "squash" st)))) owner repo n,
       l)
    /\ posts l = ["✅ Successfully merged as scheduled!"].
Proof.
  intros Hnd Hf Hready. unfold ready_to_merge in Hready.
  destruct (find (is_pull owner repo n) (st_pulls st)) as [p|] eqn:Hfind; [|discriminate].
  apply andb_true_iff in Hready as [Hopen Hmergeable].
  assert (Hget : pulls_get host owner repo n st
                 = (inr {| mergeable := true; mergeable_state := "clean" |}, st)).
  { cbn [pulls_get host]. unfold pullsGet. rewrite Hfind, Hmergeable. reflexivity. }
  assert (Hmerge : pulls_merge host owner repo n "squash" st
                   = (inr tt, snd (pullsMerge owner repo n "squash" st))).
  { cbn [pulls_merge host]. unfold pullsMerge. rewrite Hfind, Hopen, Hmergeable. reflexivity. }
  set (st1 := snd (pullsMerge owner repo n "squash" st)) in *.
  assert (Hst1 : st_comments st1 = st_comments st /\ st_next_id st1 = st_next_id st).
  { subst st1. unfold pullsMerge. rewrite Hfind, Hopen, Hmergeable. split; reflexivity. }
  destruct Hst1 as [Hc1 Hn1].
  set (st2 := snd (createComment owner repo n "✅ Successfully merged as scheduled!" st1)).
  assert (Hnd2 : NoDup (map gc_id (st_comments st2))).
  { apply fresh_ids_NoDup.
    - unfold fresh_ids. rewrite Hc1, Hn1. exact Hf.
    - rewrite Hc1. exact Hnd. }
  destruct (removeScheduleInfo_run st2 owner repo n Hnd2) as [l3 Hrm].
  pose proof (removeScheduleInfo_posts_nothing host owner repo n st2) as Hnp.
  rewrite Hrm in Hnp. cbn [calls snd] in Hnp.
  rewrite mergePR_blocks, tryCatch_run, bind_run.
  rewrite (mergeability_check_pass host owner repo n st _ st Hget eq_refl). cbv beta iota.
  rewrite merge_attempt_run. cbv zeta. rewrite Hmerge.
  rewrite createComment_accepted by (intros ? ? ? ? ?; reflexivity).
  cbn [issues_createComment host outcome final calls fst snd]. fold st2.
  rewrite Hrm. cbn [outcome final calls fst snd app].
  eexists. split; [reflexivity|].
  unfold posts. cbn [flat_map post_of app]. rewrite Hnp. reflexivity.
Qed.

End ModelMerge.

(** X17.  On the model host, [mergePR] on a pull request that is open and
    mergeable merges it and removes its schedule: it returns normally, the
    pull request is closed, no schedule label and (the marker comments being
    on the first page of its comments) no marker comment is left on it, and
    the one comment posted is the notice of success; the search of the next
    sweep does not find it. *)
Theorem X17_merge_on_model_host :
  forall (st : GitHub.State) (owner repo : string) (n : Z),
    unique_ids st = true ->
    fresh_ids st = true ->
    ready_to_merge st owner repo n = true ->
    markers_on_first_page st owner repo n = true ->
    outcome (mergePR GitHub.host owner repo n st) = inr tt
    /\ still_open (final (mergePR GitHub.host owner repo n st)) owner repo n = false
    /\ GitHub.schedule_labels (final (mergePR GitHub.host owner repo n st)) owner repo n = []
    /\ GitHub.marker_comments (final (mergePR GitHub.host owner repo n st)) owner repo n = []
    /\ posts (calls (mergePR GitHub.host owner repo n st))
       = ["✅ Successfully merged as scheduled!"].
Proof.
  intros st owner repo n Hu Hf Hready Hpage. apply distinct_NoDup in Hu.
  destruct (mergePR_run st owner repo n Hu Hf Hready) as (l & Hrun & Hposts).
  rewrite Hrun. cbn [outcome final calls fst snd].
  split; [reflexivity|]. split; [|split; [|split; [|exact Hposts]]].
  - unfold still_open, cleared, GitHub.createComment. cbn [GitHub.st_pulls snd].
    unfold ready_to_merge in Hready. unfold GitHub.pullsMerge.
    destruct (find (GitHub.is_pull owner repo n) (GitHub.st_pulls st)) as [p|]; [|discriminate].
    rewrite Hready. cbn [snd GitHub.st_pulls]. apply close_pull_closes.
  - apply cleared_labels.
  - apply cleared_markers. apply posted_on_first_page; [reflexivity|].
    unfold markers_on_first_page, GitHub.issue_comments in *.
    unfold ready_to_merge in Hready. unfold GitHub.pullsMerge.
    destruct (find (GitHub.is_pull owner repo n) (GitHub.st_pulls st)) as [p|]; [|discriminate].
    rewrite Hready. exact Hpage.
Qed.

(** X17 on pull request 7 of the model host. *)
Lemma X17_witness :
  outcome (mergePR GitHub.host "acme" "widgets" 7 Scenario.two_scheduled) = inr tt
  /\ still_open (final (mergePR GitHub.host "acme" "widgets" 7 Scenario.two_scheduled))
       "acme" "widgets" 7 = false
  /\ GitHub.schedule_labels (final (mergePR GitHub.host "acme" "widgets" 7 Scenario.two_scheduled))
       "acme" "widgets" 7 = []
  /\ GitHub.marker_comments (final (mergePR GitHub.host "acme" "widgets" 7 Scenario.two_scheduled))
       "acme" "widgets" 7 = []
  /\ posts (calls (mergePR GitHub.host "acme" "widgets" 7 Scenario.two_scheduled))
     = ["✅ Successfully merged as scheduled!"].
Proof.
  apply (X17_merge_on_model_host Scenario.two_scheduled "acme" "widgets" 7);
    vm_compute; reflexivity.
Defined.

(** ** utils.js: what is stored is what is read back *)

Section GreedyDot.

Lemma succ_neqb (i : nat) : (S i =? i)%nat = false.
Proof. apply Nat.eqb_neq. lia. Qed.

Lemma plain_line_width (c : ascii) (X : string) :
  plain c = true -> line_width (String c X) = 0%nat.
Proof. each_byte c; intros H; first [reflexivity | discriminate H]. Qed.

Lemma line_ends_starts (b : string) : line_ends b = true -> starts_char b = true.
Proof.
  destruct b as [|y b]; [reflexivity|]. cbn [line_ends]. intros H.
  destruct (line_width (String y b)) as [|k] eqn:Hw; [discriminate H|].
  apply width_inv in Hw as (w & rest & Hin & -> & _).
  cbv [LINE_TERMINATORS] in Hin. repeat (destruct Hin as [<-|Hin]); [..|contradiction];
    reflexivity.
Qed.

Lemma starts_char_app (a b : string) :
  starts_char a = true -> starts_char b = true -> starts_char (a ++ b) = true.
Proof. intros Ha Hb. destruct a; [exact Hb|exact Ha]. Qed.

Lemma no_line_break_head (x : ascii) (a b : string) :
  no_line_break (String x a) = true -> starts_char b = true ->
  line_width (String x (a ++ b)) = 0%nat /\ no_line_break a = true.
Proof.
  cbn [no_line_break]. intros Ha Hb. apply andb_true_iff in Ha as [Hx Ha].
  split; [|assumption]. change (String x (a ++ b)) with (String x a ++ b).
  rewrite line_width_app by (assumption || discriminate). apply Nat.eqb_eq. exact Hx.
Qed.

Lemma star_dot_step (fuel i : nat) (x : ascii) (s : string) (c : captures) (k : cont) :
  line_width (String x s) = 0%nat ->
  star (run Dot) (S fuel) i (String x s) c k
  = match star (run Dot) fuel (S i) s c k with
    | Some res => Some res
    | None => k i (String x s) c
    end.
Proof. intros Hx. cbn [star run]. rewrite Hx, succ_neqb. reflexivity. Qed.

Lemma star_dot_stop (fuel i : nat) (b : string) (c : captures) (k : cont) :
  line_ends b = true -> star (run Dot) fuel i b c k = k i b c.
Proof.
  intros Hb. destruct fuel as [|fuel]; [reflexivity|]. cbn [star run].
  destruct b as [|y b]; [reflexivity|]. cbn [line_ends] in Hb.
  apply negb_true_iff in Hb. rewrite Hb. reflexivity.
Qed.

(** [.*] over a line none of whose splits lets the rest of the pattern
    match. *)
Lemma star_dots_none (a b : string) (fuel i : nat) (c : captures) (k : cont) :
  no_line_break a = true -> line_ends b = true -> (String.length a <= fuel)%nat ->
  (forall d a', a = d ++ a' -> k (i + String.length d)%nat (a' ++ b) c = None) ->
  star (run Dot) fuel i (a ++ b) c k = None.
Proof.
  revert fuel i. induction a as [|x a IH]; intros fuel i Ha Hb Hlen Hk.
  - cbn [append]. rewrite star_dot_stop by assumption.
    specialize (Hk EmptyString EmptyString eq_refl). cbn [String.length append] in Hk.
    rewrite Nat.add_0_r in Hk. exact Hk.
  - destruct (no_line_break_head x a b Ha (line_ends_starts b Hb)) as [Hx Ha'].
    destruct fuel as [|fuel]; [cbn [String.length] in Hlen; lia|].
    cbn [append]. rewrite star_dot_step by assumption.
    rewrite IH; [| assumption | assumption | cbn [String.length] in Hlen; lia |].
    + specialize (Hk EmptyString (String x a) eq_refl). cbn [String.length append] in Hk.
      rewrite Nat.add_0_r in Hk. exact Hk.
    + intros d a' ->. specialize (Hk (String x d) a' eq_refl).
      cbn [String.length] in Hk. rewrite Nat.add_succ_r in Hk. exact Hk.
Qed.

(** [.*] is greedy and gives back: of the splits of the line that let the
    rest of the pattern match, the one with the longest first part wins. *)
Lemma star_dots_last (a1 a2 b : string) (fuel i : nat) (c : captures) (k : cont)
    (res : nat * captures) :
  no_line_break a1 = true -> no_line_break a2 = true -> starts_char a2 = true ->
  line_ends b = true ->
  (String.length a1 + String.length a2 <= fuel)%nat ->
  k (i + String.length a1)%nat (a2 ++ b) c = Some res ->
  (forall d a', a2 = d ++ a' -> d <> EmptyString ->
                k (i + String.length a1 + String.length d)%nat (a' ++ b) c = None) ->
  star (run Dot) fuel i (a1 ++ a2 ++ b) c k = Some res.
Proof.
  revert fuel i. induction a1 as [|x a1 IH]; intros fuel i Ha1 Ha2 Hs2 Hb Hlen Hres Hlater.
  - cbn [append String.length] in *. rewrite Nat.add_0_r in *.
    destruct a2 as [|y a2].
    + cbn [append]. rewrite star_dot_stop by assumption. exact Hres.
    + destruct (no_line_break_head y a2 b Ha2 (line_ends_starts b Hb)) as [Hy Ha2'].
      destruct fuel as [|fuel]; [cbn [String.length] in Hlen; lia|].
      cbn [append]. rewrite star_dot_step by assumption.
      rewrite star_dots_none; [exact Hres | assumption | assumption
                               | cbn [String.length] in Hlen; lia |].
      intros d a' ->. specialize (Hlater (String y d) a' eq_refl).
      cbn [String.length] in Hlater. rewrite Nat.add_succ_r in Hlater.
      apply Hlater. discriminate.
  - destruct (no_line_break_head x a1 (a2 ++ b) Ha1
                (starts_char_app a2 b Hs2 (line_ends_starts b Hb))) as [Hx Ha1'].
    destruct fuel as [|fuel]; [cbn [String.length] in Hlen; lia|].
    cbn [append]. rewrite star_dot_step by assumption.
    rewrite (IH fuel (S i)); [reflexivity | assumption | assumption | assumption | assumption
                              | cbn [String.length] in Hlen; lia | |].
    + cbn [String.length] in Hres. rewrite Nat.add_succ_r in Hres. exact Hres.
    + intros d a' Hd Hne. specialize (Hlater d a' Hd Hne).
      cbn [String.length] in Hlater. rewrite Nat.add_succ_r in Hlater. exact Hlater.
Qed.

Lemma no_line_break_app (a b : string) :
  starts_char b = true -> no_line_break (a ++ b) = no_line_break a && no_line_break b.
Proof.
  intros Hb. induction a as [|x a IH]; [reflexivity|]. cbn [append no_line_break].
  change (String x (a ++ b)) with (String x a ++ b).
  rewrite line_width_app by (assumption || discriminate). rewrite IH. apply andb_assoc.
Qed.

(** Plain bytes are no part of a line terminator, whatever follows them. *)
Lemma no_line_break_plain (a b : string) :
  all_plain a = true -> no_line_break (a ++ b) = no_line_break b.
Proof.
  induction a as [|x a IH]; [reflexivity|]. cbn [all_plain append no_line_break]. intros H.
  apply andb_true_iff in H as [Hx Ha]. rewrite plain_line_width by assumption.
  rewrite IH by assumption. reflexivity.
Qed.

Lemma substring_prefix (a b : string) : substring 0 (String.length a) (a ++ b) = a.
Proof.
  induction a as [|x a IH]; cbn [append String.length substring].
  - destruct b; reflexivity.
  - rewrite IH. reflexivity.
Qed.

End GreedyDot.

Section MarkerFacts.

Lemma run_lit (p s : string) (i : nat) (c : captures) (k : cont) :
  run (lit p) i (p ++ s) c k = k (i + String.length p)%nat s c.
Proof.
  revert i. induction p as [|a p IH]; intros i; cbn [lit run append String.length].
  - rewrite Nat.add_0_r. reflexivity.
  - unfold chr. cbn [run]. rewrite Ascii.eqb_refl, IH, Nat.add_succ_r. reflexivity.
Qed.

Lemma search_next (r : regex) (i : nat) (a : ascii) (s : string) :
  match_at r i (String a s) = None -> search r i (String a s) = search r (S i) s.
Proof. intros Hn. cbn [search]. rewrite Hn. reflexivity. Qed.

Lemma search_here (r : regex) (i : nat) (s : string) (res : nat * captures) :
  match_at r i s = Some res -> search r i s = Some res.
Proof. intros Hs. destruct s; cbn [search]; rewrite Hs; reflexivity. Qed.

(** The marker pattern where the marker starts: the group takes the first
    character and [.*] goes on from the second. *)
Lemma marker_at (x : ascii) (rest : string) :
  line_width (String x rest) = 0%nat ->
  match_at MARKER_REGEX 5 ("MERGE_SCHEDULE_INFO " ++ String x rest)
  = star (run Dot) (String.length rest) 26 rest []
      (fun i' s' c' =>
         run (lit " -->") i' s' ((1%nat, substring 0 (i' - 25) (String x rest)) :: c')
             (fun i'' _ c'' => Some (i'', c''))).
Proof.
  intros Hx. unfold match_at, MARKER_REGEX.
  change (run (lit "MERGE_SCHEDULE_INFO " ;;; Grp 1 (plus Dot) ;;; lit " -->") 5
            ("MERGE_SCHEDULE_INFO " ++ String x rest) [] (fun i' _ c => Some (i', c)))
    with (run (lit "MERGE_SCHEDULE_INFO ") 5 ("MERGE_SCHEDULE_INFO " ++ String x rest) []
            (fun i' s' c' =>
               run (Grp 1 (plus Dot) ;;; lit " -->") i' s' c'
                   (fun i'' _ c'' => Some (i'', c'')))).
  rewrite run_lit.
  transitivity
    (if (line_width (String x rest) =? 0)%nat
     then star (run Dot) (String.length rest) 26 rest []
            (fun i' s' c' =>
               run (lit " -->") i' s' ((1%nat, substring 0 (i' - 25) (String x rest)) :: c')
                   (fun i'' _ c'' => Some (i'', c'')))
     else None); [reflexivity|].
  rewrite Hx. reflexivity.
Qed.

(** The marker pattern on a marker comment: whatever follows the first line,
    the group is the text between the marker and the last [ -->] of the
    line. *)
Lemma marker_capture (x : ascii) (u tail : string) :
  no_line_break (String x u) = true -> line_ends tail = true ->
  exec MARKER_REGEX ("<!-- MERGE_SCHEDULE_INFO " ++ String x u ++ " -->" ++ tail)
  = Some [(1%nat, String x u)].
Proof.
  intros Hxu Htail.
  destruct (no_line_break_head x u (" -->" ++ tail) Hxu eq_refl) as [Hx Hu]. unfold exec.
  change ("<!-- MERGE_SCHEDULE_INFO " ++ String x u ++ " -->" ++ tail)
    with (String "<" (String "!" (String "-" (String "-" (String " "
            ("MERGE_SCHEDULE_INFO " ++ String x (u ++ " -->" ++ tail))))))).
  do 5 (rewrite search_next by reflexivity).
  rewrite (search_here _ _ _ (30 + String.length u, [(1, String x u)])%nat); [reflexivity|].
  rewrite marker_at by assumption.
  apply star_dots_last; try assumption; try reflexivity.
  - rewrite !string_length_app. cbn [String.length]. lia.
  - cbn [append]. cbn [lit]. unfold chr. cbn [run Ascii.eqb Bool.eqb andb].
    replace (26 + String.length u - 25)%nat with (S (String.length u)) by lia.
    cbn [substring]. rewrite substring_prefix.
    replace (S (S (S (S (26 + String.length u)))))%nat with (30 + String.length u)%nat by lia.
    reflexivity.
  - intros d a' Hd Hne.
    destruct d as [|c1 [|c2 [|c3 [|c4 [|c5 d]]]]]; [contradiction Hne; reflexivity| | | | |];
      cbn [append] in Hd.
    + injection Hd as <- <-. reflexivity.
    + injection Hd as <- <- <-. reflexivity.
    + injection Hd as <- <- <- <-. reflexivity.
    + injection Hd as <- <- <- <- <-. cbn [append]. destruct tail as [|y tail]; [reflexivity|].
      cbn [lit]. unfold chr. cbn [run].
      destruct (Ascii.eqb " " y) eqn:Hy; [|reflexivity].
      apply Ascii.eqb_eq in Hy. subst y. cbn [line_ends] in Htail.
      vm_compute in Htail. discriminate Htail.
    + discriminate Hd.
Qed.

End MarkerFacts.

Section StoredMarker.

Variable P : Platform.

Lemma exec_confirmationMessage (t : Z) (localTime utcTime tz : string) :
  no_line_break (toISOString P t) = true ->
  exec MARKER_REGEX (confirmationMessage P t localTime utcTime tz)
  = Some [(1%nat, scheduleInfo_json P t)].
Proof.
  intros Hiso. unfold confirmationMessage, scheduleInfo_json.
  apply (marker_capture "{"
           (dquote ++ "type" ++ dquote ++ ":" ++ dquote ++ "merge-schedule-info" ++ dquote ++ ","
            ++ dquote ++ "scheduleDate" ++ dquote ++ ":" ++ dquote ++ toISOString P t ++ dquote
            ++ "}")); [|reflexivity].
  change (String "{" (dquote ++ "type" ++ dquote ++ ":" ++ dquote ++ "merge-schedule-info"
                      ++ dquote ++ "," ++ dquote ++ "scheduleDate" ++ dquote ++ ":" ++ dquote
                      ++ toISOString P t ++ dquote ++ "}"))
    with (("{" ++ dquote ++ "type" ++ dquote ++ ":" ++ dquote ++ "merge-schedule-info"
           ++ dquote ++ "," ++ dquote ++ "scheduleDate" ++ dquote ++ ":" ++ dquote)
          ++ toISOString P t ++ dquote ++ "}").
  rewrite no_line_break_plain by reflexivity.
  rewrite no_line_break_app, Hiso by reflexivity. reflexivity.
Qed.

End StoredMarker.

(** X18.  The marker comment [storeScheduleInfo] writes is decoded by the
    pattern of [getScheduledPRs] to the payload that was encoded: when the
    text of the instant has no line terminator, the group the pattern
    captures in the confirmation message is the JSON text of the schedule,
    whatever the local time, the UTC time and the time zone shown below
    it. *)
Theorem X18_marker_round_trip :
  forall (P : Platform) (t : Z) (localTime utcTime tz : string),
    no_line_break (toISOString P t) = true ->
    option_map (group_of 1) (exec MARKER_REGEX (confirmationMessage P t localTime utcTime tz))
    = Some (scheduleInfo_json P t).
Proof.
  intros P t localTime utcTime tz Hiso. rewrite exec_confirmationMessage by assumption.
  unfold group_of. cbn [option_map group Nat.eqb]. reflexivity.
Qed.

(** X18 on the instant an hour after the clock of the examples. *)
Lemma X18_witness :
  option_map (group_of 1)
    (exec MARKER_REGEX
       (confirmationMessage platform (NOW + Scenario.HOUR) "2024-01-01 01:00 PM"
          "2024-01-01 13:00" "UTC"))
  = Some (scheduleInfo_json platform (NOW + Scenario.HOUR)).
Proof.
  apply (X18_marker_round_trip platform (NOW + Scenario.HOUR)). vm_compute. reflexivity.
Defined.



(** ** comment-handler.js: the parser, continued *)

Section ParserMore.

Variable P : Platform.

Lemma resolveInstant_trim (s s' tz : string) :
  trim s = trim s' -> resolveInstant P s tz = resolveInstant P s' tz.
Proof. intros Ht. unfold resolveInstant. rewrite Ht. reflexivity. Qed.

Lemma validate_of_resolve (now : Z) (s s' tz tz' : string) :
  resolveInstant P s tz = resolveInstant P s' tz' ->
  validateScheduleTime P now s tz = validateScheduleTime P now s' tz'.
Proof.
  intros Hr. unfold validateScheduleTime, validateScheduleTime_try. rewrite Hr. reflexivity.
Qed.

(** White space around a date and a 24-hour time is dropped by [trim]. *)
Lemma trim_date_time (lead d gap hs ms trail : string) :
  all_space lead = true -> is_token d = true -> is_gap gap = true ->
  is_hour_text hs = true -> is_minute_text ms = true -> all_space trail = true ->
  trim (lead ++ d ++ gap ++ hs ++ ":" ++ ms ++ trail) = d ++ gap ++ hs ++ ":" ++ ms.
Proof.
  intros Hl Hd Hg Hh Hm Ht. destruct (time_text_plain hs ms Hh Hm) as [HT HTne].
  pose proof (trim_date_time_rest d gap (hs ++ ":" ++ ms) trail EmptyString Hd Hg HT HTne Ht eq_refl)
    as E.
  cbn [String.eqb] in E. rewrite !append_nil_r, !append_assoc in E.
  unfold trim in *. rewrite trimStart_all_space by assumption. exact E.
Qed.

Lemma padded_hour (hs : string) :
  is_hour_text hs = true ->
  is_hour_text (padStart0 2 hs) = true
  /\ parseInt (padStart0 2 hs) = parseInt hs
  /\ padStart0 2 (padStart0 2 hs) = padStart0 2 hs.
Proof.
  unfold is_hour_text. intros Hh. apply andb_true_iff in Hh as [Hd Hl].
  destruct hs as [|a [|b [|? ?]]]; try discriminate Hl.
  - cbn [all_digits] in Hd. apply andb_true_iff in Hd as [Ha _].
    unfold padStart0, parseInt.
    cbn [String.length Nat.sub repeat String.concat append all_digits parseInt_from Nat.eqb
         orb andb].
    rewrite Ha. change (is_digit "0") with true. change (digit_val "0") with 0.
    cbv beta iota. repeat split.
  - change (padStart0 2 (String a (String b EmptyString))) with (String a (String b EmptyString)).
    rewrite Hd. repeat split.
Qed.

End ParserMore.

(** X20.  The range check of the parser in general: with no meridiem marker
    every hour above 23 and every minute above 59 is rejected; with a
    meridiem marker every hour outside 1 to 12, the hour 0 included, and
    every minute above 59.  The reason is "Invalid time format", and the
    platform is not asked for the instant. *)
Theorem X20_time_out_of_range :
  forall (P : Platform) (now : Z) (tz d gap hs ms : string),
    is_token d = true -> is_gap gap = true ->
    is_hour_text hs = true -> is_minute_text ms = true ->
    (23 < parseInt hs \/ 59 < parseInt ms ->
     validateScheduleTime P now (d ++ gap ++ hs ++ ":" ++ ms) tz
     = inl (new_Error (PREFIX ++ "Invalid time format")))
    /\ (forall gap2 mt,
          all_space gap2 = true -> is_meridiem_text mt = true ->
          parseInt hs < 1 \/ 12 < parseInt hs \/ 59 < parseInt ms ->
          validateScheduleTime P now (d ++ gap ++ hs ++ ":" ++ ms ++ gap2 ++ mt) tz
          = inl (new_Error (PREFIX ++ "Invalid time format"))).
Proof.
  intros P now tz d gap hs ms Hd Hg Hh Hm. split.
  - intros Hbad. apply validate_of_resolve_error. rewrite resolve_24h by assumption.
    replace ((parseInt hs <? 0) || (parseInt hs >? 23) || (parseInt ms <? 0)
             || (parseInt ms >? 59)) with true; [reflexivity|].
    symmetry. destruct Hbad as [Hbad|Hbad].
    + apply range_bad_hour. lia.
    + apply range_bad_minute. lia.
  - intros gap2 mt Hg2 Hmt Hbad. apply validate_of_resolve_error.
    rewrite resolve_12h by assumption.
    replace ((parseInt hs <? 1) || (parseInt hs >? 12) || (parseInt ms <? 0)
             || (parseInt ms >? 59)) with true; [reflexivity|].
    symmetry. destruct Hbad as [Hbad|[Hbad|Hbad]].
    + apply Z.ltb_lt in Hbad. rewrite Hbad. reflexivity.
    + apply range_bad_hour. lia.
    + apply range_bad_minute. lia.
Qed.

(** X20 on 24:00, which is not midnight, and on 0:30 AM. *)
Lemma X20_witness :
  validateScheduleTime platform NOW ("2024-01-02" ++ " " ++ "24" ++ ":" ++ "00") "UTC"
  = inl (new_Error (PREFIX ++ "Invalid time format"))
  /\ validateScheduleTime platform NOW
       ("2024-01-02" ++ " " ++ "0" ++ ":" ++ "30" ++ " " ++ "AM") "UTC"
     = inl (new_Error (PREFIX ++ "Invalid time format")).
Proof.
  split.
  - apply (proj1 (X20_time_out_of_range platform NOW "UTC" "2024-01-02" " " "24" "00"
                    eq_refl eq_refl eq_refl eq_refl)).
    left. vm_compute. reflexivity.
  - apply (proj2 (X20_time_out_of_range platform NOW "UTC" "2024-01-02" " " "0" "30"
                    eq_refl eq_refl eq_refl eq_refl) " " "AM" eq_refl eq_refl).
    left. vm_compute. reflexivity.
Defined.

(** X21.  For a date and a 24-hour time the parser does not see the white
    space around the text, the width of the gap between the date and the
    time, or a missing leading zero of the hour: the text parses as the date
    token, one space, and the time with the hour padded to two digits. *)
Theorem X21_normal_form_24_hour :
  forall (P : Platform) (now : Z) (tz lead d gap hs ms trail : string),
    all_space lead = true -> is_token d = true -> is_gap gap = true ->
    is_hour_text hs = true -> is_minute_text ms = true -> all_space trail = true ->
    validateScheduleTime P now (lead ++ d ++ gap ++ hs ++ ":" ++ ms ++ trail) tz
    = validateScheduleTime P now (d ++ " " ++ padStart0 2 hs ++ ":" ++ ms) tz.
Proof.
  intros P now tz lead d gap hs ms trail Hl Hd Hg Hh Hm Ht.
  destruct (padded_hour hs Hh) as (Hph & Hpi & Hpp).
  apply validate_of_resolve.
  rewrite (resolveInstant_trim P (lead ++ d ++ gap ++ hs ++ ":" ++ ms ++ trail)
             (d ++ gap ++ hs ++ ":" ++ ms) tz).
  - rewrite (resolve_24h P d gap hs ms tz) by assumption.
    rewrite (resolve_24h P d " " (padStart0 2 hs) ms tz) by (assumption || reflexivity).
    rewrite Hpi, Hpp. reflexivity.
  - rewrite (trim_date_time lead d gap hs ms trail) by assumption.
    rewrite <- (append_nil_r ms) at 2.
    rewrite <- (trim_date_time EmptyString d gap hs ms EmptyString) by (assumption || reflexivity).
    reflexivity.
Qed.

(** X21 on a text with white space around it and a one-digit hour; the white
    space is a no-break space and a space before the date, an ideographic
    space in the gap and a line separator at the end. *)
Lemma X21_witness :
  validateScheduleTime platform NOW
    ((bytes [194; 160] ++ " ") ++ "2024-01-02" ++ ("  " ++ bytes [227; 128; 128]) ++ "9"
     ++ ":" ++ "30" ++ bytes [226; 128; 168]) "UTC"
  = validateScheduleTime platform NOW
      ("2024-01-02" ++ " " ++ padStart0 2 "9" ++ ":" ++ "30") "UTC".
Proof.
  apply (X21_normal_form_24_hour platform NOW "UTC" (bytes [194; 160] ++ " ") "2024-01-02"
           ("  " ++ bytes [227; 128; 128]) "9" "30" (bytes [226; 128; 168]));
    reflexivity.
Defined.

(** ** Storing a schedule and answering a command *)

(** X22.  [storeScheduleInfo] adds the label first and does not undo it.
    When the host refuses the label, the error is thrown to the caller and
    no comment is posted; when the host accepts the label and refuses the
    comment, the error of the comment is thrown and the two calls are all
    that was made: the label stays on a pull request that has no marker
    comment. *)
Theorem X22_label_before_marker :
  forall {W : Type} (H : Host W) (P : Platform) (owner repo : string) (n t : Z)
         (localTime utcTime tz : string) (w : W),
    (forall error w1,
        issues_addLabels H owner repo n [SCHEDULE_LABEL] w = (inl error, w1) ->
        storeScheduleInfo H P owner repo n t localTime utcTime tz w
        = (inl error, w1, [(AddLabels owner repo n [SCHEDULE_LABEL], Some error)]))
    /\ (forall w1 error w2,
        issues_addLabels H owner repo n [SCHEDULE_LABEL] w = (inr tt, w1) ->
        issues_createComment H owner repo n (confirmationMessage P t localTime utcTime tz) w1
        = (inl error, w2) ->
        storeScheduleInfo H P owner repo n t localTime utcTime tz w
        = (inl error, w2,
           [(AddLabels owner repo n [SCHEDULE_LABEL], None);
            (CreateComment owner repo n (confirmationMessage P t localTime utcTime tz),
             Some error)])).
Proof.
  intros W H P owner repo n t localTime utcTime tz w. split.
  - intros error w1 Hadd. unfold storeScheduleInfo. rewrite rethrow_run, bind_run.
    unfold call. rewrite Hadd. reflexivity.
  - intros w1 error w2 Hadd Hpost. unfold storeScheduleInfo. rewrite rethrow_run, bind_run.
    unfold call at 1. rewrite Hadd. cbv beta iota.
    rewrite createComment_run, Hpost. reflexivity.
Qed.

(** X22 on the host that cannot be reached. *)
Lemma X22_witness :
  storeScheduleInfo Unreachable.host platform "acme" "widgets" 7 (NOW + Scenario.HOUR)
    "2024-01-01 01:00 PM" "2024-01-01 13:00" "UTC" tt
  = (inl Unreachable.error, tt,
     [(AddLabels "acme" "widgets" 7 [SCHEDULE_LABEL], Some Unreachable.error)]).
Proof.
  apply (proj1 (X22_label_before_marker Unreachable.host platform "acme" "widgets" 7
                  (NOW + Scenario.HOUR) "2024-01-01 01:00 PM" "2024-01-01 13:00" "UTC" tt)).
  reflexivity.
Defined.

Section Answers.

Context {W : Type}.
Variable H : Host W.
Variable P : Platform.
Hypothesis accepted : posts_accepted H.

Lemma answers_createComment owner repo n text : answers (createComment H owner repo n text).
Proof.
  intros w. rewrite createComment_accepted by assumption. exists text. reflexivity.
Qed.

Lemma answers_bind {A B : Type} (m : M W A) (k : A -> M W B) :
  silent post_of m -> (forall a, answers (k a)) -> answers (bind m k).
Proof.
  intros Hm Hk w. rewrite bind_run. specialize (Hm w).
  destruct (m w) as [[[e|a] w1] l1]; cbn [calls snd] in Hm; [exact Hm|].
  specialize (Hk a w1). destruct (k a w1) as [[[e|b] w2] l2]; cbn [outcome final calls fst snd];
    unfold posts in *; rewrite flat_map_app, Hm; exact Hk.
Qed.

Lemma answers_tryCatch {A : Type} (m : M W A) (h : Error -> M W A) :
  answers m -> (forall e, answers (h e)) -> answers (tryCatch m h).
Proof.
  intros Hm Hh w. rewrite tryCatch_run. specialize (Hm w).
  destruct (m w) as [[[e|a] w1] l1]; [|exact Hm].
  specialize (Hh e w1). destruct (h e w1) as [[[e'|b] w2] l2]; cbn [outcome final calls fst snd];
    unfold posts in *; rewrite flat_map_app, Hm; exact Hh.
Qed.

Lemma answers_throw {A : Type} (e : Error) : answers (throw (W := W) (A := A) e).
Proof. intros w. reflexivity. Qed.

Lemma answers_storeScheduleInfo owner repo n t localTime utcTime tz :
  answers (storeScheduleInfo H P owner repo n t localTime utcTime tz).
Proof.
  unfold storeScheduleInfo, rethrow. apply answers_tryCatch; [|intros e; apply answers_throw].
  apply answers_bind; [silence|]. intros _. apply answers_createComment.
Qed.

Lemma answers_handleComment_try cid now repository n text :
  answers (handleComment_try H P cid now repository n text).
Proof.
  unfold handleComment_try. cbv zeta.
  apply answers_tryCatch; [|intros e; apply answers_createComment].
  apply answers_bind; [silence|]. intros author.
  apply answers_bind; [unfold hasWritePermission; silence|]. intros allowed.
  destruct (negb allowed); [apply answers_createComment|].
  destruct (includes text CANCEL_COMMAND).
  - apply answers_bind; [apply removeScheduleInfo_posts_nothing|].
    intros _. apply answers_createComment.
  - destruct (exec COMMAND_REGEX text) as [m|]; [|apply answers_createComment].
    apply answers_tryCatch; [|intros e; apply answers_createComment].
    do 3 (apply answers_bind; [silence|]; intros ?).
    apply answers_bind; [apply removeScheduleInfo_posts_nothing|].
    intros _. apply answers_storeScheduleInfo.
Qed.

End Answers.

(** X23.  With a token, on a host that accepts the comments,
    [handleComment] answers every command with exactly one comment on the
    pull request, whatever the author lookup, the permission check, the
    parser and the storage give: no command goes unanswered and none is
    answered twice.  Without a token no call is made, so no command is
    answered. *)
Theorem X23_one_reply :
  forall {W : Type} (H : Host W) (P : Platform) (token : string) (cid now : Z)
         (repository : string) (n : Z) (text : string) (w : W),
    posts_accepted H ->
    (token <> EmptyString ->
     exists reply,
       posts (calls (handleComment H P token cid now repository n text w)) = [reply])
    /\ (token = EmptyString ->
        calls (handleComment H P token cid now repository n text w) = []).
Proof.
  intros W H P token cid now repository n text w Hacc. split.
  - intros Ht. rewrite handleComment_client by assumption.
    pose proof (answers_handleComment_try H P Hacc cid now repository n text w) as Hans.
    pose proof (handleComment_try_returns H P Hacc cid now repository n text w) as Hout.
    destruct (handleComment_try H P cid now repository n text w) as [[[e|[]] w1] l];
      [discriminate Hout|]. exact Hans.
  - intros ->. reflexivity.
Qed.

(** X23 on a command of bob, who may only read. *)
Lemma X23_witness :
  exists reply,
    posts (calls (handleComment GitHub.host platform Scenario.TOKEN 3 NOW "acme/widgets" 7
                    "@merge-at 2024-01-02 14:30"
                    (GitHub.mkState
                       [Scenario.on_widgets 7 3 "bob" "@merge-at 2024-01-02 14:30"] []
                       Scenario.collaborators [GitHub.mkGPull "acme" "widgets" 7 true true] 4)))
    = [reply].
Proof.
  apply (X23_one_reply GitHub.host platform Scenario.TOKEN 3 NOW "acme/widgets" 7
           "@merge-at 2024-01-02 14:30").
  - intros owner repo number text st. reflexivity.
  - discriminate.
Defined.

